(** * QA-automate: the capture-compare-score engine

    A shallow embedding of the visual-regression scripts
    ([qa-analyzer.mjs], [quick-start.js] and their enhanced variants)
    and the properties of their pipeline: baseline handling, pixel-diff
    alerting, section / style / content validation, compliance scoring
    and the overall report status.

    Part I holds the model, Part II the lemmas about it. *)

From Stdlib Require Import QArith Qabs Qround Lqa Ascii String Floats.
From stdpp Require Import gmap strings list.

Set Default Proof Using "Type".
Local Open Scope Q_scope.

(** * Part I: the model *)

(** ** JavaScript values *)

(** A JS string is a sequence of UTF-16 code units. *)
Definition jsstring := list N.

(** Literal strings of the sources whose characters are all ASCII. *)
Definition js (s : string) : jsstring :=
  (λ a, N_of_ascii a) <$> list_ascii_of_string s.

(** The double quote, for the template strings that contain one. *)
Definition dq : jsstring := [34%N].

(** The content of a file. *)
Definition bytes := list N.

(** The outcome of an operation that may throw: [Throw] carries
    [err.message]. *)
Inductive result (A : Type) : Type :=
  | Ok (a : A)
  | Throw (message : jsstring).
Arguments Ok {A} a.
Arguments Throw {A} message.

#[export] Instance result_ret : MRet result := λ A a, Ok a.
#[export] Instance result_bind : MBind result := λ A B k r,
  match r with
  | Ok a => k a
  | Throw m => Throw m
  end.

(** [try { body } catch (err) { handler(err.message) }] *)
Definition try_catch {A} (body : result A) (handler : jsstring → A) : A :=
  match body with
  | Ok a => a
  | Throw m => handler m
  end.

(** A JS number.  Finite values are carried exactly as rationals (every
    finite binary64 value is one); the non-finite values follow IEEE 754
    as JavaScript does.  The numbers the scorers compute with are array
    lengths and their quotients, so a zero is always [+0].  The
    operations of [Num] are the exact ones, without the rounding of the
    last place; [Double] has the rounded difference, for the sizes the
    enhanced variant compares. *)
Inductive number : Type :=
  | NaN
  | PosInf
  | NegInf
  | Fin (q : Q).

Module Num.

Definition of_nat (n : nat) : number := Fin (inject_Z (Z.of_nat n)).

Definition neg (x : number) : number :=
  match x with
  | NaN => NaN
  | PosInf => NegInf
  | NegInf => PosInf
  | Fin q => Fin (Qred (- q))
  end.

(** The infinity with the sign of [q], or [at0] when [q] is zero. *)
Definition inf_signed (at0 : number) (q : Q) : number :=
  match q ?= 0 with
  | Eq => at0
  | Gt => PosInf
  | Lt => NegInf
  end.

(** [x / y] *)
Definition div (x y : number) : number :=
  match x, y with
  | NaN, _ | _, NaN => NaN
  | Fin p, Fin q =>
      if Qeq_bool q 0 then inf_signed NaN p else Fin (Qred (p / q))
  | Fin _, (PosInf | NegInf) => Fin 0
  | PosInf, Fin q => inf_signed PosInf q
  | NegInf, Fin q => neg (inf_signed PosInf q)
  | (PosInf | NegInf), (PosInf | NegInf) => NaN
  end.

(** [x * y] *)
Definition mul (x y : number) : number :=
  match x, y with
  | NaN, _ | _, NaN => NaN
  | Fin p, Fin q => Fin (Qred (p * q))
  | PosInf, Fin q | Fin q, PosInf => inf_signed NaN q
  | NegInf, Fin q | Fin q, NegInf => neg (inf_signed NaN q)
  | PosInf, PosInf | NegInf, NegInf => PosInf
  | PosInf, NegInf | NegInf, PosInf => NegInf
  end.

(** [x - y] *)
Definition sub (x y : number) : number :=
  match x, y with
  | NaN, _ | _, NaN => NaN
  | Fin p, Fin q => Fin (Qred (p - q))
  | PosInf, PosInf | NegInf, NegInf => NaN
  | PosInf, _ | _, NegInf => PosInf
  | NegInf, _ | _, PosInf => NegInf
  end.

(** [x >= y]: false as soon as one side is [NaN]. *)
Definition geb (x y : number) : bool :=
  match x, y with
  | NaN, _ | _, NaN => false
  | PosInf, _ | _, NegInf => true
  | NegInf, _ | _, PosInf => false
  | Fin p, Fin q => Qle_bool q p
  end.

(** [Math.max(x, y)] *)
Definition max (x y : number) : number :=
  match x, y with
  | NaN, _ | _, NaN => NaN
  | _, _ => if geb x y then x else y
  end.

(** The order of the extended reals on numbers; [NaN] is unordered. *)
Definition le (x y : number) : Prop :=
  match x, y with
  | NaN, _ | _, NaN => False
  | NegInf, _ | _, PosInf => True
  | PosInf, _ | _, NegInf => False
  | Fin p, Fin q => p <= q
  end.

(** Numerical equality ([===] on numbers, which [NaN] never satisfies). *)
Definition eq (x y : number) : Prop :=
  match x, y with
  | PosInf, PosInf | NegInf, NegInf => True
  | Fin p, Fin q => p == q
  | _, _ => False
  end.

End Num.

(** ** Strings *)

Module Str.

(** [s.startsWith(t)] *)
Fixpoint startsWith (s t : jsstring) : bool :=
  match t, s with
  | [], _ => true
  | _ :: _, [] => false
  | y :: t', x :: s' => bool_decide (x = y) && startsWith s' t'
  end.

(** [s.includes(t)]: [t] matches at some index of [s]. *)
Fixpoint includes (s t : jsstring) : bool :=
  startsWith s t ||
  match s with
  | [] => false
  | _ :: s' => includes s' t
  end.

(** [l.join(sep)] *)
Fixpoint join (sep : jsstring) (l : list jsstring) : jsstring :=
  match l with
  | [] => []
  | [x] => x
  | x :: l' => x ++ sep ++ join sep l'
  end.

(** The class [\s] of a regular expression, which is also what
    [String.prototype.trim] removes: white space and line terminators. *)
Definition is_space (c : N) : bool :=
  bool_decide (c ∈ [9; 10; 11; 12; 13; 32; 160; 5760; 8232; 8233; 8239; 8287; 12288; 65279]%N)
  || ((8192 <=? c)%N && (c <=? 8202)%N).

(** The character class of the style validator's regular expression:
    a single quote, a double quote, or a [\s] character. *)
Definition is_quote_or_space (c : N) : bool :=
  bool_decide (c = 39%N) || bool_decide (c = 34%N) || is_space c.

(** [s.replace(re, '')] for that class with the [g] flag: every quote
    and white-space character is removed. *)
Definition strip_quotes_spaces (s : jsstring) : jsstring :=
  List.filter (λ c, negb (is_quote_or_space c)) s.

Fixpoint trimStart (s : jsstring) : jsstring :=
  match s with
  | [] => []
  | c :: s' => if is_space c then trimStart s' else s
  end.

(** [s.trim()] *)
Definition trim (s : jsstring) : jsstring :=
  rev (trimStart (rev (trimStart s))).

(** A stand-in for [String.prototype.toLowerCase] that folds the ASCII
    letters and leaves every other code unit as it is; it agrees with
    JavaScript on strings whose cased letters are all ASCII. *)
Definition toLowerCase_ascii (s : jsstring) : jsstring :=
  (λ c, if (65 <=? c)%N && (c <=? 90)%N then (c + 32)%N else c) <$> s.

(** [t] occurs in [s] as a substring. *)
Definition contains (s t : jsstring) : Prop :=
  ∃ pre post, s = pre ++ t ++ post.

End Str.

(** ** Issues, screenshots and the analyzer's state *)

(** The issue objects the scripts push, by their [type] tag.  The
    [qa-analyzer] scripts tag a caught exception ['error'], the
    [quick-start] scripts tag it ['analysis_error']. *)
Inductive Issue : Type :=
  | visual_diff (pixelsChanged : nat)
  | missing_section (section : jsstring) (description : option jsstring)
  | section_error (section message : jsstring)
  | analysis_error (section error : jsstring)
  | style_mismatch (section message : jsstring)
  | missing_content (expectedText : jsstring) (description : option jsstring).

#[export] Instance Issue_eq_dec : EqDecision Issue.
Proof. solve_decision. Defined.

(** [i.type] *)
Definition type (i : Issue) : string :=
  match i with
  | visual_diff _ => "visual_diff"
  | missing_section _ _ => "missing_section"
  | section_error _ _ => "error"
  | analysis_error _ _ => "analysis_error"
  | style_mismatch _ _ => "style_mismatch"
  | missing_content _ _ => "missing_content"
  end.

(** An entry of [this.screenshots].  [found] is [None] when the object
    has no such property (the display-only properties [description],
    [timestamp] and [viewport] are left out). *)
Record Screenshot : Type := mkScreenshot {
  name : jsstring;
  path : jsstring;
  found : option bool
}.

(** The file system, and the two arrays an analyzer object carries. *)
Record State : Type := mkState {
  fs : gmap jsstring bytes;
  issues : list Issue;
  screenshots : list Screenshot
}.

Definition push_issue (i : Issue) (st : State) : State :=
  mkState (fs st) (issues st ++ [i]) (screenshots st).

Definition push_screenshot (s : Screenshot) (st : State) : State :=
  mkState (fs st) (issues st) (screenshots st ++ [s]).

(** [fs.writeFile(p, b)], also what a screenshot taken with a [path]
    option does. *)
Definition writeFile (p : jsstring) (b : bytes) (st : State) : State :=
  mkState (<[p := b]> (fs st)) (issues st) (screenshots st).

(** [fs.access(p)] *)
Definition access (p : jsstring) (st : State) : result unit :=
  match fs st !! p with
  | Some _ => Ok ()
  | None => Throw (js "ENOENT: no such file or directory")
  end.

(** [fs.readFile(p)] *)
Definition readFile (p : jsstring) (st : State) : result bytes :=
  match fs st !! p with
  | Some b => Ok b
  | None => Throw (js "ENOENT: no such file or directory")
  end.

(** [fs.copyFile(src, dst)] *)
Definition copyFile (src dst : jsstring) (st : State) : result State :=
  b ← readFile src st; Ok (writeFile dst b st).

(** ** The collaborators *)

(** A decoded image ([pngjs]). *)
Record PNG : Type := mkPNG {
  width : nat;
  height : nat;
  data : list N
}.

(** [pngjs] and [pixelmatch].  [pixelmatch img1 img2 w h] stands for
    [pixelmatch(img1, img2, output, w, h, { threshold: 0.1 })] with a
    fresh output buffer of [w * h * 4] bytes: it returns the filled
    buffer and the number of mismatched pixels, or throws. *)
Class ImageLib : Type := {
  PNG_sync_read : bytes → result PNG;
  PNG_sync_write : PNG → bytes;
  pixelmatch : list N → list N → nat → nat → result (list N * nat)
}.

(** What the two libraries guarantee: buffers of different lengths are
    refused, and an image compared with itself has no mismatched pixel. *)
Class ImageLibLaws (L : ImageLib) : Prop := {
  pixelmatch_sizes img1 img2 w h :
    length img1 ≠ length img2 → ∃ m, pixelmatch img1 img2 w h = Throw m;
  pixelmatch_identity img w h :
    length img = (w * h * 4)%nat → ∃ out, pixelmatch img img w h = Ok (out, 0%nat);
  PNG_data_length b img :
    PNG_sync_read b = Ok img → length (data img) = (width img * height img * 4)%nat
}.

(** The loaded page, as the browser answers for it. *)
Record Page : Type := mkPage {
  (** [page.screenshot({ fullPage: true })] *)
  screenshot : result bytes;
  (** [page.locator(selector).first().isVisible()] *)
  isVisible : jsstring → result bool;
  (** [page.locator(selector).first().screenshot()] *)
  elementScreenshot : jsstring → result bytes;
  (** [getComputedStyle(el).getPropertyValue(prop)] on the first match
      of the selector *)
  computedStyle : jsstring → jsstring → result jsstring
}.

(** A reference instance of the two libraries, for running the model: an
    uncompressed raster format (width, height, then the RGBA bytes) and
    an exact pixel comparison. *)
Module Reference.

Definition read (b : bytes) : result PNG :=
  match b with
  | w :: h :: d =>
      if decide (length d = N.to_nat w * N.to_nat h * 4)%nat
      then Ok (mkPNG (N.to_nat w) (N.to_nat h) d)
      else Throw (js "unexpected end of input")
  | _ => Throw (js "Invalid file signature")
  end.

Definition write (img : PNG) : bytes :=
  N.of_nat (width img) :: N.of_nat (height img) :: data img.

Fixpoint mismatched (img1 img2 : list N) : nat :=
  match img1, img2 with
  | r1 :: g1 :: b1 :: a1 :: img1', r2 :: g2 :: b2 :: a2 :: img2' =>
      ((if decide ((r1, g1, b1, a1) = (r2, g2, b2, a2)) then 0 else 1)
       + mismatched img1' img2')%nat
  | _, _ => 0%nat
  end.

Definition compare (img1 img2 : list N) (w h : nat) : result (list N * nat) :=
  if decide (length img1 = length img2) then
    if decide (length img1 = w * h * 4)%nat then
      Ok (replicate (w * h * 4) 0%N, mismatched img1 img2)
    else Throw (js "Image data size does not match width/height.")
  else Throw (js "Image sizes do not match.").

#[export] Instance lib : ImageLib := {
  PNG_sync_read := read;
  PNG_sync_write := write;
  pixelmatch := compare
}.

End Reference.

(** ** [qa-analyzer.mjs] and its variants: [EnhancedQAAnalyzer] *)

Module Analyzer.

(** [`${dir}/${file}`]; [path.join(dir, file)] yields the same on the
    directories [run] builds. *)
Definition path_join (dir file : jsstring) : jsstring := dir ++ js "/" ++ file.

Definition currentPath (dir : jsstring) : jsstring := path_join dir (js "current.png").
Definition baselinePath (dir : jsstring) : jsstring := path_join dir (js "baseline.png").
Definition diffPath (dir : jsstring) : jsstring := path_join dir (js "diff.png").

(** [this.figmaDesignSpecs] and [this.defaultSections] *)
Record Config : Type := mkConfig {
  figmaDesignSpecs : option (gmap jsstring (list jsstring));
  defaultSections : gmap jsstring (list jsstring)
}.

(** [this.figmaDesignSpecs?.[pageName] || this.defaultSections[pageName] || []]
    (an array, even an empty one, is truthy), among the own properties
    of the two objects: the list the loop of [analyzeSections] runs
    over when the lookup yields one.  [Lookup.expected] has the lookup
    with the properties every object inherits. *)
Definition expectedFor (cfg : Config) (pageName : jsstring) : list jsstring :=
  match figmaDesignSpecs cfg ≫= (λ specs, specs !! pageName) with
  | Some sections => sections
  | None => default [] (defaultSections cfg !! pageName)
  end.

Section WithImageLib.
Context {L : ImageLib}.

(** The [try] block of [takeScreenshotWithDiff].  Nothing is written or
    pushed before the last statement that can throw, so a thrown
    exception leaves the state as it was. *)
Definition diffAgainstBaseline (dir : jsstring) (st : State) : result State :=
  _ ← access (baselinePath dir) st;
  current ← readFile (currentPath dir) st;
  img1 ← PNG_sync_read current;
  baseline ← readFile (baselinePath dir) st;
  img2 ← PNG_sync_read baseline;
  '(diff, pixelDiff) ← pixelmatch (data img1) (data img2) (width img1) (height img1);
  let st := writeFile (diffPath dir) (PNG_sync_write (mkPNG (width img1) (height img1) diff)) st in
  let st := push_screenshot (mkScreenshot (js "diff") (diffPath dir) None) st in
  Ok (if decide (50 < pixelDiff)%nat then push_issue (visual_diff pixelDiff) st else st).

(** The state once the full-page screenshot is written to
    [current.png] and pushed. *)
Definition captured (shot : bytes) (dir : jsstring) (st : State) : State :=
  push_screenshot (mkScreenshot (js "full-page") (currentPath dir) None)
    (writeFile (currentPath dir) shot st).

Definition takeScreenshotWithDiff (page : Page) (dir : jsstring) (st : State) : result State :=
  shot ← screenshot page;
  let st := captured shot dir st in
  match diffAgainstBaseline dir st with
  | Ok st' => Ok st'
  | Throw _ => copyFile (currentPath dir) (baselinePath dir) st
  end.

End WithImageLib.

Definition sectionSelector (section : jsstring) : jsstring :=
  js "." ++ section ++ js ", [class*=" ++ dq ++ section ++ dq
  ++ js "], section[id*=" ++ dq ++ section ++ dq ++ js "]".

(** One iteration of the loop of [analyzeSections]. *)
Definition analyzeSection (page : Page) (dir : jsstring) (st : State) (section : jsstring) : State :=
  let selector := sectionSelector section in
  try_catch
    (visible ← isVisible page selector;
     if visible : bool then
       let imgPath := path_join dir (section ++ js ".png") in
       img ← elementScreenshot page selector;
       Ok (push_screenshot (mkScreenshot section imgPath None) (writeFile imgPath img st))
     else Ok (push_issue (missing_section section None) st))
    (λ message, push_issue (section_error section message) st).

Definition analyzeSections (cfg : Config) (page : Page) (pageName dir : jsstring) (st : State) : State :=
  foldl (analyzeSection page dir) st (expectedFor cfg pageName).

(** What one expected section adds to [this.issues], read off the
    page's answers for that section alone. *)
Definition sectionIssues (page : Page) (section : jsstring) : list Issue :=
  match isVisible page (sectionSelector section) with
  | Throw message => [section_error section message]
  | Ok false => [missing_section section None]
  | Ok true =>
      match elementScreenshot page (sectionSelector section) with
      | Throw message => [section_error section message]
      | Ok _ => []
      end
  end.

(** An entry of [checks] in [validateStyles]; [expectedStyles] in the
    order of [Object.entries]. *)
Record StyleCheck : Type := mkStyleCheck {
  check_name : jsstring;
  check_selector : jsstring;
  expectedStyles : list (jsstring * jsstring)
}.

Definition color_primary : jsstring := js "#0070f3".
Definition color_secondary : jsstring := js "#1c1c1e".
Definition font_body : jsstring := dq ++ js "Inter" ++ dq ++ js ", sans-serif".
Definition font_heading : jsstring := dq ++ js "Poppins" ++ dq ++ js ", sans-serif".

Definition checks : list StyleCheck :=
  [ mkStyleCheck (js "header") (js "header")
      [(js "color", color_primary); (js "font-family", font_heading)];
    mkStyleCheck (js "body") (js "body")
      [(js "color", color_secondary); (js "font-family", font_body)];
    mkStyleCheck (js "footer") (js "footer")
      [(js "color", color_secondary); (js "font-family", font_body)] ].

Section WithCase.
Variable toLowerCase : jsstring → jsstring.

(** [v.toLowerCase().replace(re, '')] *)
Definition normalize (v : jsstring) : jsstring :=
  Str.strip_quotes_spaces (toLowerCase v).

Definition mismatchMessage (prop expected computedValue : jsstring) : jsstring :=
  js "CSS property " ++ dq ++ prop ++ dq ++ js " expected " ++ dq ++ expected ++ dq
  ++ js ", but got " ++ dq ++ Str.trim computedValue ++ dq.

(** The comparison of one property, once its computed value is known. *)
Definition compareStyle (check : StyleCheck) (prop expected computedValue : jsstring)
    (st : State) : State :=
  let normalizedExpected := normalize expected in
  let normalizedActual := normalize computedValue in
  if negb (Str.includes normalizedActual normalizedExpected) then
    push_issue (style_mismatch (check_name check) (mismatchMessage prop expected computedValue)) st
  else st.

(** The [try] / [catch] of one check: the properties in order, up to
    the first computed-style lookup that throws. *)
Fixpoint validateCheck (page : Page) (check : StyleCheck)
    (entries : list (jsstring * jsstring)) (st : State) : State :=
  match entries with
  | [] => st
  | (prop, expected) :: entries' =>
      match computedStyle page (check_selector check) prop with
      | Ok computedValue =>
          validateCheck page check entries' (compareStyle check prop expected computedValue st)
      | Throw message =>
          push_issue (section_error (js "style_validation_" ++ check_name check) message) st
      end
  end.

Definition validateStylesOf (checks : list StyleCheck) (page : Page) (st : State) : State :=
  foldl (λ st check, validateCheck page check (expectedStyles check) st) st checks.

Definition validateStyles : Page → State → State := validateStylesOf checks.

End WithCase.

Inductive ReportStatus : Type := PASS | REVIEW | NEEDS_REVIEW.

(** The report object ([timestamp] left out). *)
Record Report : Type := mkReport {
  url : jsstring;
  status : ReportStatus;
  summary_screenshots : nat;
  summary_issues : nat;
  report_screenshots : list Screenshot;
  report_issues : list Issue
}.

(** [this.issues.length ? 'REVIEW' : 'PASS'] *)
Definition generateReport (pageUrl : jsstring) (st : State) : Report :=
  mkReport pageUrl
    (if decide (length (issues st) = 0%nat) then PASS else REVIEW)
    (length (screenshots st)) (length (issues st))
    (screenshots st) (issues st).

End Analyzer.

(** One iteration of the loop of [run], for one page at one viewport:
    the report, and the state it leaves (the file system persists, the
    two arrays are reset at the start of the next iteration). *)
Definition Analyzer_runOne {L : ImageLib} (toLowerCase : jsstring → jsstring)
    (cfg : Analyzer.Config) (page : Page) (pageName pageUrl dir : jsstring)
    (files : gmap jsstring bytes) : result (Analyzer.Report * State) :=
  let st := mkState files [] [] in
  st ← Analyzer.takeScreenshotWithDiff page dir st;
  let st := Analyzer.analyzeSections cfg page pageName dir st in
  let st := Analyzer.validateStyles toLowerCase page st in
  Ok (Analyzer.generateReport pageUrl st, st).

(** ** [quick-start.js] and its enhanced variant: the scorers *)

Inductive Tier : Type := GOOD | FAIR | POOR.

(** [score >= 80 ? 'GOOD' : score >= 60 ? 'FAIR' : 'POOR'], the ternary
    that [assessVisualCompliance], [assessContentCompliance] and
    [calculateTechnicalScore] each apply to their score. *)
Definition tier (score : number) : Tier :=
  if Num.geb score (Num.of_nat 80) then GOOD
  else if Num.geb score (Num.of_nat 60) then FAIR
  else POOR.

(** What a scorer returns ([details] and [errorCount], which repeat the
    counts, left out). *)
Record Assessment : Type := mkAssessment {
  score : number;
  tier_of : Tier
}.

(** The same arithmetic on the kernel's binary64 numbers, to check the
    rational model against IEEE 754 where the two could differ: at the
    quotients by zero and at the tier boundaries. *)
Module Binary64.

Definition of_nat (n : nat) : float := PrimFloat.of_uint63 (Uint63.of_Z (Z.of_nat n)).

(** [(count / total) * 100] *)
Definition ratio_score (count total : nat) : float :=
  (of_nat count / of_nat total * 100)%float.

(** [((total - missing) / total) * 100] *)
Definition content_score (total missing : nat) : float :=
  ((of_nat total - of_nat missing) / of_nat total * 100)%float.

Definition tier (score : float) : Tier :=
  if (80 <=? score)%float then GOOD
  else if (60 <=? score)%float then FAIR
  else POOR.

(** The binary64 values that the literals 79.999 and 59.999 denote. *)
Definition just_below_80 : float := 0x1.3ffef9db22d0ep+6%float.
Definition just_below_60 : float := 0x1.dffdf3b645a1dp+5%float.

End Binary64.

(** The result of [page.evaluate] in [performContentAnalysis] ([tag] and
    [href] left out). *)
Record TextItem : Type := mkTextItem {
  text : jsstring;
  visible : bool
}.

Record TextContent : Type := mkTextContent {
  headings : list TextItem;
  paragraphs : list TextItem;
  buttons : list TextItem;
  links : list TextItem
}.

Record DesignSpecs : Type := mkDesignSpecs {
  expectedColors : list jsstring;
  expectedTexts : list jsstring;
  expectedSections : list jsstring
}.

(** An entry of [sections] in [analyzeViewportSections]. *)
Record SectionRule : Type := mkSectionRule {
  rule_name : jsstring;
  rule_selector : jsstring;
  rule_description : jsstring
}.

Module QuickStart.

(** [this.designSpecs]; the arrow of the last text is U+2192. *)
Definition designSpecs : DesignSpecs :=
  mkDesignSpecs
    [js "#1a4a47"; js "#ff4d00"; js "#ffffff"; js "#f5f5f5"]
    [js "A unified switch";
     js "Built for scale";
     js "Powering payments across emerging markets";
     js "Built with local insight. Backed by global scale";
     js "Local " ++ [8594%N] ++ js " Global"]
    [js "hero"; js "features"; js "trust-indicators"; js "global-reach"; js "footer"].

Definition sections : list SectionRule :=
  [ mkSectionRule (js "hero-section") (js "header, .hero, h1")
      (js "Main hero section with primary heading");
    mkSectionRule (js "navigation") (js "nav, .nav, .navigation")
      (js "Main navigation menu");
    mkSectionRule (js "features")
      (js ".features, .cards, [class*=" ++ dq ++ js "feature" ++ dq ++ js "]")
      (js "Feature cards or sections");
    mkSectionRule (js "trust-section") (js ".trust, .partners, .logos")
      (js "Trust indicators and partner logos");
    mkSectionRule (js "footer") (js "footer") (js "Footer section") ].

Definition sectionPath (section : SectionRule) : jsstring :=
  js "screenshots/" ++ rule_name section ++ js ".png".

(** One iteration of the loop of [analyzeViewportSections]. *)
Definition analyzeViewportSection (page : Page) (st : State) (section : SectionRule) : State :=
  try_catch
    (isVis ← isVisible page (rule_selector section);
     if isVis : bool then
       img ← elementScreenshot page (rule_selector section);
       Ok (push_screenshot (mkScreenshot (rule_name section) (sectionPath section) (Some true))
             (writeFile (sectionPath section) img st))
     else
       Ok (push_issue
             (missing_section (rule_name section)
                (Some (rule_description section ++ js " not found or not visible"))) st))
    (λ message, push_issue (analysis_error (rule_name section) message) st).

Definition analyzeViewportSectionsOf (sections : list SectionRule) (page : Page) (st : State) : State :=
  foldl (analyzeViewportSection page) st sections.

(** What one section rule adds to [this.issues], read off the page's
    answers for that rule alone. *)
Definition sectionIssues (page : Page) (section : SectionRule) : list Issue :=
  match isVisible page (rule_selector section) with
  | Throw message => [analysis_error (rule_name section) message]
  | Ok false =>
      [missing_section (rule_name section)
         (Some (rule_description section ++ js " not found or not visible"))]
  | Ok true =>
      match elementScreenshot page (rule_selector section) with
      | Throw message => [analysis_error (rule_name section) message]
      | Ok _ => []
      end
  end.

Definition analyzeViewportSections : Page → State → State :=
  analyzeViewportSectionsOf sections.

Definition viewports : list jsstring := [js "desktop-large"; js "tablet"; js "mobile"].

Definition responsivePath (viewport : jsstring) : jsstring :=
  js "screenshots/responsive-" ++ viewport ++ js ".png".

(** [checkResponsiveDesign]: one full-page screenshot per viewport.
    [shot viewport] is what the page renders to at that viewport. *)
Fixpoint checkResponsiveDesign (shot : jsstring → result bytes) (vps : list jsstring)
    (st : State) : result State :=
  match vps with
  | [] => Ok st
  | viewport :: vps' =>
      img ← shot viewport;
      checkResponsiveDesign shot vps'
        (push_screenshot
           (mkScreenshot (js "responsive-" ++ viewport) (responsivePath viewport) None)
           (writeFile (responsivePath viewport) img st))
  end.

Definition performVisualAnalysis (page : Page) (shot : jsstring → result bytes)
    (st : State) : result State :=
  img ← screenshot page;
  let st := writeFile (js "screenshots/full-page.png") img st in
  let st := push_screenshot (mkScreenshot (js "full-page") (js "screenshots/full-page.png") None) st in
  let st := analyzeViewportSections page st in
  checkResponsiveDesign shot viewports st.

Section WithCase.
Variable toLowerCase : jsstring → jsstring.

(** [allText] of [validateExpectedContent]. *)
Definition allText (textContent : TextContent) : jsstring :=
  toLowerCase
    (Str.join (js " ")
       ((text <$> headings textContent) ++ (text <$> paragraphs textContent)
        ++ (text <$> buttons textContent) ++ (text <$> links textContent))).

(** One iteration of the loop of [validateExpectedContent]. *)
Definition validateExpectedText (corpus : jsstring) (st : State) (expectedText : jsstring) : State :=
  let found := Str.includes corpus (toLowerCase expectedText) in
  if found then st
  else
    push_issue
      (missing_content expectedText
         (Some (js "Expected text " ++ dq ++ expectedText ++ dq ++ js " not found on page"))) st.

Definition missingDescription (expectedText : jsstring) : jsstring :=
  js "Expected text " ++ dq ++ expectedText ++ dq ++ js " not found on page".

(** What one expected text adds to [this.issues]. *)
Definition textIssues (corpus expectedText : jsstring) : list Issue :=
  if Str.includes corpus (toLowerCase expectedText) then []
  else [missing_content expectedText (Some (missingDescription expectedText))].

Definition validateExpectedContent (specs : DesignSpecs) (textContent : TextContent)
    (st : State) : State :=
  foldl (validateExpectedText (allText textContent)) st (expectedTexts specs).

End WithCase.

(** [s.found !== false] *)
Definition counts_as_found (s : Screenshot) : Prop := found s ≠ Some false.

#[export] Instance counts_as_found_dec s : Decision (counts_as_found s).
Proof. unfold counts_as_found. apply _. Defined.

Definition assessVisualCompliance (specs : DesignSpecs) (st : State) : Assessment :=
  let totalSections := length (expectedSections specs) in
  let foundSections := length (filter counts_as_found (screenshots st)) in
  let complianceScore := Num.mul (Num.div (Num.of_nat foundSections) (Num.of_nat totalSections)) (Num.of_nat 100) in
  mkAssessment complianceScore (tier complianceScore).

Definition assessContentCompliance (specs : DesignSpecs) (st : State) : Assessment :=
  let totalExpectedTexts := length (expectedTexts specs) in
  let missingTexts := length (filter (λ i, type i = "missing_content") (issues st)) in
  let foundTexts := Num.sub (Num.of_nat totalExpectedTexts) (Num.of_nat missingTexts) in
  let complianceScore := Num.mul (Num.div foundTexts (Num.of_nat totalExpectedTexts)) (Num.of_nat 100) in
  mkAssessment complianceScore (tier complianceScore).

Definition calculateTechnicalScore (st : State) : Assessment :=
  let errorCount := length (filter (λ i, type i = "analysis_error") (issues st)) in
  let baseScore := (Num.of_nat 100) in
  let penalty := Num.mul (Num.of_nat errorCount) (Num.of_nat 10) in
  let score := Num.max (Num.of_nat 0) (Num.sub baseScore penalty) in
  mkAssessment score (tier score).

(** The report object ([timestamp], [designSpecs] and the
    recommendations left out). *)
Record Report : Type := mkReport {
  totalScreenshots : nat;
  totalIssues : nat;
  status : Analyzer.ReportStatus;
  report_screenshots : list Screenshot;
  report_issues : list Issue;
  visualCompliance : Assessment;
  contentCompliance : Assessment;
  technicalScore : Assessment
}.

(** [this.issues.length === 0 ? 'PASS' : 'NEEDS_REVIEW'] *)
Definition generateReport (specs : DesignSpecs) (st : State) : Report :=
  mkReport (length (screenshots st)) (length (issues st))
    (if decide (length (issues st) = 0%nat) then Analyzer.PASS else Analyzer.NEEDS_REVIEW)
    (screenshots st) (issues st)
    (assessVisualCompliance specs st)
    (assessContentCompliance specs st)
    (calculateTechnicalScore st).

(** [run], from a fresh analyzer: the visual analysis, the content
    analysis and the report ([performTechnicalAnalysis] touches neither
    array). *)
Definition run (toLowerCase : jsstring → jsstring) (specs : DesignSpecs)
    (page : Page) (shot : jsstring → result bytes) (textContent : TextContent)
    (files : gmap jsstring bytes) : result Report :=
  st ← performVisualAnalysis page shot (mkState files [] []);
  let st := validateExpectedContent toLowerCase specs textContent st in
  Ok (generateReport specs st).

End QuickStart.

(** ** The enhanced variant of [quick-start.js] *)

Module Enhanced.

(** [this.defaultDesignSpecs]; [parseFigmaData] returns an object with
    no [expectedSections] and no [expectedTexts], so
    [this.figmaDesignSpecs?.expectedSections || ...] and its sibling for
    the texts always select these. *)
Definition defaultDesignSpecs : DesignSpecs := QuickStart.designSpecs.

(** [expectedSections.includes(s.name) && s.found !== false] *)
Definition counts_as_found (expected : list jsstring) (s : Screenshot) : Prop :=
  name s ∈ expected ∧ found s ≠ Some false.

#[export] Instance counts_as_found_dec expected s : Decision (counts_as_found expected s).
Proof. unfold counts_as_found. apply _. Defined.

Definition assessVisualCompliance (specs : DesignSpecs) (st : State) : Assessment :=
  let expectedSections := expectedSections specs in
  let totalSections := length expectedSections in
  let foundSections := length (filter (counts_as_found expectedSections) (screenshots st)) in
  let complianceScore := Num.mul (Num.div (Num.of_nat foundSections) (Num.of_nat totalSections)) (Num.of_nat 100) in
  mkAssessment complianceScore (tier complianceScore).

(** The two other scorers are those of [quick-start.js], word for word. *)
Definition assessContentCompliance : DesignSpecs → State → Assessment :=
  QuickStart.assessContentCompliance.

Definition calculateTechnicalScore : State → Assessment :=
  QuickStart.calculateTechnicalScore.

End Enhanced.

(** ** Concrete pages, for running the model *)

Module Sample.

(** A one-pixel and a two-pixel image in the reference format. *)
Definition onePixel : bytes := [1; 1; 10; 20; 30; 255]%N.
Definition twoPixels : bytes := [2; 1; 10; 20; 30; 255; 10; 20; 30; 255]%N.

(** Two images of 75 pixels that differ in every pixel. *)
Definition black75 : bytes := [75; 1]%N ++ replicate 300 0%N.
Definition white75 : bytes := [75; 1]%N ++ replicate 300 255%N.

(** A page on which every section is visible and captured. *)
Definition allVisible (shot : bytes) : Page :=
  mkPage (Ok shot) (λ _, Ok true) (λ _, Ok onePixel) (λ _ _, Ok (js "rgb(0, 0, 0)")).

(** A page on which no section is visible, and the lookup of the
    sections selected by [broken] times out. *)
Definition timesOut (broken : jsstring → bool) : Page :=
  mkPage (Ok onePixel)
    (λ selector, if broken selector then Throw (js "Timeout 30000ms exceeded") else Ok false)
    (λ _, Ok onePixel) (λ _ _, Ok (js "rgb(0, 0, 0)")).

Definition home : jsstring := js "home".

(** [defaultSections] as the variants that spell it out have it,
    without Figma. *)
Definition cfg : Analyzer.Config :=
  Analyzer.mkConfig None
    (list_to_map
       [(js "home", [js "hero"; js "features"; js "footer"]);
        (js "about", [js "team"; js "mission"; js "footer"]);
        (js "solutions", [js "overview"; js "features"; js "cta"; js "footer"]);
        (js "newsroom", [js "latest-news"; js "subscribe"; js "footer"]);
        (js "article", [js "article-content"; js "author"; js "footer"]);
        (js "contact", [js "form"; js "location"; js "footer"])]).

(** A page that shows every section and whose computed styles are the
    design tokens. *)
Definition styled (shot : bytes) : Page :=
  mkPage (Ok shot) (λ _, Ok true) (λ _, Ok onePixel)
    (λ selector prop,
       Ok (if decide (prop = js "color") then
             if decide (selector = js "header") then Analyzer.color_primary
             else Analyzer.color_secondary
           else
             if decide (selector = js "header") then Analyzer.font_heading
             else Analyzer.font_body)).

(** A page whose header complies up to case, quotes and spacing, whose
    body has the header's colour, and whose footer cannot be found. *)
Definition restyled : Page :=
  mkPage (Ok onePixel) (λ _, Ok true) (λ _, Ok onePixel)
    (λ selector prop,
       if decide (selector = js "footer") then Throw (js "Timeout 30000ms exceeded")
       else if decide (prop = js "color") then Ok (js " #0070F3 ")
       else Ok (js "Poppins,sans-serif; 'Inter', sans-serif")).

(** A page whose computed styles are the header's design tokens in
    another case, with other quotes and more white space. *)
Definition requoted : Page :=
  mkPage (Ok onePixel) (λ _, Ok true) (λ _, Ok onePixel)
    (λ _ prop,
       Ok (if decide (prop = js "color") then js " #0070F3 "
           else js "'POPPINS' ,  Sans-Serif")).

(** The responsive screenshots all succeed. *)
Definition shot : jsstring → result bytes := λ _, Ok onePixel.

(** A page whose only text is a hidden heading. *)
Definition hiddenHeading : TextContent :=
  mkTextContent [mkTextItem (js "A unified switch") false] [] [] [].

(** A page that shows the last expected text in lower case. *)
Definition lowerCased : TextContent :=
  mkTextContent [] [mkTextItem (js "local " ++ [8594%N] ++ js " global") true] [] [].

End Sample.

(** ** Lookups and style entries *)

(** The lookup of a section's element fails with [message]: either the
    visibility test throws, or the element is visible and its
    screenshot throws. *)
Definition lookup_fails (page : Page) (selector message : jsstring) : Prop :=
  isVisible page selector = Throw message
  ∨ (isVisible page selector = Ok true ∧ elementScreenshot page selector = Throw message).

(** The properties [validateStyles] examines, in the order it examines
    them: each check with each entry of its [expectedStyles]. *)
Definition styleEntries (checks : list Analyzer.StyleCheck)
    : list (Analyzer.StyleCheck * (jsstring * jsstring)) :=
  flat_map (λ check, (λ entry, (check, entry)) <$> Analyzer.expectedStyles check) checks.

(** ** The specification's wording, for comparison with the code *)

Module Spec.

(** The corpus as the specification words it: the text of the visible
    fragments only, joined and lowercased. *)
Definition visibleCorpus (toLowerCase : jsstring → jsstring) (textContent : TextContent) : jsstring :=
  let visibleText items := text <$> List.filter visible items in
  toLowerCase
    (Str.join (js " ")
       (visibleText (headings textContent) ++ visibleText (paragraphs textContent)
        ++ visibleText (buttons textContent) ++ visibleText (links textContent))).

(** The content validator as the specification words it: a
    [missing_content] issue for an expected text exactly when the text
    does not occur, case-folded, in the corpus of the visible fragments. *)
Definition content_rule (toLowerCase : jsstring → jsstring)
    (textContent : TextContent) (expectedText : jsstring) (appended : list Issue) : Prop :=
  (∃ d, appended = [missing_content expectedText d])
  ↔ ¬ Str.contains (visibleCorpus toLowerCase textContent) (toLowerCase expectedText).

(** The scorer's edge case as the specification words it. *)
Definition vacuous_compliance (a : Assessment) : Prop :=
  Num.eq (score a) (Num.of_nat 100).

(** A score within the closed interval from 0 to 100. *)
Definition in_bounds (a : Assessment) : Prop :=
  Num.le (Num.of_nat 0) (score a) ∧ Num.le (score a) (Num.of_nat 100).

(** The failure rule of the structural validator as the specification
    words it: the issues appended hold one of the kind
    [analysis_error]. *)
Definition failure_recorded (appended : list Issue) : Prop :=
  ∃ i, i ∈ appended ∧ type i = "analysis_error"%string.

(** The code units the specification has stripped from a style value:
    the single and the double quote, and white space (tab to carriage
    return, space, no-break space, U+1680, U+2000 to U+200A, the two
    line separators, U+202F, U+205F, U+3000 and the byte-order mark). *)
Definition quotes_and_white_space : list N :=
  [39; 34; 9; 10; 11; 12; 13; 32; 160; 5760;
   8192; 8193; 8194; 8195; 8196; 8197; 8198; 8199; 8200; 8201; 8202;
   8232; 8233; 8239; 8287; 12288; 65279]%N.

(** A style value lowercased, with those code units left out and the
    others kept in order. *)
Definition normal_form (toLowerCase : jsstring → jsstring) (v : jsstring) : jsstring :=
  filter (λ c, c ∉ quotes_and_white_space) (toLowerCase v : list N).


End Spec.

(** ** More of the scripts *)

(** A name with no path separator: for such names the path strings the
    scripts build name the files the operating system would open. *)
Definition no_slash (s : jsstring) : Prop := 47%N ∉ s.

#[export] Instance no_slash_dec s : Decision (no_slash s).
Proof. unfold no_slash. apply _. Defined.

(** [generateRecommendations] of [quick-start.js]. *)
Module Recommend.

(** [this.issues.some(i => i.type === t)] *)
Definition some_of_type (t : string) (st : State) : bool :=
  bool_decide (Exists (λ i, type i = t) (issues st)).

Definition content_advice : jsstring :=
  js "Review content alignment with Figma design specifications".
Definition section_advice : jsstring :=
  js "Check for missing or incorrectly structured page sections".
Definition selector_advice : jsstring :=
  js "Review page structure and element selectors".

Definition defaults : list jsstring :=
  [js "Implement automated visual regression testing";
   js "Set up continuous monitoring of design consistency";
   js "Consider implementing design system documentation"].

Definition generateRecommendations (st : State) : list jsstring :=
  let recommendations := [] in
  let recommendations :=
    if some_of_type "missing_content" st
    then recommendations ++ [content_advice] else recommendations in
  let recommendations :=
    if some_of_type "missing_section" st
    then recommendations ++ [section_advice] else recommendations in
  let recommendations :=
    if some_of_type "analysis_error" st
    then recommendations ++ [selector_advice] else recommendations in
  recommendations ++ defaults.

End Recommend.

(** ** Property lookup on a plain object *)

Module PlainObject.

(** The names a plain object answers without having them as own
    properties: the methods of [Object.prototype], and [__proto__].
    Each of these values is truthy, and none can be iterated. *)
Definition inherited : list jsstring :=
  [js "constructor"; js "__defineGetter__"; js "__defineSetter__"; js "hasOwnProperty";
   js "__lookupGetter__"; js "__lookupSetter__"; js "isPrototypeOf";
   js "propertyIsEnumerable"; js "toString"; js "valueOf"; js "__proto__";
   js "toLocaleString"].

(** The value of [object[key]]: an own property, a value found on the
    prototype, or [undefined]. *)
Inductive Value (A : Type) : Type :=
  | own (a : A)
  | prototype
  | undefined.
Arguments own {A} a.
Arguments prototype {A}.
Arguments undefined {A}.

(** [object[key]], for an object whose own properties are those of the
    map. *)
Definition get {A} (object : gmap jsstring A) (key : jsstring) : Value A :=
  match object !! key with
  | Some a => own a
  | None => if decide (key ∈ inherited) then prototype else undefined
  end.

End PlainObject.

(** ** The design source: [loadFigmaDesignSpecs] and [parseFigmaSections] *)

Module Figma.

Record BoundingBox : Type := mkBox {
  box_width : number;
  box_height : number
}.

(** A node of a Figma document, with the properties the scripts read:
    [name], [type], [absoluteBoundingBox] and [children]. *)
Unset Elimination Schemes.
Inductive Node : Type :=
  | mkNode (node_name node_type : jsstring) (absoluteBoundingBox : option BoundingBox)
      (children : option (list Node)).
Set Elimination Schemes.

Definition node_name (n : Node) : jsstring :=
  match n with mkNode name _ _ _ => name end.
Definition absoluteBoundingBox (n : Node) : option BoundingBox :=
  match n with mkNode _ _ box _ => box end.
Definition children (n : Node) : option (list Node) :=
  match n with mkNode _ _ _ children => children end.

(** [s.replace(re, '-')] for the pattern of one or more [\s] characters
    with the [g] flag: [inRun] tells whether the previous character
    belonged to the run being replaced. *)
Fixpoint dashes (inRun : bool) (s : jsstring) : jsstring :=
  match s with
  | [] => []
  | c :: s' =>
      if Str.is_space c then
        if inRun then dashes true s' else 45%N :: dashes true s'
      else c :: dashes false s'
  end.

Definition dashify (s : jsstring) : jsstring := dashes false s.

Section WithCase.
Variable toLowerCase : jsstring → jsstring.

(** [section.name.toLowerCase().replace(re, '-')] *)
Definition sectionName (section : Node) : jsstring :=
  dashify (toLowerCase (node_name section)).

(** [section.name && section.absoluteBoundingBox] *)
Definition is_section (section : Node) : bool :=
  match node_name section, absoluteBoundingBox section with
  | _ :: _, Some _ => true
  | _, _ => false
  end.

(** [parseFigmaSections] as [qa-analyzer.mjs] has it: a loop that
    pushes. *)
Definition parseFigmaSections (root : Node) : list jsstring :=
  match children root with
  | None => []
  | Some nodes =>
      foldl (λ sections section,
               if is_section section then sections ++ [sectionName section] else sections)
        [] nodes
  end.

(** [parseFigmaSections] as the PDF variant has it: [filter], then
    [map]. *)
Definition parseFigmaSections_chained (root : Node) : list jsstring :=
  match children root with
  | None => []
  | Some nodes => sectionName <$> List.filter is_section nodes
  end.

(** [process.env], as far as the loader reads it.  [FIGMA_PAGE_IDS] is
    given by the entries of [JSON.parse(process.env.FIGMA_PAGE_IDS ||
    '{}')], or by what [JSON.parse] throws. *)
Record Env : Type := mkEnv {
  FIGMA_TOKEN : option jsstring;
  FIGMA_FILE_ID : option jsstring;
  FIGMA_PAGE_IDS : result (list (jsstring * jsstring))
}.

(** An environment variable is truthy when it is set and not empty. *)
Definition is_set (v : option jsstring) : bool :=
  match v with
  | Some (_ :: _) => true
  | _ => false
  end.

(** One iteration of the loop of [loadFigmaDesignSpecs] over
    [Object.entries(pageIds)].  [data.nodes[nodeId]] is the node (an
    own property), [null] for an id the file does not have, or a value
    of the prototype, which has no [document], so that
    [parseFigmaSections] throws on reading [root.children].  (A page
    key [__proto__] would not become an own property: the assignment
    would replace the prototype of the object.  The properties below
    are stated for page ids without that key.) *)
Definition loadPage (nodes : gmap jsstring (option Node))
    (specs : gmap jsstring (list jsstring)) (entry : jsstring * jsstring)
    : result (gmap jsstring (list jsstring)) :=
  match PlainObject.get nodes entry.2 with
  | PlainObject.own (Some node) => Ok (<[entry.1 := parseFigmaSections node]> specs)
  | PlainObject.own None | PlainObject.undefined => Ok specs
  | PlainObject.prototype =>
      Throw (js "Cannot read properties of undefined (reading 'children')")
  end.

Fixpoint loadPages (nodes : gmap jsstring (option Node))
    (specs : gmap jsstring (list jsstring)) (pageIds : list (jsstring * jsstring))
    : result (gmap jsstring (list jsstring)) :=
  match pageIds with
  | [] => Ok specs
  | entry :: pageIds' => specs ← loadPage nodes specs entry; loadPages nodes specs pageIds'
  end.

(** What an iteration that does not throw leaves. *)
Definition kept (nodes : gmap jsstring (option Node))
    (specs : gmap jsstring (list jsstring)) (entry : jsstring * jsstring)
    : gmap jsstring (list jsstring) :=
  match nodes !! entry.2 with
  | Some (Some node) => <[entry.1 := parseFigmaSections node]> specs
  | _ => specs
  end.

(** [loadFigmaDesignSpecs]: the value of [this.figmaDesignSpecs] after
    it, which starts as [null].  [fileNodes] is [data.nodes] of what
    [client.fileNodes] answers, or what the request throws. *)
Definition loadFigmaDesignSpecs (env : Env) (fileNodes : result (gmap jsstring (option Node)))
    : option (gmap jsstring (list jsstring)) :=
  if negb (is_set (FIGMA_TOKEN env)) || negb (is_set (FIGMA_FILE_ID env)) then None
  else
    try_catch
      (pageIds ← FIGMA_PAGE_IDS env;
       nodes ← fileNodes;
       specs ← loadPages nodes ∅ pageIds;
       Ok (Some specs))
      (λ _, None).

End WithCase.

End Figma.

(** The Figma document of a home page with two frames, one of them
    without geometry, for running the loader. *)
Module SampleFigma.

Definition box : Figma.BoundingBox := Figma.mkBox (Num.of_nat 1440) (Num.of_nat 600).

Definition homeDocument : Figma.Node :=
  Figma.mkNode (js "Home") (js "CANVAS") None
    (Some [Figma.mkNode (js "Hero  Banner") (js "FRAME") (Some box) None;
           Figma.mkNode (js "Notes") (js "TEXT") None None;
           Figma.mkNode (js "Trust Logos") (js "FRAME") (Some box) (Some [])]).

(** A page whose Figma node has no frame at all. *)
Definition emptyDocument : Figma.Node :=
  Figma.mkNode (js "About") (js "CANVAS") None (Some []).

Definition env : Figma.Env :=
  Figma.mkEnv (Some (js "token")) (Some (js "file"))
    (Ok [(js "home", js "1:2"); (js "about", js "1:3"); (js "contact", js "9:9")]).

(** [data.nodes]: the id [9:9] is not in the file. *)
Definition nodes : gmap jsstring (option Figma.Node) :=
  {[js "1:2" := Some homeDocument; js "1:3" := Some emptyDocument; js "9:9" := None]}.

End SampleFigma.

(** ** [analyzeSections] as it is called: the lookup of the expected sections *)

Module Lookup.

(** [this.figmaDesignSpecs?.[pageName] || this.defaultSections[pageName] || []]
    with the lookup as JavaScript performs it: an array (even an empty
    one) and a value of the prototype are truthy. *)
Definition expected (cfg : Analyzer.Config) (pageName : jsstring)
    : PlainObject.Value (list jsstring) :=
  let fromDefaults :=
    match PlainObject.get (Analyzer.defaultSections cfg) pageName with
    | PlainObject.undefined => PlainObject.own []
    | v => v
    end in
  match Analyzer.figmaDesignSpecs cfg with
  | None => fromDefaults
  | Some specs =>
      match PlainObject.get specs pageName with
      | PlainObject.undefined => fromDefaults
      | v => v
      end
  end.

(** [analyzeSections]: the loop runs over an array; [for ... of] over a
    value of the prototype throws a [TypeError] before anything is
    pushed or written. *)
Definition analyzeSections (cfg : Analyzer.Config) (page : Page) (pageName dir : jsstring)
    (st : State) : result State :=
  match expected cfg pageName with
  | PlainObject.own sections => Ok (foldl (Analyzer.analyzeSection page dir) st sections)
  | _ => Throw (js "expected is not iterable")
  end.

End Lookup.

(** ** Binary64 subtraction

    The sizes the enhanced variant compares are arbitrary binary64
    numbers, and their difference is rounded. *)

Module Double.

(** Two to the power [e]. *)
Definition pow2 (e : Z) : Q :=
  if (0 <=? e)%Z then inject_Z (2 ^ e) else / inject_Z (2 ^ (- e)).

(** For [q] above zero, the integer [k] with [2^k <= q < 2^(k+1)]. *)
Definition floor_log2 (q : Q) : Z :=
  if Qle_bool 1 q then Z.log2 (Qfloor q) else (- Z.log2_up (Qceiling (/ q)))%Z.

(** The integer nearest to [q], the even one of the two when [q] lies
    halfway. *)
Definition nearest_even (q : Q) : Z :=
  let f := Qfloor q in
  match Qcompare (q - inject_Z f) (1 # 2) with
  | Lt => f
  | Gt => (f + 1)%Z
  | Eq => if Z.even f then f else (f + 1)%Z
  end.

(** The exponent of the last place of the binary64 numbers of the
    binade of [q]: 53 significant bits, and no exponent below that of
    the subnormal numbers. *)
Definition ulp_exponent (q : Q) : Z := Z.max (-1074) (floor_log2 q - 52).

(** For [q] above zero, the multiple of [2^ulp_exponent] nearest to
    [q]. *)
Definition round_magnitude (q : Q) : Q :=
  let e := ulp_exponent q in
  inject_Z (nearest_even (q / pow2 e)) * pow2 e.

(** The binary64 number nearest to [q], ties to even; an infinity from
    [2^1024] on. *)
Definition round (q : Q) : number :=
  match Qcompare q 0 with
  | Eq => Fin 0
  | Gt =>
      let r := round_magnitude q in
      if Qle_bool (pow2 1024) r then PosInf else Fin (Qred r)
  | Lt =>
      let r := round_magnitude (- q) in
      if Qle_bool (pow2 1024) r then NegInf else Fin (Qred (- r))
  end.

(** [x - y] on binary64 numbers: the exact difference, rounded. *)
Definition sub (x y : number) : number :=
  match x, y with
  | Fin p, Fin q => round (p - q)
  | _, _ => Num.sub x y
  end.

(** The number a kernel float denotes. *)
Definition of_float (f : float) : number :=
  match Prim2SF f with
  | S754_zero _ => Fin 0
  | S754_infinity false => PosInf
  | S754_infinity true => NegInf
  | S754_nan => NaN
  | S754_finite s m e =>
      Fin (Qred ((if s then - inject_Z (Zpos m) else inject_Z (Zpos m)) * pow2 e))
  end.

(** Pairs of binary64 numbers for comparing [sub] with the kernel's
    subtraction: 12.3 and 2.3, 0.1 and 0.3, halfway cases around 1 and
    10, subnormal numbers, and the largest numbers. *)
Definition samples : list (float * float) :=
  [ (0x1.899999999999ap+3, 0x1.2666666666666p+1);
    (0x1.999999999999ap-4, 0x1.3333333333333p-2);
    (1, 0x1p-53); (1, 0x1p-54); (1, 0x1.8p-53); (0x1.0000000000001p+0, 0x1p-53);
    (0x1.4p+3, -0x1p-50); (0x1.4p+3, -0x1.0000000000001p-50); (0x1.4000000000001p+3, 0x1p-50);
    (0x1p-1074, 0x1p-1073); (0x1p-1022, 0x1p-1074); (0x1.8p-1060, 0x1.4p-1070);
    (0x1.fffffffffffffp+1023, -0x1.fffffffffffffp+1023);
    (0x1.fffffffffffffp+1023, -0x1p+970); (0x1.fffffffffffffp+1023, -0x1.fffffffffffffp+969);
    (-0x1.fffffffffffffp+1023, 0x1p+971);
    (0x1.23456789abcdep+100, 0x1.fedcba9876543p+48);
    (0x1.5p+10, 0x1.5p+10); (1440, 0x1.68199999999ap+10) ]%float.

End Double.

(** ** The enhanced variant: component sizes and colours *)

(** [Math.abs(x)] *)
Definition Num_abs (x : number) : number :=
  match x with
  | NaN => NaN
  | PosInf | NegInf => PosInf
  | Fin q => Fin (Qred (Qabs q))
  end.

(** [x > y]: false as soon as one side is [NaN]. *)
Definition Num_gtb (x y : number) : bool :=
  match x, y with
  | NaN, _ | _, NaN => false
  | Fin p, Fin q => negb (Qle_bool p q)
  | PosInf, PosInf | NegInf, NegInf => false
  | PosInf, _ | _, NegInf => true
  | NegInf, _ | _, PosInf => false
  end.

(** [Math.round(x)]: the integer nearest to [x], halves going up. *)
Definition Num_round (x : number) : number :=
  match x with
  | Fin q => Fin (inject_Z (Qfloor (q + (1 # 2))))
  | _ => x
  end.

Module Hex.

(** The digit of a value below 16. *)
Definition digit (d : N) : N := if (d <? 10)%N then (48 + d)%N else (87 + d)%N.

Fixpoint digits (fuel : nat) (n : N) : jsstring :=
  match fuel with
  | O => []
  | S fuel' =>
      if (n <? 16)%N then [digit n]
      else digits fuel' (n / 16)%N ++ [digit (n mod 16)%N]
  end.

(** [n.toString(16)] for an integer [n]. *)
Definition of_Z (z : Z) : jsstring :=
  match z with
  | Z0 => js "0"
  | Zpos p => digits (S (Pos.size_nat p)) (Npos p)
  | Zneg p => js "-" ++ digits (S (Pos.size_nat p)) (Npos p)
  end.

(** [x.toString(16)] where [x] is the result of [Math.round]. *)
Definition toString16 (x : number) : jsstring :=
  match x with
  | NaN => js "NaN"
  | PosInf => js "Infinity"
  | NegInf => js "-Infinity"
  | Fin q => of_Z (Qfloor q)
  end.

(** [toHex] of [parseFigmaData] *)
Definition toHex (value : number) : jsstring :=
  let hex := toString16 (Num_round (Num.mul value (Num.of_nat 255))) in
  if decide (length hex = 1%nat) then js "0" ++ hex else hex.

(** [rgbToHex] of [parseFigmaData] *)
Definition rgbToHex (r g b : number) : jsstring :=
  js "#" ++ toHex r ++ toHex g ++ toHex b.

(** A character of [0-9a-f]. *)
Definition is_hex (c : N) : bool :=
  ((48 <=? c)%N && (c <=? 57)%N) || ((97 <=? c)%N && (c <=? 102)%N).

End Hex.

Module EnhancedRun.

(** The issues of the enhanced variant: those of [quick-start.js], and
    [size_mismatch]. *)
Inductive EIssue : Type :=
  | common (i : Issue)
  | size_mismatch (component dimension : jsstring) (expected actual : number).

(** [this.figmaDesignSpecs], as [parseFigmaData] builds it. *)
Record FigmaSpecs : Type := mkFigmaSpecs {
  colors : list jsstring;
  fonts : list jsstring;
  components : gmap jsstring Figma.BoundingBox
}.

Record EState : Type := mkEState {
  efs : gmap jsstring bytes;
  eissues : list EIssue;
  escreenshots : list Screenshot
}.

Definition epush_issue (i : EIssue) (st : EState) : EState :=
  mkEState (efs st) (eissues st ++ [i]) (escreenshots st).

Definition epush_screenshot (s : Screenshot) (st : EState) : EState :=
  mkEState (efs st) (eissues st) (escreenshots st ++ [s]).

Definition ewriteFile (p : jsstring) (b : bytes) (st : EState) : EState :=
  mkEState (<[p := b]> (efs st)) (eissues st) (escreenshots st).

(** What the scorers see: they read the screenshots and count the
    [missing_content] and [analysis_error] issues only. *)
Definition view (st : EState) : State :=
  mkState (efs st)
    (omap (λ i, match i with common i => Some i | size_mismatch _ _ _ _ => None end)
       (eissues st))
    (escreenshots st).

Definition frameNames : list jsstring :=
  [js "hero"; js "features"; js "trust"; js "footer"; js "navigation"].

Section WithCase.
Variable toLowerCase : jsstring → jsstring.

(** [traverse] of [extractComponents]: the node itself, then its
    children in order. *)
Fixpoint traverse (n : Figma.Node) (components : gmap jsstring Figma.BoundingBox)
    : gmap jsstring Figma.BoundingBox :=
  match n with
  | Figma.mkNode name _ box children =>
      let components :=
        match box with
        | Some box =>
            if decide (toLowerCase name ∈ frameNames)
            then <[toLowerCase name := box]> components else components
        | None => components
        end in
      match children with
      | Some nodes => foldl (λ components child, traverse child components) components nodes
      | None => components
      end
  end.

Definition extractComponents (node : Figma.Node) : gmap jsstring Figma.BoundingBox :=
  traverse node ∅.

End WithCase.

(** [validateComponentAgainstFigma]: [figmaSpec] is the entry of the
    component, which the caller has found to exist; [boundingBox] is
    what [element.boundingBox()] answers.  The sizes are binary64
    numbers, and so are their differences. *)
Definition validateComponentAgainstFigma (figmaSpec : Figma.BoundingBox)
    (boundingBox : result (option Figma.BoundingBox)) (componentName : jsstring)
    (st : EState) : result EState :=
  actualSize ← boundingBox;
  match actualSize with
  | None => Ok st
  | Some actualSize =>
      let widthDiff :=
        Num_abs (Double.sub (Figma.box_width actualSize) (Figma.box_width figmaSpec)) in
      let heightDiff :=
        Num_abs (Double.sub (Figma.box_height actualSize) (Figma.box_height figmaSpec)) in
      let st :=
        if Num_gtb widthDiff (Num.of_nat 10) then
          epush_issue (size_mismatch componentName (js "width")
                         (Figma.box_width figmaSpec) (Figma.box_width actualSize)) st
        else st in
      let st :=
        if Num_gtb heightDiff (Num.of_nat 10) then
          epush_issue (size_mismatch componentName (js "height")
                         (Figma.box_height figmaSpec) (Figma.box_height actualSize)) st
        else st in
      Ok st
  end.

Definition sections : list (jsstring * jsstring) :=
  [ (js "hero", js "header, .hero, h1");
    (js "navigation", js "nav, .nav, .navigation");
    (js "features", js ".features, .cards, [class*=" ++ dq ++ js "feature" ++ dq ++ js "]");
    (js "trust", js ".trust, .partners, .logos");
    (js "footer", js "footer") ].

Definition sectionPath (name : jsstring) : jsstring :=
  js "screenshots/" ++ name ++ js ".png".

(** One iteration of the loop of [analyzeViewportSections].  The
    element screenshot is on disk before the size check runs, so it
    stays when the size check throws. *)
Definition analyzeViewportSection (page : Page)
    (boundingBox : jsstring → result (option Figma.BoundingBox))
    (figma : option FigmaSpecs) (st : EState) (section : jsstring * jsstring) : EState :=
  let '(name, selector) := section in
  let failed message := epush_issue (common (analysis_error name message)) in
  match isVisible page selector with
  | Throw message => failed message st
  | Ok false => epush_issue (common (missing_section name None)) st
  | Ok true =>
      match elementScreenshot page selector with
      | Throw message => failed message st
      | Ok img =>
          let st := ewriteFile (sectionPath name) img st in
          let checked :=
            match figma ≫= (λ specs, components specs !! name) with
            | Some figmaSpec =>
                validateComponentAgainstFigma figmaSpec (boundingBox selector) name st
            | None => Ok st
            end in
          match checked with
          | Throw message => failed message st
          | Ok st => epush_screenshot (mkScreenshot name (sectionPath name) (Some true)) st
          end
      end
  end.

Definition analyzeViewportSections (page : Page)
    (boundingBox : jsstring → result (option Figma.BoundingBox))
    (figma : option FigmaSpecs) (st : EState) : EState :=
  foldl (analyzeViewportSection page boundingBox figma) st sections.

Fixpoint checkResponsiveDesign (shot : jsstring → result bytes) (vps : list jsstring)
    (st : EState) : result EState :=
  match vps with
  | [] => Ok st
  | viewport :: vps' =>
      img ← shot viewport;
      checkResponsiveDesign shot vps'
        (epush_screenshot
           (mkScreenshot (js "responsive-" ++ viewport) (QuickStart.responsivePath viewport) None)
           (ewriteFile (QuickStart.responsivePath viewport) img st))
  end.

Definition performVisualAnalysis (page : Page)
    (boundingBox : jsstring → result (option Figma.BoundingBox))
    (figma : option FigmaSpecs) (shot : jsstring → result bytes)
    (st : EState) : result EState :=
  img ← screenshot page;
  let st := ewriteFile (js "screenshots/full-page.png") img st in
  let st :=
    epush_screenshot (mkScreenshot (js "full-page") (js "screenshots/full-page.png") None) st in
  let st := analyzeViewportSections page boundingBox figma st in
  checkResponsiveDesign shot QuickStart.viewports st.

End EnhancedRun.

(** Induction over a Figma document: a property of a node follows from
    the property of its children. *)
Fixpoint Node_induction (P : Figma.Node → Prop)
    (step : ∀ name type box children,
        match children with Some nodes => Forall P nodes | None => True end →
        P (Figma.mkNode name type box children))
    (n : Figma.Node) : P n :=
  match n with
  | Figma.mkNode name type box children =>
      step name type box children
        (match children
               return match children with Some nodes => Forall P nodes | None => True end
         with
         | Some nodes =>
             (fix all (l : list Figma.Node) : Forall P l :=
                match l with
                | [] => @List.Forall_nil _ P
                | child :: l' => @List.Forall_cons _ P child l' (Node_induction P step child) (all l')
                end) nodes
         | None => I
         end)
  end.

(** ** [qa-analyzer.mjs]: the loop of [run] over pages and viewports *)

(** An issue of any type but [visual_diff]. *)
Definition not_visual_diff (i : Issue) : Prop := type i ≠ "visual_diff"%string.

#[export] Instance ReportStatus_eq_dec : EqDecision Analyzer.ReportStatus.
Proof. solve_decision. Defined.

Module AnalyzerRun.

(** The names of [this.viewports], in order. *)
Definition viewports : list jsstring := [js "mobile"; js "tablet"; js "desktop"].

(** [path.join('screenshots', this.runDate)] *)
Definition screenshotBaseDir (runDate : jsstring) : jsstring :=
  Analyzer.path_join (js "screenshots") runDate.

(** [path.join(this.screenshotBaseDir, `${pageName}-${vp.name}`)] *)
Definition pageDir (runDate pageName vp : jsstring) : jsstring :=
  Analyzer.path_join (screenshotBaseDir runDate) (pageName ++ js "-" ++ vp).

(** The text of the alert; it opens with a warning sign (U+26A0,
    U+FE0F). *)
Definition alertMessage (pageName vp runDate : jsstring) : jsstring :=
  [9888; 65039]%N ++ js " QA Analyzer detected issues on " ++ pageName
  ++ js " (" ++ vp ++ js ") at " ++ runDate ++ js ". Please review reports.".

(** What a run leaves: the files, the reports in the order they were
    generated, and the texts posted to the Slack webhook. *)
Record Run : Type := mkRun {
  files : gmap jsstring bytes;
  reports : list Analyzer.Report;
  alerts : list jsstring
}.

(** [sendSlackAlert]: nothing without a webhook URL; a failed [fetch]
    is caught and logged. *)
Definition sendSlackAlert (webhookUrl : option jsstring) (message : jsstring) (r : Run) : Run :=
  if Figma.is_set webhookUrl then mkRun (files r) (reports r) (alerts r ++ [message]) else r.

Section WithEnv.
Context {L : ImageLib}.
Variable toLowerCase : jsstring → jsstring.
Variable cfg : Analyzer.Config.
(** [setViewportSize] and [goto]: the page as it answers once loaded
    from the URL at the viewport, or the exception of the navigation. *)
Variable goto : jsstring → jsstring → result Page.
Variable webhookUrl : option jsstring.
Variable runDate : jsstring.

(** The body of the inner loop.  (The report files go to the
    [reports] tree, which nothing here reads.) *)
Definition visit (pageName url : jsstring) (r : Run) (vp : jsstring) : result Run :=
  page ← goto url vp;
  '(report, st) ← Analyzer_runOne toLowerCase cfg page pageName url
                    (pageDir runDate pageName vp) (files r);
  let r := mkRun (fs st) (reports r ++ [report]) (alerts r) in
  Ok (if decide (length (issues st) = 0%nat) then r
      else sendSlackAlert webhookUrl (alertMessage pageName vp runDate) r).

Fixpoint visitViewports (pageName url : jsstring) (vps : list jsstring) (r : Run) : result Run :=
  match vps with
  | [] => Ok r
  | vp :: vps' => r ← visit pageName url r vp; visitViewports pageName url vps' r
  end.

(** [this.singlePage && this.singlePage !== pageName] *)
Definition skipped (singlePage : option jsstring) (pageName : jsstring) : bool :=
  match singlePage with
  | Some s => Figma.is_set singlePage && negb (bool_decide (s = pageName))
  | None => false
  end.

Fixpoint visitPages (singlePage : option jsstring) (pages : list (jsstring * jsstring))
    (r : Run) : result Run :=
  match pages with
  | [] => Ok r
  | (pageName, url) :: pages' =>
      if skipped singlePage pageName then visitPages singlePage pages' r
      else r ← visitViewports pageName url viewports r; visitPages singlePage pages' r
  end.

Definition run (singlePage : option jsstring) (pagesToTest : list (jsstring * jsstring))
    (files : gmap jsstring bytes) : result Run :=
  visitPages singlePage pagesToTest (mkRun files [] []).

End WithEnv.

(** The alerts posted so far are as many as the reports to review, or
    none without a webhook URL. *)
Definition alerts_match (webhookUrl : option jsstring) (r : Run) : Prop :=
  length (alerts r)
  = if Figma.is_set webhookUrl
    then length (filter (λ report, Analyzer.status report = Analyzer.REVIEW) (reports r))
    else 0%nat.

End AnalyzerRun.

(** A run for the scenarios: two pages, each compliant at the mobile
    viewport only. *)
Module SampleRun.

Definition goto : jsstring → jsstring → result Page :=
  λ _ vp, Ok (if decide (vp = js "mobile") then Sample.styled Sample.onePixel
              else Sample.restyled).

Definition pagesToTest : list (jsstring * jsstring) :=
  [(js "home", js "https://example.com/"); (js "about", js "https://example.com/about")].

Definition webhookUrl : option jsstring := Some (js "https://hooks.slack.com/services/T0").

Definition runDate : jsstring := js "2025-01-01-00-00-00".

End SampleRun.

(** * Part II: the properties *)

(** ** Strings *)

Lemma startsWith_spec (s t : jsstring) :
  Str.startsWith s t = true ↔ ∃ post, s = t ++ post.
Proof.
  revert s. induction t as [|y t IH]; intros s.
  - split; [intros _; by exists s | by destruct s].
  - destruct s as [|x s]; simpl.
    + split; [done | intros [post Hpost]; discriminate].
    + rewrite andb_true_iff, bool_decide_eq_true, IH. split.
      * intros [-> [post ->]]. by exists post.
      * intros [post Hpost]. simplify_eq/=. eauto.
Qed.

Lemma includes_nil (t : jsstring) : Str.includes [] t = Str.startsWith [] t.
Proof. simpl. apply orb_false_r. Qed.

Lemma includes_cons (x : N) (s t : jsstring) :
  Str.includes (x :: s) t = Str.startsWith (x :: s) t || Str.includes s t.
Proof. reflexivity. Qed.

Lemma includes_spec (s t : jsstring) :
  Str.includes s t = true ↔ Str.contains s t.
Proof.
  unfold Str.contains. induction s as [|x s IH].
  - rewrite includes_nil, startsWith_spec. split.
    + intros [post Hpost]. exists [], post. done.
    + intros (pre & post & Heq). symmetry in Heq.
      apply app_eq_nil in Heq as [-> Heq]. exists post. done.
  - rewrite includes_cons, orb_true_iff, startsWith_spec, IH. split.
    + intros [[post Hpost] | (pre & post & Hs)].
      * exists [], post. done.
      * exists (x :: pre), post. by rewrite Hs.
    + intros (pre & post & Heq). destruct pre as [|x' pre]; simpl in Heq.
      * left. by exists post.
      * right. simplify_eq. by exists pre, post.
Qed.

Lemma includes_false_spec (s t : jsstring) :
  Str.includes s t = false ↔ ¬ Str.contains s t.
Proof. rewrite <- includes_spec. by destruct (Str.includes s t). Qed.

(** Stripping keeps the characters in order and removes exactly the
    quotes and the white space. *)
Lemma strip_quotes_spaces_spec (s : jsstring) (c : N) :
  c ∈ Str.strip_quotes_spaces s ↔ c ∈ s ∧ Str.is_quote_or_space c = false.
Proof.
  unfold Str.strip_quotes_spaces.
  rewrite !list_elem_of_In, filter_In, negb_true_iff. done.
Qed.

Lemma strip_quotes_spaces_sublist (s : jsstring) :
  Str.strip_quotes_spaces s `sublist_of` s.
Proof.
  unfold Str.strip_quotes_spaces. induction s as [|c s IH]; simpl; [done|].
  destruct (negb _); by constructor.
Qed.

(** ** Loops that only append issues *)

Ltac unfold_result :=
  unfold try_catch, mbind, result_bind, mret, result_ret in *.

Lemma foldl_issues {A} (step : State → A → State) (out : A → list Issue) :
  (∀ st a, issues (step st a) = issues st ++ out a) →
  ∀ l st, issues (foldl step st l) = issues st ++ flat_map out l.
Proof.
  intros Hstep l. induction l as [|a l IH]; intros st; simpl.
  - by rewrite app_nil_r.
  - by rewrite IH, Hstep, <- app_assoc.
Qed.

Lemma flat_map_split {A B} (f : A → list B) (pre post : list A) (a : A) :
  flat_map f (pre ++ a :: post) = flat_map f pre ++ f a ++ flat_map f post.
Proof. by rewrite flat_map_app. Qed.

(** ** The structural validator *)

Lemma analyzeSection_issues (page : Page) (dir : jsstring) (st : State) (section : jsstring) :
  issues (Analyzer.analyzeSection page dir st section)
  = issues st ++ Analyzer.sectionIssues page section.
Proof.
  unfold Analyzer.analyzeSection, Analyzer.sectionIssues. unfold_result.
  destruct (isVisible page _) as [[|]|m]; simpl; [|done..].
  destruct (elementScreenshot page _); simpl; [|done].
  by rewrite app_nil_r.
Qed.

Lemma analyzeSections_issues (cfg : Analyzer.Config) (page : Page)
    (pageName dir : jsstring) (st : State) :
  issues (Analyzer.analyzeSections cfg page pageName dir st)
  = issues st ++ flat_map (Analyzer.sectionIssues page) (Analyzer.expectedFor cfg pageName).
Proof. apply foldl_issues. intros. apply analyzeSection_issues. Qed.

Lemma analyzeViewportSection_issues (page : Page) (st : State) (section : SectionRule) :
  issues (QuickStart.analyzeViewportSection page st section)
  = issues st ++ QuickStart.sectionIssues page section.
Proof.
  unfold QuickStart.analyzeViewportSection, QuickStart.sectionIssues. unfold_result.
  destruct (isVisible page _) as [[|]|m]; simpl; [|done..].
  destruct (elementScreenshot page _); simpl; [|done].
  by rewrite app_nil_r.
Qed.

Lemma analyzeViewportSectionsOf_issues (rules : list SectionRule) (page : Page) (st : State) :
  issues (QuickStart.analyzeViewportSectionsOf rules page st)
  = issues st ++ flat_map (QuickStart.sectionIssues page) rules.
Proof. apply foldl_issues. intros. apply analyzeViewportSection_issues. Qed.

Lemma lookup_fails_issues (page : Page) (section message : jsstring) :
  lookup_fails page (Analyzer.sectionSelector section) message →
  Analyzer.sectionIssues page section = [section_error section message].
Proof.
  unfold Analyzer.sectionIssues. intros [-> | [-> ->]]; done.
Qed.

Lemma lookup_fails_rule_issues (page : Page) (rule : SectionRule) (message : jsstring) :
  lookup_fails page (rule_selector rule) message →
  QuickStart.sectionIssues page rule = [analysis_error (rule_name rule) message].
Proof.
  unfold QuickStart.sectionIssues. intros [-> | [-> ->]]; done.
Qed.

(** C7.  When the lookup of a section fails, one issue with that
    section's name and the thrown message is appended at that section's
    place, and the loop goes on: the issues of the sections before it
    come first, those of the sections after it follow, each as the page
    answers for that section alone.  [analyzeViewportSections] of
    [quick-start.js] tags the issue ['analysis_error'];
    [analyzeSections] of [qa-analyzer.mjs], called for a page whose
    expected sections the lookup finds, tags it ['error'].  Each half
    stands on the failure of its own selector. *)
Theorem section_error_recorded_in_order :
  (∀ (page : Page) (st : State) (before after : list SectionRule) (rule : SectionRule)
     (message : jsstring),
     QuickStart.sections = before ++ rule :: after →
     lookup_fails page (rule_selector rule) message →
     issues (QuickStart.analyzeViewportSections page st)
     = issues st ++ flat_map (QuickStart.sectionIssues page) before
       ++ analysis_error (rule_name rule) message
          :: flat_map (QuickStart.sectionIssues page) after
     ∧ type (analysis_error (rule_name rule) message) = "analysis_error"%string)
  ∧ (∀ (cfg : Analyzer.Config) (page : Page) (pageName dir : jsstring) (st : State)
       (pre post : list jsstring) (section message : jsstring),
       Lookup.expected cfg pageName = PlainObject.own (pre ++ section :: post) →
       lookup_fails page (Analyzer.sectionSelector section) message →
       ∃ st',
         Lookup.analyzeSections cfg page pageName dir st = Ok st'
         ∧ issues st'
           = issues st ++ flat_map (Analyzer.sectionIssues page) pre
             ++ section_error section message
                :: flat_map (Analyzer.sectionIssues page) post
         ∧ type (section_error section message) = "error"%string).
Proof.
  split.
  - intros page st before after rule message Hsections Hfails.
    split; [|done]. unfold QuickStart.analyzeViewportSections.
    rewrite analyzeViewportSectionsOf_issues, Hsections, flat_map_split.
    by rewrite (lookup_fails_rule_issues _ _ _ Hfails).
  - intros cfg page pageName dir st pre post section message Hexpected Hfails.
    unfold Lookup.analyzeSections. rewrite Hexpected.
    eexists. split; [reflexivity|]. split; [|done].
    rewrite (foldl_issues (Analyzer.analyzeSection page dir) (Analyzer.sectionIssues page))
      by (intros; apply analyzeSection_issues).
    rewrite flat_map_split. by rewrite (lookup_fails_issues _ _ _ Hfails).
Qed.

(** A page on which nothing is visible and two lookups time out: that
    of the navigation rule of [quick-start.js], and that of the
    [features] section of the home page. *)
Lemma section_error_recorded_in_order_witness :
  let broken selector :=
    bool_decide (selector = Analyzer.sectionSelector (js "features"))
    || bool_decide (selector = js "nav, .nav, .navigation") in
  let page := Sample.timesOut broken in
  let timeout := js "Timeout 30000ms exceeded" in
  issues (QuickStart.analyzeViewportSections page (mkState ∅ [] []))
  = [missing_section (js "hero-section")
       (Some (js "Main hero section with primary heading not found or not visible"));
     analysis_error (js "navigation") timeout;
     missing_section (js "features")
       (Some (js "Feature cards or sections not found or not visible"));
     missing_section (js "trust-section")
       (Some (js "Trust indicators and partner logos not found or not visible"));
     missing_section (js "footer") (Some (js "Footer section not found or not visible"))]
  ∧ ∃ st',
      Lookup.analyzeSections Sample.cfg page Sample.home (js "screenshots/home")
        (mkState ∅ [] []) = Ok st'
      ∧ issues st'
        = [missing_section (js "hero") None;
           section_error (js "features") timeout;
           missing_section (js "footer") None].
Proof.
  intros broken page timeout.
  destruct section_error_recorded_in_order as [HQ HA].
  destruct (HQ page (mkState ∅ [] []) (take 1 QuickStart.sections)
              (drop 2 QuickStart.sections)
              (mkSectionRule (js "navigation") (js "nav, .nav, .navigation")
                 (js "Main navigation menu")) timeout) as [HQ' _].
  { by vm_compute. }
  { left. by vm_compute. }
  destruct (HA Sample.cfg page Sample.home (js "screenshots/home") (mkState ∅ [] [])
              [js "hero"] [js "footer"] (js "features") timeout) as (st' & Hcall & HA' & _).
  { by vm_compute. }
  { left. by vm_compute. }
  rewrite HQ'. split; [by vm_compute|].
  exists st'. split; [exact Hcall|]. rewrite HA'. by vm_compute.
Defined.

(** C7, as the specification words it, fails for [analyzeSections] of
    [qa-analyzer.mjs]: when the lookup of the [features] section times
    out, the call returns and none of the issues it has appended is of
    the kind [analysis_error]. *)
Lemma analyzeSections_records_no_analysis_error :
  let broken selector := bool_decide (selector = Analyzer.sectionSelector (js "features")) in
  ∃ st',
    Lookup.analyzeSections Sample.cfg (Sample.timesOut broken) Sample.home
      (js "screenshots/home") (mkState ∅ [] []) = Ok st'
    ∧ ¬ Spec.failure_recorded (issues st').
Proof.
  intros broken.
  exists (mkState ∅ [missing_section (js "hero") None;
                     section_error (js "features") (js "Timeout 30000ms exceeded");
                     missing_section (js "footer") None] []).
  split; [by vm_compute|].
  intros [i [Hin Htype]]. cbn [issues] in Hin.
  rewrite !elem_of_cons, elem_of_nil in Hin.
  destruct Hin as [-> | [-> | [-> | []]]]; discriminate Htype.
Qed.

(** ** The content validator *)

(** The corpus holds every extracted fragment, whatever its [visible]
    flag says. *)
Lemma allText_all_fragments (toLowerCase : jsstring → jsstring) (tc : TextContent) :
  QuickStart.allText toLowerCase tc
  = toLowerCase
      (Str.join (js " ")
         (text <$> headings tc ++ paragraphs tc ++ buttons tc ++ links tc)).
Proof. unfold QuickStart.allText. by rewrite !fmap_app. Qed.

Lemma validateExpectedText_issues (toLowerCase : jsstring → jsstring)
    (corpus : jsstring) (st : State) (expectedText : jsstring) :
  issues (QuickStart.validateExpectedText toLowerCase corpus st expectedText)
  = issues st ++ QuickStart.textIssues toLowerCase corpus expectedText.
Proof.
  unfold QuickStart.validateExpectedText, QuickStart.textIssues.
  destruct (Str.includes _ _); simpl; [by rewrite app_nil_r | done].
Qed.

Lemma textIssues_found (toLowerCase : jsstring → jsstring) (corpus t : jsstring) :
  QuickStart.textIssues toLowerCase corpus t = [] ↔ Str.contains corpus (toLowerCase t).
Proof.
  unfold QuickStart.textIssues. rewrite <- includes_spec.
  by destruct (Str.includes _ _).
Qed.

Lemma textIssues_missing (toLowerCase : jsstring → jsstring) (corpus t : jsstring) :
  QuickStart.textIssues toLowerCase corpus t
  = [missing_content t (Some (QuickStart.missingDescription t))]
  ↔ ¬ Str.contains corpus (toLowerCase t).
Proof.
  unfold QuickStart.textIssues. rewrite <- includes_false_spec.
  by destruct (Str.includes _ _).
Qed.

(** C8, as the code has it.  The corpus is the lowercased join, with
    single spaces, of every extracted heading, paragraph, button and
    link text, hidden ones included.  The validator goes through the
    expected texts in order and adds a [missing_content] issue for a
    text exactly when its lowercased form is not a substring of the
    corpus; a text that occurs adds nothing.  The last expected text,
    shown in lower case, is found. *)
Theorem missing_content_iff_not_in_corpus
    (toLowerCase : jsstring → jsstring) (specs : DesignSpecs)
    (tc : TextContent) (st : State) :
  let corpus :=
    toLowerCase
      (Str.join (js " ")
         (text <$> headings tc ++ paragraphs tc ++ buttons tc ++ links tc)) in
  issues (QuickStart.validateExpectedContent toLowerCase specs tc st)
  = issues st ++ flat_map (QuickStart.textIssues toLowerCase corpus) (expectedTexts specs)
  ∧ (∀ t, QuickStart.textIssues toLowerCase corpus t
          = [missing_content t (Some (QuickStart.missingDescription t))]
          ↔ ¬ Str.contains corpus (toLowerCase t))
  ∧ (∀ t, QuickStart.textIssues toLowerCase corpus t = []
          ↔ Str.contains corpus (toLowerCase t))
  ∧ QuickStart.textIssues Str.toLowerCase_ascii
      (QuickStart.allText Str.toLowerCase_ascii Sample.lowerCased)
      (js "Local " ++ [8594%N] ++ js " Global") = [].
Proof.
  intros corpus. split_and!.
  - unfold QuickStart.validateExpectedContent.
    rewrite allText_all_fragments. fold corpus.
    apply foldl_issues. intros. apply validateExpectedText_issues.
  - intros t. apply textIssues_missing.
  - intros t. apply textIssues_found.
  - by vm_compute.
Qed.

(** C8, as the specification words it, fails on a page whose only text
    is a hidden heading: the expected text is taken from the hidden
    heading and no issue is added, although the visible corpus is
    empty. *)
Lemma hidden_text_counts_as_found :
  ¬ Spec.content_rule Str.toLowerCase_ascii Sample.hiddenHeading (js "A unified switch")
      (issues (QuickStart.validateExpectedContent Str.toLowerCase_ascii
                 (mkDesignSpecs [] [js "A unified switch"] [])
                 Sample.hiddenHeading (mkState ∅ [] []))).
Proof.
  unfold Spec.content_rule. intros [_ Hrule].
  destruct Hrule as [d Hd]; [|by vm_compute in Hd].
  rewrite <- includes_spec. by vm_compute.
Qed.

(** ** The style validator *)









(** On that page the header complies in both properties, through the
    case, the quotes and the white space; the body and the footer
    comply in neither. *)
Example validateStyles_requoted :
  (λ entry, (Analyzer.check_name entry.1, entry.2.1)) <$> styleEntries Analyzer.checks
  = [ (js "header", js "color"); (js "header", js "font-family");
      (js "body", js "color"); (js "body", js "font-family");
      (js "footer", js "color"); (js "footer", js "font-family") ]
  ∧ Spec.normal_form Str.toLowerCase_ascii (js "'POPPINS' ,  Sans-Serif")
    = js "poppins,sans-serif"
  ∧ Spec.normal_form Str.toLowerCase_ascii Analyzer.font_heading = js "poppins,sans-serif"
  ∧ Spec.normal_form Str.toLowerCase_ascii (js " #0070F3 ") = js "#0070f3"
  ∧ (λ i, match i with style_mismatch section _ => section | _ => [] end)
    <$> issues (Analyzer.validateStyles Str.toLowerCase_ascii Sample.requoted
                  (mkState ∅ [] []))
    = [js "body"; js "body"; js "footer"; js "footer"].
Proof. split_and!; by vm_compute. Qed.

(** ** The status tiers *)

Lemma geb_of_nat (q : Q) (n : nat) :
  Num.geb (Fin q) (Num.of_nat n) = true ↔ inject_Z (Z.of_nat n) <= q.
Proof. apply Qle_bool_iff. Qed.

Lemma geb_of_nat_false (q : Q) (n : nat) :
  Num.geb (Fin q) (Num.of_nat n) = false ↔ q < inject_Z (Z.of_nat n).
Proof.
  rewrite <- not_true_iff_false, geb_of_nat. split.
  - apply Qnot_le_lt.
  - intros Hlt Hle. apply (Qlt_not_le _ _ Hlt Hle).
Qed.

Lemma tier_cases (q : Q) :
  (80 <= q ∧ tier (Fin q) = GOOD)
  ∨ (60 <= q ∧ q < 80 ∧ tier (Fin q) = FAIR)
  ∨ (q < 60 ∧ tier (Fin q) = POOR).
Proof.
  unfold tier.
  destruct (Num.geb (Fin q) (Num.of_nat 80)) eqn:H80.
  - left. apply geb_of_nat in H80. done.
  - apply geb_of_nat_false in H80.
    destruct (Num.geb (Fin q) (Num.of_nat 60)) eqn:H60.
    + right; left. apply geb_of_nat in H60. done.
    + right; right. apply geb_of_nat_false in H60. done.
Qed.

Lemma tier_GOOD (q : Q) : tier (Fin q) = GOOD ↔ 80 <= q.
Proof.
  destruct (tier_cases q) as [[H ->]|[(H1 & H2 & ->)|[H ->]]];
    (split; [try discriminate | try reflexivity]); intros; lra.
Qed.

Lemma tier_FAIR (q : Q) : tier (Fin q) = FAIR ↔ 60 <= q ∧ q < 80.
Proof.
  destruct (tier_cases q) as [[H ->]|[(H1 & H2 & ->)|[H ->]]];
    (split; [try discriminate | try reflexivity]); intros; lra.
Qed.

Lemma tier_POOR (q : Q) : tier (Fin q) = POOR ↔ q < 60.
Proof.
  destruct (tier_cases q) as [[H ->]|[(H1 & H2 & ->)|[H ->]]];
    (split; [try discriminate | try reflexivity]); intros; lra.
Qed.

(** C10.  For every finite score the tier is [GOOD] exactly from 80
    upwards, [FAIR] exactly from 60 up to but excluding 80, and [POOR]
    exactly below 60; so 80 is [GOOD], 79.999 is [FAIR], 60 is [FAIR]
    and 59.999 is [POOR] (and the two infinities fall on their side).
    The visual, the content and the technical scorer all classify their
    score this way. *)
Theorem tier_thresholds_exact (q : Q) (specs : DesignSpecs) (st : State) :
  (tier (Fin q) = GOOD ↔ 80 <= q)
  ∧ (tier (Fin q) = FAIR ↔ 60 <= q ∧ q < 80)
  ∧ (tier (Fin q) = POOR ↔ q < 60)
  ∧ tier (Fin 80) = GOOD
  ∧ tier (Fin (79999 # 1000)) = FAIR
  ∧ tier (Fin 60) = FAIR
  ∧ tier (Fin (59999 # 1000)) = POOR
  ∧ tier PosInf = GOOD
  ∧ tier NegInf = POOR
  ∧ tier_of (QuickStart.assessVisualCompliance specs st)
    = tier (score (QuickStart.assessVisualCompliance specs st))
  ∧ tier_of (Enhanced.assessVisualCompliance specs st)
    = tier (score (Enhanced.assessVisualCompliance specs st))
  ∧ tier_of (QuickStart.assessContentCompliance specs st)
    = tier (score (QuickStart.assessContentCompliance specs st))
  ∧ tier_of (QuickStart.calculateTechnicalScore st)
    = tier (score (QuickStart.calculateTechnicalScore st)).
Proof.
  split_and!; try reflexivity.
  - apply tier_GOOD.
  - apply tier_FAIR.
  - apply tier_POOR.
Qed.

(** ** The overall status *)

(** C6.  The report's status is [PASS] exactly when [this.issues] is
    empty; with one issue or more, of whatever kind, it is [REVIEW]
    ([qa-analyzer.mjs]) or [NEEDS_REVIEW] ([quick-start.js]). *)
Theorem status_PASS_iff_no_issues (pageUrl : jsstring) (specs : DesignSpecs) (st : State) :
  (Analyzer.status (Analyzer.generateReport pageUrl st) = Analyzer.PASS ↔ issues st = [])
  ∧ (QuickStart.status (QuickStart.generateReport specs st) = Analyzer.PASS ↔ issues st = [])
  ∧ (∀ i rest, issues st = i :: rest →
       Analyzer.status (Analyzer.generateReport pageUrl st) = Analyzer.REVIEW
       ∧ QuickStart.status (QuickStart.generateReport specs st) = Analyzer.NEEDS_REVIEW).
Proof.
  unfold Analyzer.generateReport, QuickStart.generateReport. simpl.
  destruct (issues st) as [|i rest]; simpl.
  - split_and!; [done..|]. intros ? ? ?. discriminate.
  - split_and!; done.
Qed.

(** ** The scorers *)

Lemma div_by_zero (n : nat) :
  Num.div (Num.of_nat n) (Num.of_nat 0) = if decide (n = 0%nat) then NaN else PosInf.
Proof. by destruct n. Qed.

Lemma sub_from_zero (m : nat) :
  Num.div (Num.sub (Num.of_nat 0) (Num.of_nat m)) (Num.of_nat 0)
  = if decide (m = 0%nat) then NaN else NegInf.
Proof.
  destruct m as [|m]; [done|].
  assert (Hneg : (Qred (inject_Z (Z.of_nat 0) - inject_Z (Z.of_nat (S m))) ?= 0) = Lt).
  { pose proof (Qred_compare (inject_Z (Z.of_nat 0) - inject_Z (Z.of_nat (S m))) 0) as E.
    change (Qred 0) with 0 in E. rewrite <- E. apply (proj1 (Qlt_alt _ _)).
    unfold Qlt, Qminus, Qplus, Qopp, inject_Z. cbn [Qnum Qden]. lia. }
  unfold Num.sub, Num.div, Num.of_nat, Num.inf_signed.
  change (Qeq_bool (inject_Z (Z.of_nat 0)) 0) with true. cbn iota.
  by rewrite Hneg.
Qed.

Lemma filter_enhanced_nil (shots : list Screenshot) :
  filter (Enhanced.counts_as_found []) shots = [].
Proof.
  induction shots as [|s shots IH]; [done|].
  rewrite filter_cons. destruct (decide _) as [[Hin _]|_]; [|done].
  by apply elem_of_nil in Hin.
Qed.

(** C2, as the code has it.  No scorer guards its divisor.  With no
    expected section the visual score is the quotient of a count by
    zero, times 100: [NaN] (tier [POOR]) when no screenshot counts as
    found, which is always so in the enhanced variant, and [+Infinity]
    (tier [GOOD]) otherwise.  With no expected text the content score
    is [NaN] when there is no [missing_content] issue and [-Infinity]
    otherwise, tier [POOR] both times.  The design specs the scripts
    ship have five expected sections and five expected texts. *)
Theorem empty_expected_divides_by_zero
    (colors texts sections : list jsstring) (st : State) :
  let noSections := mkDesignSpecs colors texts [] in
  let noTexts := mkDesignSpecs colors [] sections in
  let found := length (filter QuickStart.counts_as_found (screenshots st)) in
  let missing := length (filter (λ i, type i = "missing_content"%string) (issues st)) in
  QuickStart.assessVisualCompliance noSections st
  = (if decide (found = 0%nat) then mkAssessment NaN POOR else mkAssessment PosInf GOOD)
  ∧ Enhanced.assessVisualCompliance noSections st = mkAssessment NaN POOR
  ∧ QuickStart.assessContentCompliance noTexts st
    = (if decide (missing = 0%nat) then mkAssessment NaN POOR else mkAssessment NegInf POOR)
  ∧ length (expectedSections QuickStart.designSpecs) = 5%nat
  ∧ length (expectedTexts QuickStart.designSpecs) = 5%nat.
Proof.
  intros noSections noTexts found missing. split_and!; try reflexivity.
  - unfold QuickStart.assessVisualCompliance, noSections.
    cbn [expectedSections length]. fold found.
    rewrite div_by_zero. by destruct (decide _).
  - unfold Enhanced.assessVisualCompliance, noSections.
    cbn [expectedSections]. by rewrite filter_enhanced_nil.
  - unfold QuickStart.assessContentCompliance, noTexts.
    cbn [expectedTexts length]. fold missing.
    rewrite sub_from_zero. by destruct (decide _).
Qed.

(** C2, as the specification words it, fails on a fresh analyzer with
    no expected section and no expected text: neither score is 100. *)
Lemma empty_expected_is_not_100 :
  let none := mkDesignSpecs [] [] [] in
  let fresh := mkState ∅ [] [] in
  ¬ Spec.vacuous_compliance (QuickStart.assessVisualCompliance none fresh)
  ∧ ¬ Spec.vacuous_compliance (Enhanced.assessVisualCompliance none fresh)
  ∧ ¬ Spec.vacuous_compliance (QuickStart.assessContentCompliance none fresh).
Proof. intros none fresh. split_and!; intros H; exact H. Qed.

(** *** A run of [quick-start.js] on a page that shows every section *)

Lemma analyzeViewportSectionsOf_all_visible
    (page : Page) (els : jsstring → bytes) (rules : list SectionRule) (st : State) :
  (∀ selector, isVisible page selector = Ok true) →
  (∀ selector, elementScreenshot page selector = Ok (els selector)) →
  screenshots (QuickStart.analyzeViewportSectionsOf rules page st)
  = screenshots st
    ++ ((λ r, mkScreenshot (rule_name r) (QuickStart.sectionPath r) (Some true)) <$> rules)
  ∧ issues (QuickStart.analyzeViewportSectionsOf rules page st) = issues st.
Proof.
  intros Hvisible Hshot. revert st.
  induction rules as [|r rules IH]; intros st.
  - simpl. by rewrite app_nil_r.
  - unfold QuickStart.analyzeViewportSectionsOf in *. cbn [foldl].
    destruct (IH (QuickStart.analyzeViewportSection page st r)) as [-> ->].
    unfold QuickStart.analyzeViewportSection. unfold_result.
    rewrite Hvisible, Hshot. cbn [screenshots issues push_screenshot writeFile fmap list_fmap].
    by rewrite <- app_assoc.
Qed.

Lemma checkResponsiveDesign_ok
    (shot : jsstring → result bytes) (shots : jsstring → bytes)
    (vps : list jsstring) (st : State) :
  (∀ viewport, shot viewport = Ok (shots viewport)) →
  ∃ st', QuickStart.checkResponsiveDesign shot vps st = Ok st'
    ∧ screenshots st'
      = screenshots st
        ++ ((λ v, mkScreenshot (js "responsive-" ++ v) (QuickStart.responsivePath v) None)
              <$> vps)
    ∧ issues st' = issues st.
Proof.
  intros Hshot. revert st. induction vps as [|v vps IH]; intros st.
  - exists st. simpl. by rewrite app_nil_r.
  - cbn [QuickStart.checkResponsiveDesign]. unfold_result. rewrite Hshot.
    destruct (IH (push_screenshot
                    (mkScreenshot (js "responsive-" ++ v) (QuickStart.responsivePath v) None)
                    (writeFile (QuickStart.responsivePath v) (shots v) st)))
      as (st' & Hrun & Hscreens & Hissues).
    exists st'. split; [exact Hrun|]. rewrite Hscreens, Hissues.
    cbn [screenshots issues push_screenshot writeFile fmap list_fmap].
    by rewrite <- app_assoc.
Qed.

Lemma validateExpectedContent_screenshots (toLowerCase : jsstring → jsstring)
    (specs : DesignSpecs) (tc : TextContent) (st : State) :
  screenshots (QuickStart.validateExpectedContent toLowerCase specs tc st) = screenshots st.
Proof.
  unfold QuickStart.validateExpectedContent.
  generalize (QuickStart.allText toLowerCase tc). intros corpus.
  revert st. induction (expectedTexts specs) as [|t ts IH]; intros st; [done|].
  cbn [foldl]. rewrite IH. unfold QuickStart.validateExpectedText.
  by destruct (Str.includes _ _).
Qed.

(** C3, on the code.  When the page shows all five analysed sections,
    a run of [quick-start.js] records nine screenshots (the full page,
    the five sections, the three responsive views), counts each of them
    as a found section, and scores 9 / 5 * 100 = 180 for visual
    compliance: outside the interval from 0 to 100. *)
Theorem quick_start_visual_score_180
    (toLowerCase : jsstring → jsstring) (page : Page)
    (shot : jsstring → result bytes) (tc : TextContent) (files : gmap jsstring bytes)
    (img : bytes) (els shots : jsstring → bytes) :
  screenshot page = Ok img →
  (∀ selector, isVisible page selector = Ok true) →
  (∀ selector, elementScreenshot page selector = Ok (els selector)) →
  (∀ viewport, shot viewport = Ok (shots viewport)) →
  ∃ report,
    QuickStart.run toLowerCase QuickStart.designSpecs page shot tc files = Ok report
    ∧ QuickStart.totalScreenshots report = 9%nat
    ∧ QuickStart.visualCompliance report = mkAssessment (Fin 180) GOOD
    ∧ ¬ Spec.in_bounds (QuickStart.visualCompliance report).
Proof.
  intros Himg Hvisible Hels Hshot.
  unfold QuickStart.run, QuickStart.performVisualAnalysis. unfold_result.
  rewrite Himg.
  match goal with
  | |- context [QuickStart.checkResponsiveDesign shot QuickStart.viewports ?st] =>
      destruct (checkResponsiveDesign_ok shot shots QuickStart.viewports st Hshot)
        as (st' & -> & Hscreens & _);
      unfold QuickStart.analyzeViewportSections in Hscreens;
      rewrite (proj1 (analyzeViewportSectionsOf_all_visible page els _ _ Hvisible Hels))
        in Hscreens;
      cbn [screenshots push_screenshot writeFile] in Hscreens
  end.
  eexists. split; [reflexivity|].
  unfold QuickStart.generateReport.
  cbn [QuickStart.totalScreenshots QuickStart.visualCompliance].
  unfold QuickStart.assessVisualCompliance.
  rewrite validateExpectedContent_screenshots, Hscreens.
  split_and!; [by vm_compute..|].
  vm_compute. intros [_ Hle]. apply Hle. reflexivity.
Qed.

(** The page of [Sample.allVisible] is such a page. *)
Lemma quick_start_visual_score_180_witness :
  ∃ report,
    QuickStart.run Str.toLowerCase_ascii QuickStart.designSpecs
      (Sample.allVisible Sample.onePixel) Sample.shot Sample.lowerCased ∅ = Ok report
    ∧ score (QuickStart.visualCompliance report) = Fin 180.
Proof.
  destruct (quick_start_visual_score_180 Str.toLowerCase_ascii
              (Sample.allVisible Sample.onePixel) Sample.shot Sample.lowerCased ∅
              Sample.onePixel (λ _, Sample.onePixel) (λ _, Sample.onePixel))
    as (report & Hrun & _ & Hscore & _); [reflexivity..|].
  exists report. split; [exact Hrun|]. by rewrite Hscore.
Defined.

(** ** The baseline store and the pixel differ *)

Lemma currentPath_ne_baselinePath (dir : jsstring) :
  Analyzer.currentPath dir ≠ Analyzer.baselinePath dir.
Proof.
  unfold Analyzer.currentPath, Analyzer.baselinePath, Analyzer.path_join.
  intros Heq. apply app_inv_head in Heq. discriminate.
Qed.

Lemma diffPath_ne_baselinePath (dir : jsstring) :
  Analyzer.diffPath dir ≠ Analyzer.baselinePath dir.
Proof.
  unfold Analyzer.diffPath, Analyzer.baselinePath, Analyzer.path_join.
  intros Heq. apply app_inv_head in Heq. discriminate.
Qed.

Lemma captured_current (shot : bytes) (dir : jsstring) (st : State) :
  fs (Analyzer.captured shot dir st) !! Analyzer.currentPath dir = Some shot.
Proof. apply lookup_insert_eq. Qed.

Lemma captured_baseline (shot : bytes) (dir : jsstring) (st : State) :
  fs (Analyzer.captured shot dir st) !! Analyzer.baselinePath dir
  = fs st !! Analyzer.baselinePath dir.
Proof. apply lookup_insert_ne, currentPath_ne_baselinePath. Qed.

Section BaselineStore.
Context {L : ImageLib}.

(** The comparison, when nothing throws. *)
Lemma diffAgainstBaseline_ok (dir : jsstring) (st : State) (shot b : bytes)
    (img1 img2 : PNG) (diff : list N) (pixelDiff : nat) :
  fs st !! Analyzer.currentPath dir = Some shot →
  fs st !! Analyzer.baselinePath dir = Some b →
  PNG_sync_read shot = Ok img1 →
  PNG_sync_read b = Ok img2 →
  pixelmatch (data img1) (data img2) (width img1) (height img1) = Ok (diff, pixelDiff) →
  Analyzer.diffAgainstBaseline dir st
  = Ok (let st := push_screenshot (mkScreenshot (js "diff") (Analyzer.diffPath dir) None)
                    (writeFile (Analyzer.diffPath dir)
                       (PNG_sync_write (mkPNG (width img1) (height img1) diff)) st) in
        if decide (50 < pixelDiff)%nat then push_issue (visual_diff pixelDiff) st else st).
Proof.
  intros Hcur Hbase Hread1 Hread2 Hmatch.
  unfold Analyzer.diffAgainstBaseline, access, readFile. unfold_result.
  by rewrite Hbase, Hcur, Hread1, Hread2, Hmatch.
Qed.

(** The three ways the comparison throws. *)
Lemma diffAgainstBaseline_absent (dir : jsstring) (st : State) :
  fs st !! Analyzer.baselinePath dir = None →
  ∃ m, Analyzer.diffAgainstBaseline dir st = Throw m.
Proof.
  intros Hbase. unfold Analyzer.diffAgainstBaseline, access. unfold_result.
  rewrite Hbase. eauto.
Qed.

Lemma diffAgainstBaseline_unreadable (dir : jsstring) (st : State) (shot b : bytes)
    (img1 : PNG) (m : jsstring) :
  fs st !! Analyzer.currentPath dir = Some shot →
  fs st !! Analyzer.baselinePath dir = Some b →
  PNG_sync_read shot = Ok img1 →
  PNG_sync_read b = Throw m →
  Analyzer.diffAgainstBaseline dir st = Throw m.
Proof.
  intros Hcur Hbase Hread1 Hread2.
  unfold Analyzer.diffAgainstBaseline, access, readFile. unfold_result.
  by rewrite Hbase, Hcur, Hread1, Hread2.
Qed.

Lemma diffAgainstBaseline_refused (dir : jsstring) (st : State) (shot b : bytes)
    (img1 img2 : PNG) (m : jsstring) :
  fs st !! Analyzer.currentPath dir = Some shot →
  fs st !! Analyzer.baselinePath dir = Some b →
  PNG_sync_read shot = Ok img1 →
  PNG_sync_read b = Ok img2 →
  pixelmatch (data img1) (data img2) (width img1) (height img1) = Throw m →
  Analyzer.diffAgainstBaseline dir st = Throw m.
Proof.
  intros Hcur Hbase Hread1 Hread2 Hmatch.
  unfold Analyzer.diffAgainstBaseline, access, readFile. unfold_result.
  by rewrite Hbase, Hcur, Hread1, Hread2, Hmatch.
Qed.

(** What the [catch] block leaves. *)
Lemma takeScreenshotWithDiff_catch (page : Page) (dir : jsstring) (st : State)
    (shot : bytes) (m : jsstring) :
  screenshot page = Ok shot →
  Analyzer.diffAgainstBaseline dir (Analyzer.captured shot dir st) = Throw m →
  Analyzer.takeScreenshotWithDiff page dir st
  = Ok (writeFile (Analyzer.baselinePath dir) shot (Analyzer.captured shot dir st)).
Proof.
  intros Hshot Hthrow. unfold Analyzer.takeScreenshotWithDiff. unfold_result.
  rewrite Hshot, Hthrow. unfold copyFile, readFile. unfold_result.
  by rewrite captured_current.
Qed.

(** The first run for a key creates the baseline from the capture. *)
Lemma baseline_created_when_absent (page : Page) (dir : jsstring) (st : State) (shot : bytes) :
  screenshot page = Ok shot →
  fs st !! Analyzer.baselinePath dir = None →
  ∃ st', Analyzer.takeScreenshotWithDiff page dir st = Ok st'
    ∧ fs st' !! Analyzer.baselinePath dir = Some shot
    ∧ issues st' = issues st.
Proof.
  intros Hshot Habsent.
  destruct (diffAgainstBaseline_absent dir (Analyzer.captured shot dir st)) as [m Hm].
  { by rewrite captured_baseline. }
  rewrite (takeScreenshotWithDiff_catch _ _ _ _ _ Hshot Hm).
  eexists. split; [reflexivity|]. split; [apply lookup_insert_eq | reflexivity].
Qed.

(** X1.  A comparison that goes through leaves the baseline as it was. *)
Lemma baseline_kept_when_diff_succeeds (page : Page) (dir : jsstring) (st : State)
    (shot b : bytes) (img1 img2 : PNG) (diff : list N) (pixelDiff : nat) :
  screenshot page = Ok shot →
  fs st !! Analyzer.baselinePath dir = Some b →
  PNG_sync_read shot = Ok img1 →
  PNG_sync_read b = Ok img2 →
  pixelmatch (data img1) (data img2) (width img1) (height img1) = Ok (diff, pixelDiff) →
  ∃ st', Analyzer.takeScreenshotWithDiff page dir st = Ok st'
    ∧ fs st' !! Analyzer.baselinePath dir = Some b.
Proof.
  intros Hshot Hbase Hread1 Hread2 Hmatch.
  unfold Analyzer.takeScreenshotWithDiff. unfold_result. rewrite Hshot.
  rewrite (diffAgainstBaseline_ok dir _ shot b img1 img2 diff pixelDiff);
    [|apply captured_current|by rewrite captured_baseline|done..].
  eexists. split; [reflexivity|].
  cbn zeta. destruct (decide _); cbn [fs push_issue push_screenshot writeFile];
    rewrite lookup_insert_ne by apply diffPath_ne_baselinePath;
    by rewrite captured_baseline.
Qed.

(** C5.  When the capture is compared with an existing baseline and the
    differ reports [pixelDiff] mismatched pixels, the step adds one
    [visual_diff] issue carrying that count if the count is above 50,
    and no issue if it is 50 or less. *)
Theorem visual_diff_iff_more_than_50 (page : Page) (dir : jsstring) (st : State)
    (shot b : bytes) (img1 img2 : PNG) (diff : list N) (pixelDiff : nat) :
  screenshot page = Ok shot →
  fs st !! Analyzer.baselinePath dir = Some b →
  PNG_sync_read shot = Ok img1 →
  PNG_sync_read b = Ok img2 →
  pixelmatch (data img1) (data img2) (width img1) (height img1) = Ok (diff, pixelDiff) →
  ∃ st', Analyzer.takeScreenshotWithDiff page dir st = Ok st'
    ∧ ((50 < pixelDiff)%nat → issues st' = issues st ++ [visual_diff pixelDiff])
    ∧ ((pixelDiff ≤ 50)%nat → issues st' = issues st)
    ∧ (visual_diff pixelDiff ∈ drop (length (issues st)) (issues st') ↔ (50 < pixelDiff)%nat).
Proof.
  intros Hshot Hbase Hread1 Hread2 Hmatch.
  unfold Analyzer.takeScreenshotWithDiff. unfold_result. rewrite Hshot.
  rewrite (diffAgainstBaseline_ok dir _ shot b img1 img2 diff pixelDiff);
    [|apply captured_current|by rewrite captured_baseline|done..].
  eexists. split; [reflexivity|].
  cbn zeta. destruct (decide (50 < pixelDiff)%nat) as [Hgt|Hle];
    cbn [issues push_issue push_screenshot writeFile Analyzer.captured].
  - split_and!; [done | lia |].
    rewrite drop_app_length. split; [done|]. intros _. apply list_elem_of_singleton. done.
  - split_and!; [lia | done |].
    rewrite drop_all. split; [|lia]. intros Hin. by apply elem_of_nil in Hin.
Qed.

End BaselineStore.

(** *** The reference libraries obey the laws *)

Lemma mismatched_same (img : list N) : Reference.mismatched img img = 0%nat.
Proof.
  assert (H : ∀ n (l : list N), (length l ≤ n)%nat → Reference.mismatched l l = 0%nat).
  { intros n. induction n as [|n IH]; intros l Hlen.
    - destruct l; [done | simpl in Hlen; lia].
    - destruct l as [|r [|g [|b [|a l]]]]; try done.
      cbn [Reference.mismatched]. rewrite decide_True by done.
      rewrite IH; [done | simpl in Hlen; lia]. }
  by apply (H (length img)).
Qed.

#[export] Instance Reference_laws : ImageLibLaws Reference.lib.
Proof.
  split.
  - intros img1 img2 w h Hlen. cbn [pixelmatch Reference.lib].
    unfold Reference.compare. rewrite decide_False by done. eauto.
  - intros img w h Hlen. cbn [pixelmatch Reference.lib].
    unfold Reference.compare. rewrite decide_True by done.
    rewrite decide_True by done. rewrite mismatched_same. eauto.
  - intros b img. cbn [PNG_sync_read Reference.lib]. unfold Reference.read.
    destruct b as [|w [|h d]]; try done.
    destruct (decide _) as [Hlen|]; [|done]. intros [= <-]. exact Hlen.
Qed.

(** A baseline of 75 black pixels and a capture of 75 white ones: one
    [visual_diff] issue, with the count 75. *)
Lemma visual_diff_iff_more_than_50_witness :
  let dir := js "screenshots/home" in
  let st := mkState {[Analyzer.baselinePath dir := Sample.black75]} [] [] in
  ∃ st', Analyzer.takeScreenshotWithDiff (L := Reference.lib)
           (Sample.allVisible Sample.white75) dir st = Ok st'
    ∧ issues st' = [visual_diff 75].
Proof.
  intros dir st.
  destruct (visual_diff_iff_more_than_50 (L := Reference.lib)
              (Sample.allVisible Sample.white75) dir st Sample.white75 Sample.black75
              (mkPNG 75 1 (replicate 300 255%N)) (mkPNG 75 1 (replicate 300 0%N))
              (replicate 300 0%N) 75)
    as (st' & Hrun & Hmore & _); [by vm_compute..|].
  exists st'. split; [exact Hrun|]. apply Hmore. lia.
Defined.

Section Defect.
Context {L : ImageLib}.

(** C1, on the code.  The [catch] block does not tell a missing
    baseline from a comparison that threw: whenever the comparison with
    an existing baseline throws (the baseline cannot be decoded, or the
    differ refuses the two images), the step ends normally and the
    baseline file holds the current capture. *)
Theorem baseline_overwritten_when_diff_throws (page : Page) (dir : jsstring) (st : State)
    (shot b : bytes) (m : jsstring) :
  screenshot page = Ok shot →
  fs st !! Analyzer.baselinePath dir = Some b →
  Analyzer.diffAgainstBaseline dir (Analyzer.captured shot dir st) = Throw m →
  ∃ st', Analyzer.takeScreenshotWithDiff page dir st = Ok st'
    ∧ fs st' !! Analyzer.baselinePath dir = Some shot.
Proof.
  intros Hshot _ Hthrow.
  rewrite (takeScreenshotWithDiff_catch _ _ _ _ _ Hshot Hthrow).
  eexists. split; [reflexivity | apply lookup_insert_eq].
Qed.

(** C4, on the code.  When the capture and the existing baseline decode
    to images with different pixel counts, the differ refuses them and
    the step ends normally with no issue added and no diff image
    written or recorded; what it does instead is replace the baseline
    by the capture. *)
Theorem dimension_mismatch_adds_no_issue `{!ImageLibLaws L}
    (page : Page) (dir : jsstring) (st : State) (shot b : bytes) (img1 img2 : PNG) :
  screenshot page = Ok shot →
  fs st !! Analyzer.baselinePath dir = Some b →
  PNG_sync_read shot = Ok img1 →
  PNG_sync_read b = Ok img2 →
  (width img1 * height img1)%nat ≠ (width img2 * height img2)%nat →
  ∃ st', Analyzer.takeScreenshotWithDiff page dir st = Ok st'
    ∧ issues st' = issues st
    ∧ screenshots st'
      = screenshots st ++ [mkScreenshot (js "full-page") (Analyzer.currentPath dir) None]
    ∧ fs st' !! Analyzer.diffPath dir = fs st !! Analyzer.diffPath dir
    ∧ fs st' !! Analyzer.baselinePath dir = Some shot.
Proof.
  intros Hshot Hbase Hread1 Hread2 Hdims.
  destruct (pixelmatch_sizes (data img1) (data img2) (width img1) (height img1))
    as [m Hm].
  { rewrite (PNG_data_length _ _ Hread1), (PNG_data_length _ _ Hread2). lia. }
  assert (Hthrow : Analyzer.diffAgainstBaseline dir (Analyzer.captured shot dir st) = Throw m).
  { apply (diffAgainstBaseline_refused dir _ shot b img1 img2 m);
      [apply captured_current | by rewrite captured_baseline | done..]. }
  rewrite (takeScreenshotWithDiff_catch _ _ _ _ _ Hshot Hthrow).
  eexists. split; [reflexivity|].
  cbn [issues screenshots fs writeFile push_screenshot Analyzer.captured].
  split_and!; [done | done | | apply lookup_insert_eq].
  rewrite lookup_insert_ne by (symmetry; apply diffPath_ne_baselinePath).
  apply lookup_insert_ne.
  unfold Analyzer.currentPath, Analyzer.diffPath, Analyzer.path_join.
  intros Heq. apply app_inv_head in Heq. discriminate.
Qed.

End Defect.

(** A two-pixel baseline and a one-pixel capture: the step ends with the
    one-pixel capture as the baseline. *)
Lemma baseline_overwritten_when_diff_throws_witness :
  let dir := js "screenshots/home" in
  let st := mkState {[Analyzer.baselinePath dir := Sample.twoPixels]} [] [] in
  Sample.onePixel ≠ Sample.twoPixels
  ∧ ∃ st', Analyzer.takeScreenshotWithDiff (L := Reference.lib)
             (Sample.allVisible Sample.onePixel) dir st = Ok st'
      ∧ fs st' !! Analyzer.baselinePath dir = Some Sample.onePixel.
Proof.
  intros dir st. split; [discriminate|].
  apply (baseline_overwritten_when_diff_throws (L := Reference.lib)
           (Sample.allVisible Sample.onePixel) dir st Sample.onePixel Sample.twoPixels
           (js "Image sizes do not match.")); by vm_compute.
Defined.

(** The same run: no issue, one screenshot, the baseline replaced. *)
Lemma dimension_mismatch_adds_no_issue_witness :
  let dir := js "screenshots/home" in
  let st := mkState {[Analyzer.baselinePath dir := Sample.twoPixels]} [] [] in
  ∃ st', Analyzer.takeScreenshotWithDiff (L := Reference.lib)
           (Sample.allVisible Sample.onePixel) dir st = Ok st'
    ∧ issues st' = []
    ∧ length (screenshots st') = 1%nat.
Proof.
  intros dir st.
  destruct (dimension_mismatch_adds_no_issue (L := Reference.lib)
              (Sample.allVisible Sample.onePixel) dir st Sample.onePixel Sample.twoPixels
              (mkPNG 1 1 [10; 20; 30; 255]%N)
              (mkPNG 2 1 [10; 20; 30; 255; 10; 20; 30; 255]%N))
    as (st' & Hrun & Hissues & Hscreens & _); [by vm_compute..|].
  exists st'. split; [exact Hrun|]. split; [exact Hissues|]. by rewrite Hscreens.
Defined.

(** *** Two runs in a row *)

(** X2.  A second run with the same capture finds the baseline the first
    run created, compares the capture with itself and reports no
    mismatched pixel: no issue, and the baseline as it was. *)
Lemma second_run_compares_with_baseline {L : ImageLib} `{!ImageLibLaws L}
    (page : Page) (dir : jsstring) (files : gmap jsstring bytes) (shot : bytes) (img : PNG) :
  screenshot page = Ok shot →
  PNG_sync_read shot = Ok img →
  files !! Analyzer.baselinePath dir = None →
  ∃ st1 st2,
    Analyzer.takeScreenshotWithDiff page dir (mkState files [] []) = Ok st1
    ∧ fs st1 !! Analyzer.baselinePath dir = Some shot
    ∧ Analyzer.takeScreenshotWithDiff page dir (mkState (fs st1) [] []) = Ok st2
    ∧ fs st2 !! Analyzer.baselinePath dir = Some shot
    ∧ issues st2 = []
    ∧ name <$> screenshots st2 = [js "full-page"; js "diff"].
Proof.
  intros Hshot Hread Habsent.
  destruct (baseline_created_when_absent page dir (mkState files [] []) shot Hshot Habsent)
    as (st1 & Hrun1 & Hbase1 & _).
  exists st1.
  destruct (pixelmatch_identity (data img) (width img) (height img)) as [out Hout].
  { apply (PNG_data_length _ _ Hread). }
  eexists. split; [exact Hrun1|]. split; [exact Hbase1|].
  unfold Analyzer.takeScreenshotWithDiff at 1. unfold_result. rewrite Hshot.
  rewrite (diffAgainstBaseline_ok dir _ shot shot img img out 0);
    [|apply captured_current|by rewrite captured_baseline|done..].
  split; [reflexivity|].
  cbn zeta. rewrite decide_False by lia.
  cbn [fs issues screenshots push_screenshot writeFile Analyzer.captured].
  split_and!; [|done..].
  rewrite lookup_insert_ne by apply diffPath_ne_baselinePath.
  rewrite lookup_insert_ne by apply currentPath_ne_baselinePath. exact Hbase1.
Qed.

(** A baseline of 75 black pixels survives the comparison with a
    capture of 75 white ones. *)
Lemma baseline_kept_when_diff_succeeds_witness :
  let dir := js "screenshots/home" in
  let st := mkState {[Analyzer.baselinePath dir := Sample.black75]} [] [] in
  ∃ st', Analyzer.takeScreenshotWithDiff (L := Reference.lib)
           (Sample.allVisible Sample.white75) dir st = Ok st'
    ∧ fs st' !! Analyzer.baselinePath dir = Some Sample.black75.
Proof.
  intros dir st.
  apply (baseline_kept_when_diff_succeeds (L := Reference.lib)
           (Sample.allVisible Sample.white75) dir st Sample.white75 Sample.black75
           (mkPNG 75 1 (replicate 300 255%N)) (mkPNG 75 1 (replicate 300 0%N))
           (replicate 300 0%N) 75); by vm_compute.
Defined.

(** Two runs on the one-pixel page, from an empty directory. *)
Lemma second_run_compares_with_baseline_witness :
  let page := Sample.allVisible Sample.onePixel in
  let dir := js "screenshots/home" in
  ∃ st1 st2,
    Analyzer.takeScreenshotWithDiff (L := Reference.lib) page dir (mkState ∅ [] []) = Ok st1
    ∧ fs st1 !! Analyzer.baselinePath dir = Some Sample.onePixel
    ∧ Analyzer.takeScreenshotWithDiff (L := Reference.lib) page dir (mkState (fs st1) [] [])
      = Ok st2
    ∧ fs st2 !! Analyzer.baselinePath dir = Some Sample.onePixel
    ∧ issues st2 = []
    ∧ name <$> screenshots st2 = [js "full-page"; js "diff"].
Proof.
  intros page dir.
  apply (second_run_compares_with_baseline (L := Reference.lib) page dir ∅ Sample.onePixel
           (mkPNG 1 1 [10; 20; 30; 255]%N)); by vm_compute.
Defined.

(** *** The scores that do stay within bounds *)

Lemma technical_score_in_bounds (st : State) :
  Spec.in_bounds (QuickStart.calculateTechnicalScore st).
Proof.
  unfold QuickStart.calculateTechnicalScore, Spec.in_bounds. cbn [score].
  set (n := length _).
  assert (Hn : 0 <= inject_Z (Z.of_nat n)).
  { change 0 with (inject_Z 0). rewrite <- Zle_Qle. lia. }
  unfold Num.mul, Num.sub, Num.of_nat. cbn [Num.max Num.geb].
  set (x := Qred _).
  assert (Hx : x == 100 - inject_Z (Z.of_nat n) * 10).
  { unfold x. rewrite !Qred_correct. reflexivity. }
  destruct (Qle_bool x (inject_Z (Z.of_nat 0))) eqn:Hle.
  - split; by vm_compute.
  - apply not_true_iff_false in Hle. rewrite Qle_bool_iff in Hle.
    apply Qnot_le_lt in Hle. change (inject_Z (Z.of_nat 0)) with 0 in Hle.
    split; unfold Num.le; change (inject_Z (Z.of_nat 0)) with 0;
      change (inject_Z (Z.of_nat 100)) with 100; lra.
Qed.

(** ** The pipeline on the sample pages *)

(** Scenario B: 75 changed pixels on a page that is otherwise as
    designed give exactly one issue, and the status [REVIEW]. *)
Example scenario_B :
  let dir := js "screenshots/home-desktop" in
  let files : gmap jsstring bytes := {[Analyzer.baselinePath dir := Sample.black75]} in
  ∃ report st,
    Analyzer_runOne (L := Reference.lib) Str.toLowerCase_ascii Sample.cfg
      (Sample.styled Sample.white75) Sample.home (js "https://example.test/") dir files
    = Ok (report, st)
    ∧ Analyzer.report_issues report = [visual_diff 75]
    ∧ Analyzer.status report = Analyzer.REVIEW
    ∧ fs st !! Analyzer.baselinePath dir = Some Sample.black75.
Proof. intros dir files. eexists _, _. split; [vm_compute; reflexivity|]. by vm_compute. Qed.

(** The style validator on a restyled page: the header passes, the
    colour of the body does not, the footer's lookup is recorded as an
    error and its second property is not looked at. *)
Example validateStyles_restyled :
  issues (Analyzer.validateStyles Str.toLowerCase_ascii Sample.restyled (mkState ∅ [] []))
  = [style_mismatch (js "body")
       (js "CSS property " ++ dq ++ js "color" ++ dq ++ js " expected " ++ dq
        ++ js "#1c1c1e" ++ dq ++ js ", but got " ++ dq ++ js "#0070F3" ++ dq);
     section_error (js "style_validation_footer") (js "Timeout 30000ms exceeded")].
Proof. by vm_compute. Qed.

(** ** The rational model against binary64 *)

(** At the inputs of the lemmas above, IEEE 754 arithmetic gives what
    the rational model gives. *)
Example binary64_agrees :
  Binary64.ratio_score 9 5 = 180%float
  ∧ Binary64.ratio_score 4 5 = 80%float
  ∧ Binary64.ratio_score 3 5 = 60%float
  ∧ PrimFloat.is_nan (Binary64.ratio_score 0 0) = true
  ∧ Binary64.ratio_score 4 0 = infinity
  ∧ PrimFloat.is_nan (Binary64.content_score 0 0) = true
  ∧ Binary64.content_score 0 1 = neg_infinity
  ∧ Binary64.tier 80 = GOOD
  ∧ Binary64.tier Binary64.just_below_80 = FAIR
  ∧ Binary64.tier 60 = FAIR
  ∧ Binary64.tier Binary64.just_below_60 = POOR
  ∧ Binary64.tier nan = POOR
  ∧ Binary64.tier infinity = GOOD.
Proof. split_and!; reflexivity. Qed.

(** * Part III: further properties of the scripts *)

(** ** Every expected section is accounted for *)

Lemma analyzeSection_accounting (page : Page) (dir : jsstring) (st : State) (section : jsstring) :
  (length (screenshots (Analyzer.analyzeSection page dir st section))
   + length (issues (Analyzer.analyzeSection page dir st section)))%nat
  = S (length (screenshots st) + length (issues st)).
Proof.
  unfold Analyzer.analyzeSection. unfold_result.
  destruct (isVisible page _) as [[|]|m]; simpl;
    [destruct (elementScreenshot page _); simpl|..];
    rewrite ?length_app; simpl; lia.
Qed.

Lemma flat_map_at_most_one {A B} (f : A → list B) (l : list A) :
  (∀ a, length (f a) ≤ 1)%nat → (length (flat_map f l) ≤ length l)%nat.
Proof.
  intros Hf. induction l as [|a l IH]; [done|].
  cbn [flat_map]. rewrite length_app. cbn [length]. specialize (Hf a). lia.
Qed.

Lemma sectionIssues_at_most_one (page : Page) (section : jsstring) :
  (length (Analyzer.sectionIssues page section) ≤ 1)%nat.
Proof.
  unfold Analyzer.sectionIssues.
  destruct (isVisible page _) as [[|]|]; [destruct (elementScreenshot page _)|..];
    simpl; lia.
Qed.

Lemma foldl_analyzeSection_accounting (page : Page) (dir : jsstring)
    (expected : list jsstring) (st : State) :
  (length (screenshots (foldl (Analyzer.analyzeSection page dir) st expected))
   + length (issues (foldl (Analyzer.analyzeSection page dir) st expected)))%nat
  = (length (screenshots st) + length (issues st) + length expected)%nat
  ∧ (length (issues st)
     ≤ length (issues (foldl (Analyzer.analyzeSection page dir) st expected)))%nat.
Proof.
  revert st. induction expected as [|s expected IH]; intros st; cbn [foldl length].
  - lia.
  - destruct (IH (Analyzer.analyzeSection page dir st s)) as [IH1 IH2].
    pose proof (analyzeSection_accounting page dir st s) as Hone.
    pose proof (analyzeSection_issues page dir st s) as Hiss.
    apply (f_equal length) in Hiss. rewrite length_app in Hiss.
    lia.
Qed.

(** X3.  [analyzeSections] ends with one new entry per expected section:
    either a screenshot of the section or an issue about it. *)
Theorem analyzeSections_accounts_for_each_section
    (cfg : Analyzer.Config) (page : Page) (pageName dir : jsstring) (st : State) :
  let st' := Analyzer.analyzeSections cfg page pageName dir st in
  (length (screenshots st') + length (issues st'))%nat
  = (length (screenshots st) + length (issues st)
     + length (Analyzer.expectedFor cfg pageName))%nat
  ∧ (length (issues st) ≤ length (issues st'))%nat
  ∧ (length (screenshots st) ≤ length (screenshots st'))%nat.
Proof.
  intros st'. unfold st', Analyzer.analyzeSections.
  destruct (foldl_analyzeSection_accounting page dir (Analyzer.expectedFor cfg pageName) st)
    as [Hsum Hiss].
  pose proof (analyzeSections_issues cfg page pageName dir st) as Happ.
  unfold Analyzer.analyzeSections in Happ.
  apply (f_equal length) in Happ. rewrite length_app in Happ.
  split; [exact Hsum|]. split; [exact Hiss|].
  pose proof (flat_map_at_most_one (Analyzer.sectionIssues page)
                (Analyzer.expectedFor cfg pageName) (sectionIssues_at_most_one page)).
  lia.
Qed.

Lemma analyzeViewportSection_accounting (page : Page) (st : State) (section : SectionRule) :
  let st' := QuickStart.analyzeViewportSection page st section in
  (length (screenshots st') + length (issues st'))%nat
  = S (length (screenshots st) + length (issues st))
  ∧ (length (screenshots st) ≤ length (screenshots st'))%nat
  ∧ (length (issues st) ≤ length (issues st'))%nat
  ∧ (Forall QuickStart.counts_as_found (screenshots st) →
     Forall QuickStart.counts_as_found (screenshots st')).
Proof.
  unfold QuickStart.analyzeViewportSection. unfold_result.
  destruct (isVisible page _) as [[|]|m]; simpl;
    [destruct (elementScreenshot page _); simpl|..];
    rewrite ?length_app; simpl; split_and!; try lia; try done.
  intros Hall. apply Forall_app. split; [done|]. by repeat constructor.
Qed.

Lemma analyzeViewportSectionsOf_accounting (rules : list SectionRule) (page : Page) (st : State) :
  let st' := QuickStart.analyzeViewportSectionsOf rules page st in
  (length (screenshots st') + length (issues st'))%nat
  = (length (screenshots st) + length (issues st) + length rules)%nat
  ∧ (length (screenshots st) ≤ length (screenshots st'))%nat
  ∧ (length (issues st) ≤ length (issues st'))%nat
  ∧ (Forall QuickStart.counts_as_found (screenshots st) →
     Forall QuickStart.counts_as_found (screenshots st')).
Proof.
  unfold QuickStart.analyzeViewportSectionsOf. cbn zeta. revert st.
  induction rules as [|r rules IH]; intros st; cbn [foldl length].
  - split_and!; [lia..|done].
  - destruct (IH (QuickStart.analyzeViewportSection page st r)) as (IH1 & IH2 & IH3 & IH4).
    destruct (analyzeViewportSection_accounting page st r) as (H1 & H2 & H3 & H4).
    cbn zeta in *. split_and!; [lia..|]. intros Hall. auto.
Qed.

(** X4.  [analyzeViewportSections] of [quick-start.js] ends with one new
    entry per section rule, a screenshot or an issue: after it on a
    fresh analyzer, screenshots and issues together number five. *)
Theorem analyzeViewportSections_accounts_for_each_rule (page : Page) (st : State) :
  let st' := QuickStart.analyzeViewportSections page st in
  (length (screenshots st') + length (issues st'))%nat
  = (length (screenshots st) + length (issues st) + 5)%nat
  ∧ (length (screenshots st) ≤ length (screenshots st'))%nat
  ∧ (length (issues st) ≤ length (issues st'))%nat.
Proof.
  intros st'. unfold st', QuickStart.analyzeViewportSections.
  destruct (analyzeViewportSectionsOf_accounting QuickStart.sections page st)
    as (H1 & H2 & H3 & _).
  cbn zeta in *. change (length QuickStart.sections) with 5%nat in H1. done.
Qed.

(** ** What the section loop writes *)

Lemma analyzeSection_fs (page : Page) (dir : jsstring) (st : State) (section p : jsstring) :
  p ≠ Analyzer.path_join dir (section ++ js ".png") →
  fs (Analyzer.analyzeSection page dir st section) !! p = fs st !! p.
Proof.
  intros Hp. unfold Analyzer.analyzeSection. unfold_result.
  destruct (isVisible page _) as [[|]|m]; simpl; [|done..].
  destruct (elementScreenshot page _); simpl; [|done].
  by rewrite lookup_insert_ne.
Qed.

Lemma foldl_analyzeSection_fs (page : Page) (dir : jsstring) (expected : list jsstring)
    (st : State) (p : jsstring) :
  (∀ section, section ∈ expected → p ≠ Analyzer.path_join dir (section ++ js ".png")) →
  fs (foldl (Analyzer.analyzeSection page dir) st expected) !! p = fs st !! p.
Proof.
  revert st. induction expected as [|s expected IH]; intros st Hp; [done|].
  cbn [foldl]. rewrite IH.
  - apply analyzeSection_fs, Hp. by left.
  - intros section Hin. apply Hp. by right.
Qed.

Lemma section_path_baseline (dir section : jsstring) :
  Analyzer.path_join dir (section ++ js ".png") = Analyzer.baselinePath dir
  ↔ section = js "baseline".
Proof.
  unfold Analyzer.baselinePath, Analyzer.path_join. split.
  - intros Heq. apply app_inv_head in Heq. apply app_inv_head in Heq.
    change (js "baseline.png") with (js "baseline" ++ js ".png") in Heq.
    by apply app_inv_tail in Heq.
  - by intros ->.
Qed.

(** X5.  [analyzeSections] writes no file other than
    [<dir>/<section>.png] for its expected sections.  For section names
    without a path separator, the baseline of the directory is
    therefore left as it was unless a section is itself named
    [baseline]. *)
Theorem analyzeSections_keeps_baseline
    (cfg : Analyzer.Config) (page : Page) (pageName dir : jsstring) (st : State) :
  Forall no_slash (Analyzer.expectedFor cfg pageName) →
  js "baseline" ∉ Analyzer.expectedFor cfg pageName →
  let st' := Analyzer.analyzeSections cfg page pageName dir st in
  fs st' !! Analyzer.baselinePath dir = fs st !! Analyzer.baselinePath dir
  ∧ ∀ p, p ∉ (λ section, Analyzer.path_join dir (section ++ js ".png"))
               <$> Analyzer.expectedFor cfg pageName →
         fs st' !! p = fs st !! p.
Proof.
  intros _ Hnot st'. unfold st', Analyzer.analyzeSections. split.
  - apply foldl_analyzeSection_fs. intros section Hin Heq. symmetry in Heq.
    apply section_path_baseline in Heq. by subst.
  - intros p Hp. apply foldl_analyzeSection_fs. intros section Hin ->.
    apply Hp. apply list_elem_of_fmap. eauto.
Qed.

Lemma analyzeSections_keeps_baseline_witness :
  let dir := js "screenshots/home" in
  let st := mkState {[Analyzer.baselinePath dir := Sample.black75]} [] [] in
  fs (Analyzer.analyzeSections Sample.cfg (Sample.allVisible Sample.onePixel)
        Sample.home dir st) !! Analyzer.baselinePath dir
  = Some Sample.black75.
Proof.
  intros dir st.
  destruct (analyzeSections_keeps_baseline Sample.cfg (Sample.allVisible Sample.onePixel)
              Sample.home dir st) as [Hbase _].
  - apply (bool_decide_unpack _). by vm_compute.
  - apply (bool_decide_unpack _). by vm_compute.
  - rewrite Hbase. apply lookup_singleton_eq.
Defined.

(** X6.  A visible expected section named [baseline] has its element
    screenshot written to [<dir>/baseline.png]: when no later section
    bears the same name (the later names holding no path separator),
    the directory's baseline ends up being that element screenshot. *)
Theorem section_named_baseline_overwrites_baseline
    (cfg : Analyzer.Config) (page : Page) (pageName dir : jsstring) (st : State)
    (pre post : list jsstring) (img : bytes) :
  Analyzer.expectedFor cfg pageName = pre ++ js "baseline" :: post →
  Forall no_slash post →
  js "baseline" ∉ post →
  isVisible page (Analyzer.sectionSelector (js "baseline")) = Ok true →
  elementScreenshot page (Analyzer.sectionSelector (js "baseline")) = Ok img →
  fs (Analyzer.analyzeSections cfg page pageName dir st) !! Analyzer.baselinePath dir
  = Some img.
Proof.
  intros Hexpected _ Hpost Hvisible Hshot. unfold Analyzer.analyzeSections.
  rewrite Hexpected, foldl_app. cbn [foldl].
  rewrite foldl_analyzeSection_fs.
  - unfold Analyzer.analyzeSection. unfold_result. rewrite Hvisible, Hshot.
    cbn [fs push_screenshot writeFile].
    rewrite (proj2 (section_path_baseline dir (js "baseline")) eq_refl).
    apply lookup_insert_eq.
  - intros section Hin Heq. symmetry in Heq.
    apply section_path_baseline in Heq. by subst.
Qed.

Lemma section_named_baseline_overwrites_baseline_witness :
  let dir := js "screenshots/home" in
  let cfg := Analyzer.mkConfig (Some {[Sample.home := [js "hero"; js "baseline"]]}) ∅ in
  let st := mkState {[Analyzer.baselinePath dir := Sample.black75]} [] [] in
  fs (Analyzer.analyzeSections cfg (Sample.allVisible Sample.white75) Sample.home dir st)
    !! Analyzer.baselinePath dir
  = Some Sample.onePixel.
Proof.
  intros dir cfg st.
  apply (section_named_baseline_overwrites_baseline cfg (Sample.allVisible Sample.white75)
           Sample.home dir st [js "hero"] [] Sample.onePixel);
    [by vm_compute | constructor | apply not_elem_of_nil | reflexivity | reflexivity].
Defined.

(** ** The style validator's loops *)

Lemma validateCheck_app_throw (toLowerCase : jsstring → jsstring) (page : Page)
    (check : Analyzer.StyleCheck) (pre post : list (jsstring * jsstring))
    (prop expected message : jsstring) (st : State) :
  Forall (λ entry, ∃ v, computedStyle page (Analyzer.check_selector check) entry.1 = Ok v) pre →
  computedStyle page (Analyzer.check_selector check) prop = Throw message →
  Analyzer.validateCheck toLowerCase page check (pre ++ (prop, expected) :: post) st
  = push_issue
      (section_error (js "style_validation_" ++ Analyzer.check_name check) message)
      (Analyzer.validateCheck toLowerCase page check pre st).
Proof.
  intros Hpre Hthrow. revert st.
  induction Hpre as [|[p e] pre [v Hv] _ IH]; intros st.
  - cbn [app Analyzer.validateCheck]. by rewrite Hthrow.
  - cbn [app Analyzer.validateCheck]. simpl in Hv. rewrite Hv. apply IH.
Qed.

(** X7.  When the computed-style lookup of a property throws, the check
    stops there: the mismatches found for the properties before it
    stay, one error issue named [style_validation_<check>] with the
    thrown message is added, and the properties after it are never
    looked at. *)
Theorem style_lookup_failure_ends_check (toLowerCase : jsstring → jsstring) (page : Page)
    (check : Analyzer.StyleCheck) (pre post post' : list (jsstring * jsstring))
    (prop expected message : jsstring) (st : State) :
  Forall (λ entry, ∃ v, computedStyle page (Analyzer.check_selector check) entry.1 = Ok v) pre →
  computedStyle page (Analyzer.check_selector check) prop = Throw message →
  let st' := Analyzer.validateCheck toLowerCase page check (pre ++ (prop, expected) :: post) st in
  issues st'
  = issues (Analyzer.validateCheck toLowerCase page check pre st)
    ++ [section_error (js "style_validation_" ++ Analyzer.check_name check) message]
  ∧ st' = Analyzer.validateCheck toLowerCase page check (pre ++ (prop, expected) :: post') st.
Proof.
  intros Hpre Hthrow st'. unfold st'.
  rewrite !(validateCheck_app_throw toLowerCase page check pre _ prop expected message st Hpre Hthrow).
  done.
Qed.

Lemma style_lookup_failure_ends_check_witness :
  let footer :=
    Analyzer.mkStyleCheck (js "footer") (js "footer")
      [(js "color", Analyzer.color_secondary); (js "font-family", Analyzer.font_body)] in
  issues (Analyzer.validateCheck Str.toLowerCase_ascii Sample.restyled footer
            (Analyzer.expectedStyles footer) (mkState ∅ [] []))
  = [section_error (js "style_validation_footer") (js "Timeout 30000ms exceeded")].
Proof.
  intros footer.
  destruct (style_lookup_failure_ends_check Str.toLowerCase_ascii Sample.restyled footer
              [] [(js "font-family", Analyzer.font_body)] []
              (js "color") Analyzer.color_secondary (js "Timeout 30000ms exceeded")
              (mkState ∅ [] [])) as [Hissues _]; [constructor | reflexivity |].
  exact Hissues.
Defined.

Lemma compareStyle_frame (toLowerCase : jsstring → jsstring) (check : Analyzer.StyleCheck)
    (prop expected computedValue : jsstring) (st : State) :
  let st' := Analyzer.compareStyle toLowerCase check prop expected computedValue st in
  fs st' = fs st ∧ screenshots st' = screenshots st
  ∧ issues st `prefix_of` issues st'
  ∧ (length (issues st') ≤ S (length (issues st)))%nat.
Proof.
  unfold Analyzer.compareStyle. cbn zeta.
  destruct (negb _); simpl; rewrite ?length_app; simpl; split_and!;
    try done; try lia; by apply prefix_app_r.
Qed.

Lemma validateCheck_frame (toLowerCase : jsstring → jsstring) (page : Page)
    (check : Analyzer.StyleCheck) (entries : list (jsstring * jsstring)) (st : State) :
  let st' := Analyzer.validateCheck toLowerCase page check entries st in
  fs st' = fs st ∧ screenshots st' = screenshots st
  ∧ issues st `prefix_of` issues st'
  ∧ (length (issues st') ≤ length (issues st) + length entries)%nat.
Proof.
  cbn zeta. revert st. induction entries as [|[prop expected] entries IH]; intros st.
  - simpl. split_and!; try done; lia.
  - cbn [Analyzer.validateCheck length].
    destruct (computedStyle page _ prop) as [v|m].
    + destruct (IH (Analyzer.compareStyle toLowerCase check prop expected v st))
        as (Hfs & Hshots & Hpre & Hlen).
      destruct (compareStyle_frame toLowerCase check prop expected v st)
        as (Hfs' & Hshots' & Hpre' & Hlen').
      cbn zeta in *. rewrite Hfs, Hshots, Hfs', Hshots'.
      split_and!; try done; [by etrans | lia].
    + simpl. rewrite length_app. simpl.
      split_and!; try done; [by apply prefix_app_r | lia].
Qed.

(** X8.  [validateStyles] touches neither the files nor the
    screenshots, keeps the issues found so far as they are, and adds at
    most six issues after them: one per property of its three checks. *)
Theorem validateStyles_adds_at_most_six (toLowerCase : jsstring → jsstring)
    (page : Page) (st : State) :
  let st' := Analyzer.validateStyles toLowerCase page st in
  fs st' = fs st
  ∧ screenshots st' = screenshots st
  ∧ issues st `prefix_of` issues st'
  ∧ (length (issues st') ≤ length (issues st) + 6)%nat.
Proof.
  cbn zeta. unfold Analyzer.validateStyles, Analyzer.validateStylesOf, Analyzer.checks.
  cbn [foldl Analyzer.expectedStyles].
  repeat match goal with
  | |- context [Analyzer.validateCheck toLowerCase page ?c ?e ?s] =>
      lazymatch s with
      | context [Analyzer.validateCheck] => fail
      | _ =>
          let H := fresh "H" in
          pose proof (validateCheck_frame toLowerCase page c e s) as H;
          cbn zeta in H; cbn [length] in H;
          destruct H as (? & ? & ? & ?);
          generalize dependent (Analyzer.validateCheck toLowerCase page c e s); intros
      end
  end.
  split_and!; try congruence; [|lia].
  repeat (etrans; [eassumption|]). done.
Qed.

(** ** The scorers over a whole run of [quick-start.js] *)

Lemma filter_all {A} (P : A → Prop) `{!∀ x, Decision (P x)} (l : list A) :
  Forall P l → filter P l = l.
Proof.
  induction 1 as [|x l Hx _ IH]; [done|].
  rewrite filter_cons, decide_True by done. by rewrite IH.
Qed.

Lemma checkResponsiveDesign_inv (shot : jsstring → result bytes) (vps : list jsstring)
    (st st' : State) :
  QuickStart.checkResponsiveDesign shot vps st = Ok st' →
  length (screenshots st') = (length (screenshots st) + length vps)%nat
  ∧ issues st' = issues st
  ∧ (Forall QuickStart.counts_as_found (screenshots st) →
     Forall QuickStart.counts_as_found (screenshots st')).
Proof.
  revert st. induction vps as [|v vps IH]; intros st.
  - simpl. intros [= <-]. split_and!; [lia|done..].
  - cbn [QuickStart.checkResponsiveDesign]. unfold_result.
    destruct (shot v) as [img|m]; [|done]. intros Hrest.
    destruct (IH _ Hrest) as (Hlen & Hissues & Hall).
    cbn [screenshots issues push_screenshot writeFile] in *.
    rewrite length_app in Hlen. cbn [length] in *.
    split_and!; [lia | done |].
    intros Hst. apply Hall. apply Forall_app. split; [done|]. by repeat constructor.
Qed.

(** What a completed visual analysis leaves: between four and nine
    screenshots, each of which counts as a found section. *)
Lemma performVisualAnalysis_screenshots (page : Page) (shot : jsstring → result bytes)
    (files : gmap jsstring bytes) (st' : State) :
  QuickStart.performVisualAnalysis page shot (mkState files [] []) = Ok st' →
  (4 ≤ length (screenshots st') ≤ 9)%nat
  ∧ Forall QuickStart.counts_as_found (screenshots st')
  ∧ (length (screenshots st') + length (issues st') = 9)%nat.
Proof.
  unfold QuickStart.performVisualAnalysis. unfold_result.
  destruct (screenshot page) as [img|m]; [|done]. intros Hrun.
  apply checkResponsiveDesign_inv in Hrun as (Hlen & Hissues & Hall).
  unfold QuickStart.analyzeViewportSections in *.
  match type of Hlen with
  | context [QuickStart.analyzeViewportSectionsOf ?rules page ?st] =>
      destruct (analyzeViewportSectionsOf_accounting rules page st) as (H1 & H2 & H3 & H4)
  end.
  cbn zeta in *. cbn [screenshots issues push_screenshot writeFile length app] in *.
  change (length QuickStart.sections) with 5%nat in H1.
  change (length QuickStart.viewports) with 3%nat in Hlen.
  rewrite Hissues.
  split_and!; [lia | lia | | lia].
  apply Hall, H4. by repeat constructor.
Qed.

Lemma visual_score_four_to_nine (n : nat) :
  (4 ≤ n ≤ 9)%nat →
  let s := Num.mul (Num.div (Num.of_nat n) (Num.of_nat 5)) (Num.of_nat 100) in
  tier s = GOOD ∧ Num.le (Num.of_nat 80) s ∧ (Num.le s (Num.of_nat 100) ↔ (n ≤ 5)%nat).
Proof.
  intros Hn.
  assert (Hcases : n = 4%nat ∨ n = 5%nat ∨ n = 6%nat ∨ n = 7%nat ∨ n = 8%nat ∨ n = 9%nat)
    by lia.
  destruct Hcases as [-> | [-> | [-> | [-> | [-> | ->]]]]]; cbn zeta;
    (split; [reflexivity|]); (split; [by vm_compute|]);
    (split; [intros Hle; vm_compute in Hle; try lia; by exfalso; apply Hle
            | intros Hle; try lia; by vm_compute]).
Qed.

(** X9.  Whatever the page shows, a run of [quick-start.js] that
    completes reports visual compliance [GOOD] with a score of at least
    80: the full-page and the three responsive screenshots already
    count as four found sections out of five.  The score is above 100
    as soon as two sections are visible. *)
Theorem quick_start_visual_always_GOOD
    (toLowerCase : jsstring → jsstring) (page : Page) (shot : jsstring → result bytes)
    (tc : TextContent) (files : gmap jsstring bytes) (report : QuickStart.Report) :
  QuickStart.run toLowerCase QuickStart.designSpecs page shot tc files = Ok report →
  tier_of (QuickStart.visualCompliance report) = GOOD
  ∧ Num.le (Num.of_nat 80) (score (QuickStart.visualCompliance report))
  ∧ (4 ≤ QuickStart.totalScreenshots report ≤ 9)%nat
  ∧ (Spec.in_bounds (QuickStart.visualCompliance report)
     ↔ (QuickStart.totalScreenshots report ≤ 5)%nat).
Proof.
  unfold QuickStart.run. unfold_result.
  destruct (QuickStart.performVisualAnalysis page shot _) as [st|m] eqn:Hvisual; [|done].
  intros [= <-].
  apply performVisualAnalysis_screenshots in Hvisual as (Hlen & Hall & _).
  unfold QuickStart.generateReport.
  cbn [QuickStart.visualCompliance QuickStart.totalScreenshots].
  unfold QuickStart.assessVisualCompliance, Spec.in_bounds. cbn [score tier_of].
  rewrite validateExpectedContent_screenshots, (filter_all _ _ Hall).
  change (length (expectedSections QuickStart.designSpecs)) with 5%nat.
  destruct (visual_score_four_to_nine _ Hlen) as (Htier & Hge & Hle). cbn zeta in *.
  split; [done|]. split; [done|]. split; [lia|].
  rewrite <- Hle. split; [by intros [_ ?]|]. intros H100. split; [|done].
  clear -Hge. destruct (Num.mul _ _); try done. simpl in *.
  eapply Qle_trans; [|exact Hge]. by vm_compute.
Qed.

Lemma quick_start_visual_always_GOOD_witness :
  ∃ report,
    QuickStart.run Str.toLowerCase_ascii QuickStart.designSpecs
      (Sample.timesOut (λ _, true)) Sample.shot Sample.hiddenHeading ∅ = Ok report
    ∧ tier_of (QuickStart.visualCompliance report) = GOOD
    ∧ QuickStart.totalIssues report = 9%nat.
Proof.
  eexists. split; [by vm_compute|]. split; [|by vm_compute].
  eapply (quick_start_visual_always_GOOD Str.toLowerCase_ascii
            (Sample.timesOut (λ _, true)) Sample.shot Sample.hiddenHeading ∅).
  by vm_compute.
Defined.

(** ** The content score after validation *)

Lemma ratio_score_bounds (t m : nat) :
  (0 < t)%nat → (m ≤ t)%nat →
  let s := Num.mul (Num.div (Num.sub (Num.of_nat t) (Num.of_nat m)) (Num.of_nat t))
             (Num.of_nat 100) in
  Num.le (Num.of_nat 0) s ∧ Num.le s (Num.of_nat 100)
  ∧ (Num.eq s (Num.of_nat 100) ↔ m = 0%nat).
Proof.
  intros Ht Hm. cbn zeta. unfold Num.sub, Num.div, Num.mul, Num.of_nat.
  set (T := inject_Z (Z.of_nat t)). set (M := inject_Z (Z.of_nat m)).
  assert (HT : 0 < T).
  { unfold T. change 0 with (inject_Z 0). rewrite <- Zlt_Qlt. lia. }
  assert (HM0 : 0 <= M).
  { unfold M. change 0 with (inject_Z 0). rewrite <- Zle_Qle. lia. }
  assert (HMT : M <= T).
  { unfold M, T. rewrite <- Zle_Qle. lia. }
  assert (Hm0 : M == 0 ↔ m = 0%nat).
  { unfold M. change 0 with (inject_Z 0). rewrite inject_Z_injective. lia. }
  destruct (Qeq_bool T 0) eqn:HT0.
  { apply Qeq_bool_iff in HT0. lra. }
  set (r := Qred (T - M) / T).
  assert (Hr : r * T == T - M).
  { unfold r. rewrite Qred_correct. field. lra. }
  assert (Hr0 : 0 <= r).
  { unfold r. apply Qle_shift_div_l; [done|]. rewrite Qred_correct. lra. }
  assert (Hr1 : r <= 1).
  { unfold r. apply Qle_shift_div_r; [done|]. rewrite Qred_correct. lra. }
  unfold Num.le, Num.eq. change (inject_Z (Z.of_nat 0)) with 0.
  change (inject_Z (Z.of_nat 100)) with 100.
  rewrite !Qred_correct. split_and!; [lra | lra |].
  rewrite <- Hm0. split; intros H.
  - assert (r == 1) by lra. rewrite H0 in Hr. lra.
  - assert (r * T == T) by lra. assert (r == 1).
    { apply (Qmult_inj_r _ _ T); lra. }
    lra.
Qed.

Lemma filter_textIssues (toLowerCase : jsstring → jsstring) (corpus : jsstring)
    (texts : list jsstring) :
  length (filter (λ i, type i = "missing_content"%string)
            (flat_map (QuickStart.textIssues toLowerCase corpus) texts))
  = length (filter (λ t, Str.includes corpus (toLowerCase t) = false) texts).
Proof.
  induction texts as [|t texts IH]; [done|].
  cbn [flat_map]. rewrite filter_app, length_app, IH, filter_cons.
  unfold QuickStart.textIssues.
  destruct (Str.includes corpus (toLowerCase t)) eqn:Hinc.
  - rewrite decide_False by done. done.
  - rewrite decide_True by done. done.
Qed.

Lemma filter_none {A} (P : A → Prop) `{!∀ x, Decision (P x)} (l : list A) :
  Forall (λ x, ¬ P x) l → filter P l = [].
Proof.
  induction 1 as [|x l Hx _ IH]; [done|].
  rewrite filter_cons, decide_False by done. done.
Qed.

(** X10.  When the issues hold no [missing_content] entry before the
    content validator runs and at least one text is expected, the
    content score computed after it lies between 0 and 100, and it is
    100 exactly when every expected text occurs in the corpus. *)
Theorem content_score_after_validation
    (toLowerCase : jsstring → jsstring) (specs : DesignSpecs) (tc : TextContent) (st : State) :
  expectedTexts specs ≠ [] →
  Forall (λ i, type i ≠ "missing_content"%string) (issues st) →
  let st' := QuickStart.validateExpectedContent toLowerCase specs tc st in
  let a := QuickStart.assessContentCompliance specs st' in
  Spec.in_bounds a
  ∧ (Num.eq (score a) (Num.of_nat 100)
     ↔ Forall (λ t, Str.contains (QuickStart.allText toLowerCase tc) (toLowerCase t))
         (expectedTexts specs)).
Proof.
  intros Hne Hclean st' a. unfold a, st', Spec.in_bounds.
  unfold QuickStart.assessContentCompliance. cbn [score].
  unfold QuickStart.validateExpectedContent.
  rewrite (foldl_issues _ (QuickStart.textIssues toLowerCase (QuickStart.allText toLowerCase tc)))
    by (intros; apply validateExpectedText_issues).
  rewrite filter_app, length_app, (filter_none _ _ Hclean), filter_textIssues.
  cbn [length Nat.add].
  set (corpus := QuickStart.allText toLowerCase tc).
  set (missing := filter _ (expectedTexts specs)).
  assert (Hlen : (length missing ≤ length (expectedTexts specs))%nat)
    by apply length_filter.
  assert (Hpos : (0 < length (expectedTexts specs))%nat).
  { destruct (expectedTexts specs); [done | simpl; lia]. }
  destruct (ratio_score_bounds _ _ Hpos Hlen) as (H0 & H100 & Heq). cbn zeta in *.
  split; [done|]. rewrite Heq. unfold missing. split.
  - intros Hnil. apply length_zero_iff_nil in Hnil.
    apply Forall_forall. intros t Hin. apply includes_spec.
    destruct (Str.includes corpus (toLowerCase t)) eqn:Hinc; [done|].
    assert (t ∈ filter (λ t, Str.includes corpus (toLowerCase t) = false)
                  (expectedTexts specs))
      as Habs by (apply list_elem_of_filter; split; done).
    rewrite Hnil in Habs. by apply elem_of_nil in Habs.
  - intros Hall. rewrite filter_none; [done|].
    eapply Forall_impl; [exact Hall|]. intros t Ht. apply includes_spec in Ht.
    by rewrite Ht.
Qed.

Lemma content_score_after_validation_witness :
  let st' := QuickStart.validateExpectedContent Str.toLowerCase_ascii QuickStart.designSpecs
               Sample.lowerCased (mkState ∅ [] []) in
  Spec.in_bounds (QuickStart.assessContentCompliance QuickStart.designSpecs st')
  ∧ score (QuickStart.assessContentCompliance QuickStart.designSpecs st') = Fin 20.
Proof.
  intros st'. split; [|by vm_compute].
  apply (content_score_after_validation Str.toLowerCase_ascii QuickStart.designSpecs
           Sample.lowerCased (mkState ∅ [] [])); [discriminate | constructor].
Defined.

(** ** The technical score and the recommendations *)

Lemma technical_score_value (st : State) :
  let n := length (filter (λ i, type i = "analysis_error"%string) (issues st)) in
  ∃ q, score (QuickStart.calculateTechnicalScore st) = Fin q
    ∧ q == inject_Z (Z.max 0 (100 - 10 * Z.of_nat n)).
Proof.
  intros n. unfold QuickStart.calculateTechnicalScore. cbn [score]. fold n.
  unfold Num.mul, Num.sub, Num.of_nat. cbn [Num.max Num.geb].
  set (x := Qred _).
  assert (Hx : x == inject_Z (100 - 10 * Z.of_nat n)).
  { unfold x. rewrite !Qred_correct.
    unfold Qeq, Qminus, Qplus, Qopp, Qmult, inject_Z. cbn [Qnum Qden]. lia. }
  destruct (Qle_bool x (inject_Z (Z.of_nat 0))) eqn:Hle.
  - exists (inject_Z (Z.of_nat 0)). split; [done|].
    apply Qle_bool_iff in Hle. rewrite Hx in Hle.
    change (inject_Z (Z.of_nat 0)) with (inject_Z 0) in *.
    rewrite <- Zle_Qle in Hle. by rewrite Z.max_l by lia.
  - exists x. split; [done|].
    apply not_true_iff_false in Hle. rewrite Qle_bool_iff, Hx in Hle.
    change (inject_Z (Z.of_nat 0)) with (inject_Z 0) in *.
    rewrite <- Zle_Qle in Hle. by rewrite Z.max_r by lia.
Qed.

(** X11.  The technical score is 100 less 10 per [analysis_error] issue
    and never below 0; so the tier is [GOOD] with up to two such
    issues, [FAIR] with three or four, and [POOR] from five on.  Issues
    of the other kinds do not count. *)
Theorem technical_score_by_error_count (st : State) :
  let n := length (filter (λ i, type i = "analysis_error"%string) (issues st)) in
  let a := QuickStart.calculateTechnicalScore st in
  Num.eq (score a) (Fin (inject_Z (Z.max 0 (100 - 10 * Z.of_nat n))))
  ∧ (tier_of a = GOOD ↔ (n ≤ 2)%nat)
  ∧ (tier_of a = FAIR ↔ (3 ≤ n)%nat ∧ (n ≤ 4)%nat)
  ∧ (tier_of a = POOR ↔ (5 ≤ n)%nat).
Proof.
  intros n a. destruct (technical_score_value st) as (q & Hscore & Hq). fold n in Hq.
  assert (Htier : tier_of a = tier (Fin q)) by (unfold a; rewrite <- Hscore; reflexivity).
  rewrite Htier. unfold a. rewrite Hscore. cbn [Num.eq].
  split; [exact Hq|].
  rewrite tier_GOOD, tier_FAIR, tier_POOR, !Hq.
  change 80 with (inject_Z 80). change 60 with (inject_Z 60).
  rewrite <- !Zle_Qle, <- !Zlt_Qlt. lia.
Qed.

Lemma some_of_type_spec (t : string) (st : State) :
  Recommend.some_of_type t st = true ↔ ∃ i, i ∈ issues st ∧ type i = t.
Proof.
  unfold Recommend.some_of_type. rewrite bool_decide_eq_true. apply Exists_exists.
Qed.

Lemma generateRecommendations_shape (st : State) :
  Recommend.generateRecommendations st
  = (if Recommend.some_of_type "missing_content" st then [Recommend.content_advice] else [])
    ++ (if Recommend.some_of_type "missing_section" st then [Recommend.section_advice] else [])
    ++ (if Recommend.some_of_type "analysis_error" st then [Recommend.selector_advice] else [])
    ++ Recommend.defaults.
Proof.
  unfold Recommend.generateRecommendations. cbn zeta.
  by repeat destruct (Recommend.some_of_type _ st).
Qed.

Lemma elem_of_if_singleton (x y : jsstring) (b : bool) :
  x ∈ (if b then [y] else []) ↔ x = y ∧ b = true.
Proof.
  destruct b.
  - rewrite list_elem_of_singleton. tauto.
  - split; [intros H; by apply elem_of_nil in H | intros [_ ?]; discriminate].
Qed.

Lemma advice_distinct :
  Recommend.content_advice ≠ Recommend.section_advice
  ∧ Recommend.content_advice ≠ Recommend.selector_advice
  ∧ Recommend.section_advice ≠ Recommend.selector_advice
  ∧ (Recommend.content_advice ∉ Recommend.defaults)
  ∧ (Recommend.section_advice ∉ Recommend.defaults)
  ∧ (Recommend.selector_advice ∉ Recommend.defaults).
Proof.
  split; [discriminate|]. split; [discriminate|]. split; [discriminate|].
  split; [|split]; apply (bool_decide_unpack _); by vm_compute.
Qed.

Lemma advice_present (st : State) :
  let recs := Recommend.generateRecommendations st in
  (Recommend.content_advice ∈ recs ↔ Recommend.some_of_type "missing_content" st = true)
  ∧ (Recommend.section_advice ∈ recs ↔ Recommend.some_of_type "missing_section" st = true)
  ∧ (Recommend.selector_advice ∈ recs ↔ Recommend.some_of_type "analysis_error" st = true).
Proof.
  cbn zeta. rewrite generateRecommendations_shape.
  destruct advice_distinct as (Hn1 & Hn2 & Hn3 & Hd1 & Hd2 & Hd3).
  rewrite !elem_of_app, !elem_of_if_singleton.
  split; [|split]; intuition congruence.
Qed.

(** X12.  [generateRecommendations] always ends with the three standing
    recommendations, so it returns three to six entries; each of the
    three conditional ones is present exactly when an issue of its kind
    exists, and the one about selectors exactly when the technical
    score is not 100. *)
Theorem recommendations_follow_issues (st : State) :
  let recs := Recommend.generateRecommendations st in
  (3 ≤ length recs ≤ 6)%nat
  ∧ Recommend.defaults `suffix_of` recs
  ∧ (Recommend.content_advice ∈ recs
     ↔ ∃ i, i ∈ issues st ∧ type i = "missing_content"%string)
  ∧ (Recommend.section_advice ∈ recs
     ↔ ∃ i, i ∈ issues st ∧ type i = "missing_section"%string)
  ∧ (Recommend.selector_advice ∈ recs
     ↔ ∃ i, i ∈ issues st ∧ type i = "analysis_error"%string)
  ∧ (Recommend.selector_advice ∈ recs
     ↔ ¬ Num.eq (score (QuickStart.calculateTechnicalScore st)) (Num.of_nat 100)).
Proof.
  intros recs.
  destruct (advice_present st) as (Hc & Hs & He). cbn zeta in *. fold recs in Hc, Hs, He.
  rewrite some_of_type_spec in Hc, Hs, He.
  split.
  { unfold recs. rewrite generateRecommendations_shape.
    repeat destruct (Recommend.some_of_type _ st); simpl; lia. }
  split.
  { unfold recs. rewrite generateRecommendations_shape.
    rewrite !app_assoc. by eexists. }
  split; [exact Hc|]. split; [exact Hs|]. split; [exact He|].
  rewrite He.
  destruct (technical_score_value st) as (q & Hscore & Hq). cbn zeta in Hq.
  rewrite Hscore. cbn [Num.eq Num.of_nat].
  change (inject_Z (Z.of_nat 100)) with (inject_Z 100). rewrite Hq.
  rewrite inject_Z_injective.
  destruct (filter (λ i, type i = "analysis_error"%string) (issues st))
    as [|i errors] eqn:Herrors.
  - split; [|intros Hne; by destruct Hne].
    intros (i & Hin & Htype).
    assert (i ∈ filter (λ i, type i = "analysis_error"%string) (issues st)) as Hi
      by (apply list_elem_of_filter; done).
    rewrite Herrors in Hi. by apply elem_of_nil in Hi.
  - split; [intros _; cbn [length]; lia|]. intros _.
    assert (i ∈ filter (λ i, type i = "analysis_error"%string) (issues st)) as Hi
      by (rewrite Herrors; by left).
    apply list_elem_of_filter in Hi as [Htype Hin]. by exists i.
Qed.

(** ** The design source *)

Lemma dashes_no_space (inRun : bool) (s : jsstring) :
  Forall (λ c, Str.is_space c = false) (Figma.dashes inRun s).
Proof.
  revert inRun. induction s as [|c s IH]; intros inRun; cbn [Figma.dashes]; [done|].
  destruct (Str.is_space c) eqn:Hc.
  - destruct inRun; [apply IH|]. constructor; [by vm_compute | apply IH].
  - constructor; [done | apply IH].
Qed.

Lemma dashes_length (inRun : bool) (s : jsstring) :
  (length (Figma.dashes inRun s) ≤ length s)%nat.
Proof.
  revert inRun. induction s as [|c s IH]; intros inRun; cbn [Figma.dashes length]; [done|].
  destruct (Str.is_space c), inRun; cbn [length];
    try (specialize (IH true); lia); specialize (IH false); lia.
Qed.

Lemma dashes_fixed (s : jsstring) :
  Forall (λ c, Str.is_space c = false) s → Figma.dashes false s = s.
Proof.
  induction 1 as [|c s Hc _ IH]; cbn [Figma.dashes]; [done|].
  by rewrite Hc, IH.
Qed.

Lemma parse_loop_chained (toLowerCase : jsstring → jsstring) (nodes : list Figma.Node)
    (sections : list jsstring) :
  foldl (λ sections section,
           if Figma.is_section section
           then sections ++ [Figma.sectionName toLowerCase section] else sections)
    sections nodes
  = sections ++ (Figma.sectionName toLowerCase <$> List.filter Figma.is_section nodes).
Proof.
  revert sections. induction nodes as [|n nodes IH]; intros sections; cbn [foldl List.filter].
  - by rewrite app_nil_r.
  - rewrite IH. destruct (Figma.is_section n); [|done].
    by rewrite <- app_assoc.
Qed.

(** X13.  [parseFigmaSections] keeps, in document order, the children
    that have a non-empty name and a bounding box, so it returns no
    more names than there are children; every name it returns is free
    of white space (each run of white space has become one dash, and
    dashing a second time changes nothing); and the pushing loop of
    [qa-analyzer.mjs] returns what the [filter] / [map] chain of the
    PDF variant returns. *)
Theorem parseFigmaSections_names (toLowerCase : jsstring → jsstring) (root : Figma.Node) :
  let sections := Figma.parseFigmaSections toLowerCase root in
  sections = Figma.parseFigmaSections_chained toLowerCase root
  ∧ Forall (λ name, Forall (λ c, Str.is_space c = false) name) sections
  ∧ Forall (λ name, Figma.dashify name = name) sections
  ∧ (length sections ≤ length (default [] (Figma.children root)))%nat.
Proof.
  intros sections.
  assert (Hchained : sections = Figma.parseFigmaSections_chained toLowerCase root).
  { unfold sections, Figma.parseFigmaSections, Figma.parseFigmaSections_chained.
    destruct (Figma.children root) as [nodes|]; [|done].
    by rewrite parse_loop_chained. }
  assert (Hclean : Forall (λ name, Forall (λ c, Str.is_space c = false) name) sections).
  { rewrite Hchained. unfold Figma.parseFigmaSections_chained.
    destruct (Figma.children root) as [nodes|]; [|done].
    apply Forall_fmap, Forall_forall. intros n _. apply dashes_no_space. }
  split; [exact Hchained|]. split; [exact Hclean|]. split.
  - eapply Forall_impl; [exact Hclean|]. intros name. apply dashes_fixed.
  - rewrite Hchained. unfold Figma.parseFigmaSections_chained.
    destruct (Figma.children root) as [nodes|]; [|done].
    rewrite length_fmap. cbn [default]. apply filter_length_le.
Qed.

Lemma expected_own (cfg : Analyzer.Config) (pageName : jsstring) (sections : list jsstring) :
  Lookup.expected cfg pageName = PlainObject.own sections →
  sections = Analyzer.expectedFor cfg pageName.
Proof.
  unfold Lookup.expected, Analyzer.expectedFor, PlainObject.get. cbn zeta.
  destruct (decide (pageName ∈ PlainObject.inherited)) as [Hin|Hin];
    destruct (Analyzer.figmaDesignSpecs cfg) as [specs|]; cbn [mbind option_bind];
    try destruct (specs !! pageName) as [l|];
    destruct (Analyzer.defaultSections cfg !! pageName) as [l'|]; cbn [default id];
    congruence.
Qed.

(** For a page name that is no property of [Object.prototype], the
    lookup yields the list of [Analyzer.expectedFor]. *)
Lemma expected_not_inherited (cfg : Analyzer.Config) (pageName : jsstring) :
  pageName ∉ PlainObject.inherited →
  Lookup.expected cfg pageName = PlainObject.own (Analyzer.expectedFor cfg pageName).
Proof.
  intros Hnot.
  unfold Lookup.expected, Analyzer.expectedFor, PlainObject.get. cbn zeta.
  destruct (decide (pageName ∈ PlainObject.inherited)) as [Hin|Hin]; [done|].
  destruct (Analyzer.figmaDesignSpecs cfg) as [specs|]; cbn [mbind option_bind];
    try destruct (specs !! pageName) as [l|];
    destruct (Analyzer.defaultSections cfg !! pageName) as [l'|]; cbn [default id];
    congruence.
Qed.

(** Whenever the call returns, it returns what the loop over the list
    of [Analyzer.expectedFor] leaves. *)
Lemma analyzeSections_returns (cfg : Analyzer.Config) (page : Page)
    (pageName dir : jsstring) (st st' : State) :
  Lookup.analyzeSections cfg page pageName dir st = Ok st' →
  st' = Analyzer.analyzeSections cfg page pageName dir st.
Proof.
  unfold Lookup.analyzeSections, Analyzer.analyzeSections.
  destruct (Lookup.expected cfg pageName) as [sections| |] eqn:Hexpected; [|done..].
  intros [= <-]. by rewrite (expected_own _ _ _ Hexpected).
Qed.

Lemma analyzeSections_defaults (defaults : gmap jsstring (list jsstring)) (page : Page)
    (pageName dir : jsstring) (st : State) :
  let cfg := Analyzer.mkConfig None defaults in
  match defaults !! pageName with
  | Some sections =>
      Lookup.analyzeSections cfg page pageName dir st
      = Ok (foldl (Analyzer.analyzeSection page dir) st sections)
  | None =>
      if decide (pageName ∈ PlainObject.inherited)
      then ∃ message, Lookup.analyzeSections cfg page pageName dir st = Throw message
      else Lookup.analyzeSections cfg page pageName dir st = Ok st
  end.
Proof.
  unfold Lookup.analyzeSections, Lookup.expected, PlainObject.get. cbn zeta.
  cbn [Analyzer.figmaDesignSpecs Analyzer.defaultSections].
  destruct (defaults !! pageName) as [sections|]; [done|].
  destruct (decide _); [by eexists | done].
Qed.

Lemma loadPages_throws (toLowerCase : jsstring → jsstring)
    (nodes : gmap jsstring (option Figma.Node)) (pageIds : list (jsstring * jsstring))
    (specs : gmap jsstring (list jsstring)) (key nodeId : jsstring) :
  (key, nodeId) ∈ pageIds →
  PlainObject.get nodes nodeId = PlainObject.prototype →
  ∃ message, Figma.loadPages toLowerCase nodes specs pageIds = Throw message.
Proof.
  revert specs. induction pageIds as [|entry pageIds IH]; intros specs Hin Hget.
  - by apply elem_of_nil in Hin.
  - cbn [Figma.loadPages]. unfold_result.
    destruct (Figma.loadPage toLowerCase nodes specs entry) as [specs'|m] eqn:Hpage;
      [|by eexists].
    apply elem_of_cons in Hin as [<- | Hin]; [|by apply IH].
    unfold Figma.loadPage in Hpage. cbn [snd] in Hpage. by rewrite Hget in Hpage.
Qed.

Lemma loadPages_ok (toLowerCase : jsstring → jsstring)
    (nodes : gmap jsstring (option Figma.Node)) (pageIds : list (jsstring * jsstring))
    (specs : gmap jsstring (list jsstring)) :
  (∀ key nodeId, (key, nodeId) ∈ pageIds →
     PlainObject.get nodes nodeId ≠ PlainObject.prototype) →
  Figma.loadPages toLowerCase nodes specs pageIds
  = Ok (foldl (Figma.kept toLowerCase nodes) specs pageIds).
Proof.
  revert specs. induction pageIds as [|[key nodeId] pageIds IH]; intros specs Hids; [done|].
  cbn [Figma.loadPages foldl]. unfold_result.
  assert (Hpage : Figma.loadPage toLowerCase nodes specs (key, nodeId)
                  = Ok (Figma.kept toLowerCase nodes specs (key, nodeId))).
  { specialize (Hids key nodeId (list_elem_of_here _ _)).
    unfold Figma.loadPage, Figma.kept, PlainObject.get in *. cbn [fst snd] in *.
    destruct (nodes !! nodeId) as [[node|]|]; [done..|].
    by destruct (decide _). }
  rewrite Hpage. apply IH. intros k n Hin. apply (Hids k n). by right.
Qed.

Lemma kept_lookup_missing (toLowerCase : jsstring → jsstring)
    (nodes : gmap jsstring (option Figma.Node)) (pageIds : list (jsstring * jsstring))
    (specs : gmap jsstring (list jsstring)) (key : jsstring) :
  (∀ nodeId node, (key, nodeId) ∈ pageIds → nodes !! nodeId ≠ Some (Some node)) →
  foldl (Figma.kept toLowerCase nodes) specs pageIds !! key = specs !! key.
Proof.
  revert specs. induction pageIds as [|[k nodeId] pageIds IH]; intros specs Hmissing; [done|].
  cbn [foldl]. rewrite IH.
  - unfold Figma.kept. cbn [fst snd].
    destruct (nodes !! nodeId) as [[node|]|] eqn:Hnode; [|done..].
    destruct (decide (k = key)) as [->|Hne].
    + exfalso. apply (Hmissing nodeId node); [by left | done].
    + by rewrite lookup_insert_ne.
  - intros nodeId' node Hin. apply Hmissing. by right.
Qed.

(** X14.  When the Figma credentials are missing or empty, the page ids
    are not valid JSON, the request fails, or a node id is the name of
    a property of [Object.prototype] (whose value has no document),
    [loadFigmaDesignSpecs] leaves [this.figmaDesignSpecs] null.
    [analyzeSections] then goes by the defaults: for a page with
    default sections it loops over them; for a page without, it does
    nothing, unless the page is named like a property of
    [Object.prototype], in which case it throws. *)
Theorem figma_failure_falls_back_to_defaults (toLowerCase : jsstring → jsstring)
    (env : Figma.Env) (fileNodes : result (gmap jsstring (option Figma.Node)))
    (defaults : gmap jsstring (list jsstring)) :
  Figma.is_set (Figma.FIGMA_TOKEN env) = false
  ∨ Figma.is_set (Figma.FIGMA_FILE_ID env) = false
  ∨ (∃ message, Figma.FIGMA_PAGE_IDS env = Throw message)
  ∨ (∃ message, fileNodes = Throw message)
  ∨ (∃ pageIds nodes key nodeId,
       Figma.FIGMA_PAGE_IDS env = Ok pageIds ∧ fileNodes = Ok nodes
       ∧ (key, nodeId) ∈ pageIds
       ∧ PlainObject.get nodes nodeId = PlainObject.prototype) →
  let cfg :=
    Analyzer.mkConfig (Figma.loadFigmaDesignSpecs toLowerCase env fileNodes) defaults in
  Figma.loadFigmaDesignSpecs toLowerCase env fileNodes = None
  ∧ ∀ (page : Page) (pageName dir : jsstring) (st : State),
      match defaults !! pageName with
      | Some sections =>
          Lookup.analyzeSections cfg page pageName dir st
          = Ok (foldl (Analyzer.analyzeSection page dir) st sections)
      | None =>
          if decide (pageName ∈ PlainObject.inherited)
          then ∃ message, Lookup.analyzeSections cfg page pageName dir st = Throw message
          else Lookup.analyzeSections cfg page pageName dir st = Ok st
      end.
Proof.
  intros Hfail cfg.
  assert (Hnone : Figma.loadFigmaDesignSpecs toLowerCase env fileNodes = None).
  { unfold Figma.loadFigmaDesignSpecs. unfold_result.
    destruct (Figma.is_set (Figma.FIGMA_TOKEN env)); [|done].
    destruct (Figma.is_set (Figma.FIGMA_FILE_ID env)); cbn [negb orb]; [|done].
    destruct Hfail as [?|[?|[[m Hm]|[[m Hm]|Hproto]]]]; try done.
    - by rewrite Hm.
    - rewrite Hm. by destruct (Figma.FIGMA_PAGE_IDS env).
    - destruct Hproto as (pageIds & nodes & key & nodeId & -> & -> & Hin & Hget).
      destruct (loadPages_throws toLowerCase nodes pageIds ∅ key nodeId Hin Hget) as [m Hm].
      by rewrite Hm. }
  split; [exact Hnone|]. intros page pageName dir st.
  unfold cfg. rewrite Hnone. apply analyzeSections_defaults.
Qed.

(** A refused request: the home page is checked against its three
    default sections, a page without defaults against none, and the
    check of a page named [constructor] throws. *)
Lemma figma_failure_falls_back_to_defaults_witness :
  let cfg :=
    Analyzer.mkConfig
      (Figma.loadFigmaDesignSpecs Str.toLowerCase_ascii SampleFigma.env
         (Throw (js "403 Forbidden")))
      (Analyzer.defaultSections Sample.cfg) in
  let page := Sample.allVisible Sample.onePixel in
  let fresh := mkState ∅ [] [] in
  (∃ st, Lookup.analyzeSections cfg page Sample.home (js "screenshots/home") fresh = Ok st
         ∧ name <$> screenshots st = [js "hero"; js "features"; js "footer"])
  ∧ Lookup.analyzeSections cfg page (js "pricing") (js "screenshots/pricing") fresh = Ok fresh
  ∧ ∃ message,
      Lookup.analyzeSections cfg page (js "constructor") (js "screenshots/constructor") fresh
      = Throw message.
Proof.
  intros cfg page fresh.
  destruct (figma_failure_falls_back_to_defaults Str.toLowerCase_ascii SampleFigma.env
              (Throw (js "403 Forbidden")) (Analyzer.defaultSections Sample.cfg))
    as [_ Hcall]; [do 3 right; left; by eexists|].
  split_and!.
  - specialize (Hcall page Sample.home (js "screenshots/home") fresh).
    eexists. split; [exact Hcall|]. by vm_compute.
  - exact (Hcall page (js "pricing") (js "screenshots/pricing") fresh).
  - exact (Hcall page (js "constructor") (js "screenshots/constructor") fresh).
Defined.

(** X15.  When the Figma request succeeds (no page key is [__proto__],
    no node id names a property of [Object.prototype]), a page whose
    node was found is checked against the sections parsed from that
    node and not against its defaults, even when the node yields no
    section at all, in which case [analyzeSections] does nothing.  A
    page with no found node is checked against its defaults (none when
    it has no default), unless it is named like a property of
    [Object.prototype]: then the lookup in the Figma specs answers that
    property and [analyzeSections] throws, whatever the defaults
    hold. *)
Theorem figma_sections_replace_defaults (toLowerCase : jsstring → jsstring)
    (env : Figma.Env) (pageIds : list (jsstring * jsstring))
    (nodes : gmap jsstring (option Figma.Node)) (defaults : gmap jsstring (list jsstring)) :
  Figma.is_set (Figma.FIGMA_TOKEN env) = true →
  Figma.is_set (Figma.FIGMA_FILE_ID env) = true →
  Figma.FIGMA_PAGE_IDS env = Ok pageIds →
  js "__proto__" ∉ pageIds.*1 →
  (∀ key nodeId, (key, nodeId) ∈ pageIds →
     PlainObject.get nodes nodeId ≠ PlainObject.prototype) →
  let cfg :=
    Analyzer.mkConfig (Figma.loadFigmaDesignSpecs toLowerCase env (Ok nodes)) defaults in
  (∀ pre post key nodeId node (page : Page) (dir : jsstring) (st : State),
     pageIds = pre ++ (key, nodeId) :: post →
     (∀ nodeId' node', (key, nodeId') ∈ post → nodes !! nodeId' ≠ Some (Some node')) →
     nodes !! nodeId = Some (Some node) →
     Lookup.analyzeSections cfg page key dir st
     = Ok (foldl (Analyzer.analyzeSection page dir) st
             (Figma.parseFigmaSections toLowerCase node))
     ∧ (Figma.parseFigmaSections toLowerCase node = [] →
        Lookup.analyzeSections cfg page key dir st = Ok st))
  ∧ (∀ pageName (page : Page) (dir : jsstring) (st : State),
       (∀ nodeId node, (pageName, nodeId) ∈ pageIds → nodes !! nodeId ≠ Some (Some node)) →
       if decide (pageName ∈ PlainObject.inherited)
       then ∃ message, Lookup.analyzeSections cfg page pageName dir st = Throw message
       else Lookup.analyzeSections cfg page pageName dir st
            = Ok (foldl (Analyzer.analyzeSection page dir) st
                    (default [] (defaults !! pageName)))).
Proof.
  intros Htoken Hfile Hids _ Hnodes cfg.
  assert (Hload : Figma.loadFigmaDesignSpecs toLowerCase env (Ok nodes)
                  = Some (foldl (Figma.kept toLowerCase nodes) ∅ pageIds)).
  { unfold Figma.loadFigmaDesignSpecs. unfold_result.
    rewrite Htoken, Hfile, Hids. cbn [negb orb].
    by rewrite (loadPages_ok toLowerCase nodes pageIds ∅ Hnodes). }
  split.
  - intros pre post key nodeId node page dir st Hsplit Hpost Hnode.
    assert (Hcall : Lookup.analyzeSections cfg page key dir st
                    = Ok (foldl (Analyzer.analyzeSection page dir) st
                            (Figma.parseFigmaSections toLowerCase node))).
    { unfold Lookup.analyzeSections, Lookup.expected, PlainObject.get, cfg. cbn zeta.
      cbn [Analyzer.figmaDesignSpecs]. rewrite Hload, Hsplit, foldl_app. cbn [foldl].
      rewrite kept_lookup_missing by exact Hpost.
      unfold Figma.kept at 1. cbn [fst snd]. rewrite Hnode. by rewrite lookup_insert_eq. }
    split; [exact Hcall|]. intros Hempty. by rewrite Hcall, Hempty.
  - intros pageName page dir st Hmissing.
    unfold Lookup.analyzeSections, Lookup.expected, PlainObject.get, cfg. cbn zeta.
    cbn [Analyzer.figmaDesignSpecs Analyzer.defaultSections]. rewrite Hload.
    rewrite kept_lookup_missing by exact Hmissing. rewrite lookup_empty.
    destruct (decide (pageName ∈ PlainObject.inherited)); [by eexists|].
    by destruct (defaults !! pageName).
Qed.

(** The sample file: the home page has two frames, the page [about]
    none, the node of [contact] is not in the file, and no page is
    named [toString]. *)
Lemma figma_sections_replace_defaults_witness :
  let cfg :=
    Analyzer.mkConfig
      (Figma.loadFigmaDesignSpecs Str.toLowerCase_ascii SampleFigma.env (Ok SampleFigma.nodes))
      (Analyzer.defaultSections Sample.cfg) in
  let page := Sample.allVisible Sample.onePixel in
  let fresh := mkState ∅ [] [] in
  (∃ st, Lookup.analyzeSections cfg page (js "home") (js "screenshots/home") fresh = Ok st
         ∧ name <$> screenshots st = [js "hero-banner"; js "trust-logos"])
  ∧ Lookup.analyzeSections cfg page (js "about") (js "screenshots/about") fresh = Ok fresh
  ∧ (∃ st, Lookup.analyzeSections cfg page (js "contact") (js "screenshots/contact") fresh = Ok st
           ∧ name <$> screenshots st = [js "form"; js "location"; js "footer"])
  ∧ ∃ message,
      Lookup.analyzeSections cfg page (js "toString") (js "screenshots/toString") fresh
      = Throw message.
Proof.
  intros cfg page fresh.
  destruct (figma_sections_replace_defaults Str.toLowerCase_ascii SampleFigma.env
              [(js "home", js "1:2"); (js "about", js "1:3"); (js "contact", js "9:9")]
              SampleFigma.nodes (Analyzer.defaultSections Sample.cfg)
              eq_refl eq_refl eq_refl) as [Hfound Hmissing].
  { apply (bool_decide_unpack _). by vm_compute. }
  { intros key nodeId. rewrite !elem_of_cons, elem_of_nil.
    intros [H|[H|[H|[]]]]; injection H as -> ->; by vm_compute. }
  split_and!.
  - destruct (Hfound [] [(js "about", js "1:3"); (js "contact", js "9:9")]
                (js "home") (js "1:2") SampleFigma.homeDocument page
                (js "screenshots/home") fresh) as [H _];
      [reflexivity | | by vm_compute | ].
    + intros nodeId' node'. rewrite !elem_of_cons, elem_of_nil.
      intros [H|[H|[]]]; discriminate H.
    + eexists. split; [exact H|]. by vm_compute.
  - destruct (Hfound [(js "home", js "1:2")] [(js "contact", js "9:9")]
                (js "about") (js "1:3") SampleFigma.emptyDocument page
                (js "screenshots/about") fresh) as [_ H];
      [reflexivity | | by vm_compute | ].
    + intros nodeId' node'. rewrite !elem_of_cons, elem_of_nil.
      intros [H|[]]; discriminate H.
    + apply H. by vm_compute.
  - specialize (Hmissing (js "contact") page (js "screenshots/contact") fresh).
    eexists. split; [apply Hmissing|by vm_compute].
    intros nodeId node. rewrite !elem_of_cons, elem_of_nil.
    intros [H|[H|[H|[]]]]; try discriminate H.
    injection H as ->. by vm_compute.
  - apply (Hmissing (js "toString") page (js "screenshots/toString") fresh).
    intros nodeId node. rewrite !elem_of_cons, elem_of_nil.
    intros [H|[H|[H|[]]]]; discriminate H.
Defined.

(** ** The enhanced variant: sizes *)

Lemma pow2_pos (e : Z) : 0 < Double.pow2 e.
Proof.
  unfold Double.pow2. destruct (0 <=? e)%Z eqn:He.
  - apply Z.leb_le in He. change 0 with (inject_Z 0). rewrite <- Zlt_Qlt.
    by apply Z.pow_pos_nonneg.
  - apply Z.leb_gt in He. apply Qinv_lt_0_compat.
    change 0 with (inject_Z 0). rewrite <- Zlt_Qlt. apply Z.pow_pos_nonneg; lia.
Qed.

(** A power of two is an integer number of units of any lower power. *)
Lemma pow2_split (k e : Z) :
  (0 <= k)%Z → (e <= k)%Z →
  inject_Z (2 ^ k) == inject_Z (2 ^ (k - e)) * Double.pow2 e.
Proof.
  intros Hk He. unfold Double.pow2. destruct (0 <=? e)%Z eqn:Hsign.
  - apply Z.leb_le in Hsign. rewrite <- inject_Z_mult, <- Z.pow_add_r by lia.
    by replace (k - e + e)%Z with k by lia.
  - apply Z.leb_gt in Hsign.
    replace (k - e)%Z with (k + - e)%Z by lia. rewrite Z.pow_add_r by lia.
    rewrite inject_Z_mult.
    assert (Hpos : 0 < inject_Z (2 ^ (- e))).
    { change 0 with (inject_Z 0). rewrite <- Zlt_Qlt. apply Z.pow_pos_nonneg; lia. }
    field. intros Hzero. rewrite Hzero in Hpos. by apply Qlt_irrefl in Hpos.
Qed.

Lemma floor_bounds (q : Q) :
  inject_Z (Qfloor q) <= q ∧ q < inject_Z (Qfloor q) + 1.
Proof.
  split; [apply Qfloor_le|].
  change 1 with (inject_Z 1). rewrite <- inject_Z_plus. apply Qlt_floor.
Qed.

Lemma floor_ge (q : Q) (n : Z) : inject_Z n <= q → (n <= Qfloor q)%Z.
Proof.
  intros Hle. rewrite <- (Qfloor_Z n). by apply Qfloor_resp_le.
Qed.

Lemma floor_lt (q : Q) (n : Z) : q < inject_Z n → (Qfloor q < n)%Z.
Proof.
  intros Hlt. rewrite Zlt_Qlt. eapply Qle_lt_trans; [apply Qfloor_le | done].
Qed.

Lemma nearest_even_cases (q : Q) :
  let f := Qfloor q in
  (Double.nearest_even q = f ∧ q - inject_Z f <= 1 # 2)
  ∨ (Double.nearest_even q = (f + 1)%Z ∧ 1 # 2 <= q - inject_Z f).
Proof.
  cbn zeta. unfold Double.nearest_even. cbn zeta.
  destruct (Qcompare_spec (q - inject_Z (Qfloor q)) (1 # 2)) as [Heq|Hlt|Hgt].
  - destruct (Z.even _); [left | right]; (split; [done|]); rewrite Heq; apply Qle_refl.
  - left. split; [done|]. by apply Qlt_le_weak.
  - right. split; [done|]. by apply Qlt_le_weak.
Qed.

Lemma nearest_even_le (q : Q) (n : Z) : q <= inject_Z n → (Double.nearest_even q <= n)%Z.
Proof.
  intros Hle. destruct (floor_bounds q) as [Hlo Hhi].
  destruct (nearest_even_cases q) as [[-> _] | [-> Hhalf]].
  - rewrite Zle_Qle. by eapply Qle_trans.
  - assert (Hlt : (Qfloor q < n)%Z).
    { rewrite Zlt_Qlt. lra. }
    lia.
Qed.

Lemma nearest_even_ge (q : Q) (n : Z) : inject_Z n <= q → (n <= Double.nearest_even q)%Z.
Proof.
  intros Hle. apply floor_ge in Hle.
  destruct (nearest_even_cases q) as [[-> _] | [-> _]]; lia.
Qed.

Lemma nearest_even_above_even (q : Q) (n : Z) :
  Z.even n = true →
  (n < Double.nearest_even q)%Z ↔ inject_Z n + (1 # 2) < q.
Proof.
  intros Heven. destruct (floor_bounds q) as [Hlo Hhi]. split.
  - intros Hlt.
    destruct (Z.lt_trichotomy (Qfloor q) n) as [Hf | [Hf | Hf]].
    + exfalso. destruct (nearest_even_cases q) as [[Heq _] | [Heq _]]; lia.
    + unfold Double.nearest_even in Hlt. cbn zeta in Hlt. rewrite Hf in *.
      destruct (Qcompare_spec (q - inject_Z n) (1 # 2)) as [Heq|Hlt'|Hgt].
      * rewrite Heven in Hlt. lia.
      * lia.
      * lra.
    + assert (inject_Z n + 1 <= inject_Z (Qfloor q)).
      { change 1 with (inject_Z 1). rewrite <- inject_Z_plus, <- Zle_Qle. lia. }
      lra.
  - intros Hlt.
    assert (Hn : (n <= Qfloor q)%Z) by (apply floor_ge; lra).
    destruct (Z.eq_dec (Qfloor q) n) as [Hf|Hf].
    + unfold Double.nearest_even. cbn zeta. rewrite Hf in *.
      destruct (Qcompare_spec (q - inject_Z n) (1 # 2)) as [Heq|Hlt'|Hgt]; [lra | lra | lia].
    + destruct (nearest_even_cases q) as [[-> _] | [-> _]]; lia.
Qed.

Lemma round_magnitude_nonneg (y : Q) : 0 <= y → 0 <= Double.round_magnitude y.
Proof.
  intros Hy. unfold Double.round_magnitude. cbn zeta.
  set (e := Double.ulp_exponent y). pose proof (pow2_pos e) as Hpos.
  apply Qmult_le_0_compat; [|by apply Qlt_le_weak].
  change 0 with (inject_Z 0). rewrite <- Zle_Qle. apply nearest_even_ge.
  change (inject_Z 0) with 0. apply Qle_shift_div_l; [done|]. lra.
Qed.

(** Rounding does not cross a number that is a whole number of units
    of the last place. *)
Lemma round_magnitude_le (y : Q) (n : Z) :
  y <= inject_Z n * Double.pow2 (Double.ulp_exponent y) →
  Double.round_magnitude y <= inject_Z n * Double.pow2 (Double.ulp_exponent y).
Proof.
  intros Hle. unfold Double.round_magnitude. cbn zeta.
  set (e := Double.ulp_exponent y) in *. pose proof (pow2_pos e) as Hpos.
  apply Qmult_le_compat_r; [|by apply Qlt_le_weak].
  rewrite <- Zle_Qle. apply nearest_even_le. by apply Qle_shift_div_r.
Qed.

Lemma round_magnitude_ge (y : Q) (n : Z) :
  inject_Z n * Double.pow2 (Double.ulp_exponent y) <= y →
  inject_Z n * Double.pow2 (Double.ulp_exponent y) <= Double.round_magnitude y.
Proof.
  intros Hle. unfold Double.round_magnitude. cbn zeta.
  set (e := Double.ulp_exponent y) in *. pose proof (pow2_pos e) as Hpos.
  apply Qmult_le_compat_r; [|by apply Qlt_le_weak].
  rewrite <- Zle_Qle. apply nearest_even_ge. by apply Qle_shift_div_l.
Qed.

Lemma floor_log2_below (y : Q) : y < 8 → (Double.floor_log2 y <= 2)%Z.
Proof.
  intros Hy. unfold Double.floor_log2. destruct (Qle_bool 1 y).
  - assert (Hf : (Qfloor y <= 7)%Z).
    { assert (Qfloor y < 8)%Z by (by apply floor_lt). lia. }
    apply Z.log2_le_mono in Hf. by vm_compute in Hf |- *.
  - pose proof (Z.log2_up_nonneg (Qceiling (/ y))). lia.
Qed.

Lemma floor_log2_from_one (y : Q) : 1 <= y → Double.floor_log2 y = Z.log2 (Qfloor y).
Proof.
  intros Hy. unfold Double.floor_log2.
  by rewrite (proj2 (Qle_bool_iff 1 y) Hy).
Qed.

Lemma round_magnitude_below (y : Q) : y < 8 → Double.round_magnitude y <= 8.
Proof.
  intros Hy.
  assert (He : (Double.ulp_exponent y <= 3)%Z).
  { unfold Double.ulp_exponent. pose proof (floor_log2_below y Hy). lia. }
  pose proof (pow2_split 3 (Double.ulp_exponent y) ltac:(lia) He) as Hsplit.
  change (inject_Z (2 ^ 3)) with 8 in Hsplit.
  rewrite Hsplit. apply round_magnitude_le. rewrite <- Hsplit. by apply Qlt_le_weak.
Qed.

Lemma round_magnitude_above (y : Q) : 16 <= y → 16 <= Double.round_magnitude y.
Proof.
  intros Hy.
  assert (Hf : (16 <= Qfloor y)%Z) by (by apply floor_ge).
  assert (Hlog : (4 <= Z.log2 (Qfloor y))%Z).
  { apply Z.log2_le_mono in Hf. by vm_compute in Hf |- *. }
  assert (He : Double.ulp_exponent y = (Z.log2 (Qfloor y) - 52)%Z).
  { unfold Double.ulp_exponent. rewrite floor_log2_from_one by lra. lia. }
  pose proof (pow2_split (Z.log2 (Qfloor y)) (Double.ulp_exponent y) ltac:(lia) ltac:(lia))
    as Hsplit.
  replace (Z.log2 (Qfloor y) - Double.ulp_exponent y)%Z with 52%Z in Hsplit by lia.
  assert (Hpow : (2 ^ 4 <= 2 ^ Z.log2 (Qfloor y))%Z) by (apply Z.pow_le_mono_r; lia).
  assert (Hspec : (2 ^ Z.log2 (Qfloor y) <= Qfloor y)%Z) by (apply Z.log2_spec; lia).
  apply Qle_trans with (inject_Z (2 ^ Z.log2 (Qfloor y))).
  - change 16 with (inject_Z (2 ^ 4)). by rewrite <- Zle_Qle.
  - rewrite Hsplit. apply round_magnitude_ge. rewrite <- Hsplit.
    apply Qle_trans with (inject_Z (Qfloor y)); [by rewrite <- Zle_Qle | apply Qfloor_le].
Qed.

Lemma round_magnitude_between (y : Q) :
  8 <= y → y < 16 →
  10 < Double.round_magnitude y ↔ 10 + Double.pow2 (-50) < y.
Proof.
  intros Hlo Hhi.
  assert (Hf : (8 <= Qfloor y < 16)%Z).
  { split; [by apply floor_ge | by apply floor_lt]. }
  assert (Hlog : Z.log2 (Qfloor y) = 3%Z).
  { apply Z.log2_unique; [lia|]. change (2 ^ 3)%Z with 8%Z. change (2 ^ Z.succ 3)%Z with 16%Z.
    lia. }
  assert (He : Double.ulp_exponent y = (-49)%Z).
  { unfold Double.ulp_exponent. rewrite floor_log2_from_one by lra. rewrite Hlog. done. }
  unfold Double.round_magnitude. cbn zeta. rewrite He.
  assert (Hunit : Double.pow2 (-49) = 1 # 562949953421312) by (vm_compute; reflexivity).
  assert (Hhalf : Double.pow2 (-50) = 1 # 1125899906842624) by (vm_compute; reflexivity).
  rewrite Hunit, Hhalf.
  assert (Hscale : y / (1 # 562949953421312) == y * (562949953421312 # 1)).
  { unfold Qdiv. apply Qmult_comp; [reflexivity | by vm_compute]. }
  set (m := Double.nearest_even (y / (1 # 562949953421312))).
  pose proof (nearest_even_above_even (y / (1 # 562949953421312)) 5629499534213120 eq_refl)
    as Hround.
  fold m in Hround. rewrite Zlt_Qlt in Hround.
  change (inject_Z 5629499534213120) with (5629499534213120 # 1) in Hround.
  assert (Hiff : (5629499534213120 # 1) + (1 # 2) < y / (1 # 562949953421312)
                 ↔ (5629499534213120 # 1) + (1 # 2) < y * (562949953421312 # 1))
    by (by rewrite Hscale).
  rewrite Hiff in Hround. clear Hiff Hscale.
  split; intros Hgt.
  - assert (H : 5629499534213120 # 1 < inject_Z m) by lra.
    apply Hround in H. lra.
  - assert (H : (5629499534213120 # 1) + (1 # 2) < y * (562949953421312 # 1)) by lra.
    apply Hround in H. lra.
Qed.

(** The rounded magnitude is above 10 exactly when the magnitude is
    above the midpoint between 10 and the next binary64 number. *)
Lemma round_magnitude_above_ten (y : Q) :
  0 < y → 10 < Double.round_magnitude y ↔ 10 + Double.pow2 (-50) < y.
Proof.
  intros Hy.
  assert (Hedge : 10 + Double.pow2 (-50) < 16 ∧ 8 < 10 + Double.pow2 (-50))
    by (split; by vm_compute).
  destruct (Qlt_le_dec y 8) as [Hlow|Hlow].
  - pose proof (round_magnitude_below y Hlow). split; intros; lra.
  - destruct (Qlt_le_dec y 16) as [Hmid|Hhigh].
    + by apply round_magnitude_between.
    + pose proof (round_magnitude_above y Hhigh). split; intros; lra.
Qed.

Lemma gtb_abs_fin (p : Q) :
  Num_gtb (Num_abs (Fin p)) (Num.of_nat 10) = true ↔ 10 < Qabs p.
Proof.
  cbn [Num_abs Num_gtb Num.of_nat].
  rewrite negb_true_iff, <- not_true_iff_false, Qle_bool_iff, Qred_correct.
  change (inject_Z (Z.of_nat 10)) with 10. split.
  - apply Qnot_le_lt.
  - intros Hlt Hle. apply (Qlt_not_le _ _ Hlt Hle).
Qed.

(** The magnitude of a rounded number is above 10 exactly when the
    magnitude of the number is above [10 + 2^-50]. *)
Lemma gtb_abs_round (d : Q) :
  Num_gtb (Num_abs (Double.round d)) (Num.of_nat 10) = true
  ↔ 10 + Double.pow2 (-50) < Qabs d.
Proof.
  assert (Hhuge : 10 < Double.pow2 1024) by (by vm_compute).
  assert (Hedge : 0 < 10 + Double.pow2 (-50)) by (by vm_compute).
  unfold Double.round. destruct (Qcompare d 0) eqn:Hsign.
  - apply Qeq_alt in Hsign. rewrite gtb_abs_fin.
    rewrite (Qabs_wd _ _ Hsign). change (Qabs 0) with 0. split; intros; lra.
  - apply Qlt_alt in Hsign. cbn zeta.
    assert (Hpos : 0 < - d) by lra.
    pose proof (round_magnitude_above_ten (- d) Hpos) as Hround.
    pose proof (round_magnitude_nonneg (- d) ltac:(lra)) as Hnonneg.
    rewrite (Qabs_neg d) by lra.
    destruct (Qle_bool (Double.pow2 1024) (Double.round_magnitude (- d))) eqn:Hbig.
    + apply Qle_bool_iff in Hbig. split; [|done]. intros _. apply Hround. lra.
    + rewrite gtb_abs_fin, (Qabs_wd _ _ (Qred_correct _)), Qabs_opp.
      by rewrite (Qabs_pos _ Hnonneg).
  - apply Qgt_alt in Hsign. cbn zeta.
    pose proof (round_magnitude_above_ten d Hsign) as Hround.
    pose proof (round_magnitude_nonneg d ltac:(lra)) as Hnonneg.
    rewrite (Qabs_pos d) by lra.
    destruct (Qle_bool (Double.pow2 1024) (Double.round_magnitude d)) eqn:Hbig.
    + apply Qle_bool_iff in Hbig. split; [|done]. intros _. apply Hround. lra.
    + rewrite gtb_abs_fin, (Qabs_wd _ _ (Qred_correct _)).
      by rewrite (Qabs_pos _ Hnonneg).
Qed.

Lemma gtb_abs_sub (a s : Q) :
  Num_gtb (Num_abs (Double.sub (Fin a) (Fin s))) (Num.of_nat 10) = true
  ↔ 10 + Double.pow2 (-50) < Qabs (a - s).
Proof. apply gtb_abs_round. Qed.

Lemma gtb_abs_sub_false (a s : Q) :
  Num_gtb (Num_abs (Double.sub (Fin a) (Fin s))) (Num.of_nat 10) = false
  ↔ Qabs (a - s) <= 10 + Double.pow2 (-50).
Proof.
  rewrite <- not_true_iff_false, gtb_abs_sub. split.
  - apply Qnot_lt_le.
  - intros Hle Hlt. apply (Qlt_not_le _ _ Hlt Hle).
Qed.

(** X16.  [validateComponentAgainstFigma] compares the element's
    bounding box with the Figma size, width first, then height.  The
    difference is a binary64 difference, rounded to the nearest: a
    dimension adds a [size_mismatch] issue (with the expected and the
    actual value) exactly when the two sizes are more than
    [10 + 2^-50] apart, the midpoint between 10 and the next binary64
    number.  So sizes exactly 10 apart pass, and so do sizes whose
    difference rounds down to 10; an element without a bounding box
    adds nothing. *)
Theorem size_mismatch_beyond_ten
    (sw sh aw ah : Q) (componentName : jsstring) (st : EnhancedRun.EState) :
  let figmaSpec := Figma.mkBox (Fin sw) (Fin sh) in
  let actualSize := Figma.mkBox (Fin aw) (Fin ah) in
  let width := EnhancedRun.size_mismatch componentName (js "width") (Fin sw) (Fin aw) in
  let height := EnhancedRun.size_mismatch componentName (js "height") (Fin sh) (Fin ah) in
  let edge := 10 + Double.pow2 (-50) in
  (∃ ws hs,
     EnhancedRun.validateComponentAgainstFigma figmaSpec (Ok (Some actualSize)) componentName st
     = Ok (EnhancedRun.mkEState (EnhancedRun.efs st) (EnhancedRun.eissues st ++ ws ++ hs)
             (EnhancedRun.escreenshots st))
     ∧ (ws = [width] ↔ edge < Qabs (aw - sw)) ∧ (ws = [] ↔ Qabs (aw - sw) <= edge)
     ∧ (hs = [height] ↔ edge < Qabs (ah - sh)) ∧ (hs = [] ↔ Qabs (ah - sh) <= edge))
  ∧ EnhancedRun.validateComponentAgainstFigma figmaSpec (Ok None) componentName st = Ok st.
Proof.
  intros figmaSpec actualSize width height edge. split; [|done].
  unfold EnhancedRun.validateComponentAgainstFigma. unfold_result.
  cbn [Figma.box_width Figma.box_height figmaSpec actualSize].
  exists (if Num_gtb (Num_abs (Double.sub (Fin aw) (Fin sw))) (Num.of_nat 10)
          then [width] else []),
         (if Num_gtb (Num_abs (Double.sub (Fin ah) (Fin sh))) (Num.of_nat 10)
          then [height] else []).
  split.
  - destruct st as [files found shots].
    destruct (Num_gtb (Num_abs (Double.sub (Fin aw) (Fin sw))) _),
             (Num_gtb (Num_abs (Double.sub (Fin ah) (Fin sh))) _);
      unfold EnhancedRun.epush_issue; cbn [EnhancedRun.efs EnhancedRun.eissues
                                             EnhancedRun.escreenshots];
      by rewrite <- ?app_assoc, ?app_nil_r.
  - unfold edge. rewrite <- !gtb_abs_sub, <- !gtb_abs_sub_false.
    destruct (Num_gtb (Num_abs (Double.sub (Fin aw) (Fin sw))) _),
             (Num_gtb (Num_abs (Double.sub (Fin ah) (Fin sh))) _);
      split_and!; split; done.
Qed.

(** The model's subtraction is the kernel's binary64 subtraction on the
    sample pairs. *)
Example sub_agrees_with_kernel :
  Forall (λ '(x, y), Double.of_float (x - y)%float
                     = Double.sub (Double.of_float x) (Double.of_float y))
    Double.samples.
Proof. repeat constructor; vm_compute; reflexivity. Qed.

(** An element 12.3 wide against a Figma width of 2.3, both as the
    binary64 numbers these literals denote: the exact difference is
    [10 + 2^-50], the computed one is 10, and no issue is added; one
    unit in the last place more, and the width is reported. *)
Example size_mismatch_at_the_edge :
  let wide := Double.of_float 0x1.899999999999ap+3 in
  let wider := Double.of_float 0x1.899999999999bp+3 in
  let narrow := Double.of_float 0x1.2666666666666p+1 in
  let fresh := EnhancedRun.mkEState ∅ [] [] in
  Num.sub wide narrow = Fin (10 + Double.pow2 (-50))
  ∧ Double.sub wide narrow = Fin 10
  ∧ Double.of_float (0x1.899999999999ap+3 - 0x1.2666666666666p+1) = Fin 10
  ∧ EnhancedRun.validateComponentAgainstFigma (Figma.mkBox narrow narrow)
      (Ok (Some (Figma.mkBox wide wide))) (js "hero") fresh = Ok fresh
  ∧ EnhancedRun.validateComponentAgainstFigma (Figma.mkBox narrow narrow)
      (Ok (Some (Figma.mkBox wider wide))) (js "hero") fresh
    = Ok (EnhancedRun.mkEState ∅
            [EnhancedRun.size_mismatch (js "hero") (js "width") narrow wider] []).
Proof. split_and!; vm_compute; reflexivity. Qed.

(** ** The enhanced variant: colours *)

Lemma toHex_bytes :
  forallb (λ n, let hex := Hex.of_Z (Z.of_nat n) in
                let padded := if decide (length hex = 1%nat) then js "0" ++ hex else hex in
                (length padded =? 2)%nat && forallb Hex.is_hex padded)
    (seq 0 256) = true.
Proof. by vm_compute. Qed.

Lemma toHex_byte (n : nat) :
  (n < 256)%nat →
  let hex := Hex.of_Z (Z.of_nat n) in
  let padded := if decide (length hex = 1%nat) then js "0" ++ hex else hex in
  length padded = 2%nat ∧ forallb Hex.is_hex padded = true.
Proof.
  intros Hn. pose proof toHex_bytes as Hall.
  rewrite forallb_forall in Hall. specialize (Hall n).
  cbn zeta in *. rewrite andb_true_iff, Nat.eqb_eq in Hall.
  apply Hall. apply in_seq. lia.
Qed.

Lemma round_channel (v : Q) :
  0 <= v → v <= 1 →
  ∃ n, (n < 256)%nat
    ∧ Num_round (Num.mul (Fin v) (Num.of_nat 255)) = Fin (inject_Z (Z.of_nat n)).
Proof.
  intros H0 H1. cbn [Num.mul Num_round Num.of_nat].
  set (z := Qfloor _).
  assert (Hz : (0 ≤ z ∧ z ≤ 255)%Z).
  { unfold z. split.
    - change 0%Z with (Qfloor 0). apply Qfloor_resp_le.
      rewrite Qred_correct. change (inject_Z (Z.of_nat 255)) with 255. lra.
    - change 255%Z with (Qfloor (255 + (1 # 2))). apply Qfloor_resp_le.
      rewrite Qred_correct. change (inject_Z (Z.of_nat 255)) with 255. lra. }
  exists (Z.to_nat z). split; [lia|]. by rewrite Z2Nat.id by lia.
Qed.

Lemma toHex_channel (v : Q) :
  0 <= v → v <= 1 →
  length (Hex.toHex (Fin v)) = 2%nat ∧ forallb Hex.is_hex (Hex.toHex (Fin v)) = true.
Proof.
  intros H0 H1. destruct (round_channel v H0 H1) as (n & Hn & Hround).
  unfold Hex.toHex. rewrite Hround. cbn [Hex.toString16].
  rewrite Qfloor_Z. apply (toHex_byte n Hn).
Qed.

(** X17.  For colour channels between 0 and 1, [rgbToHex] returns a
    well-formed colour: a [#] followed by six characters of [0-9a-f],
    two per channel. *)
Theorem rgbToHex_well_formed (r g b : Q) :
  0 <= r <= 1 → 0 <= g <= 1 → 0 <= b <= 1 →
  ∃ digits,
    Hex.rgbToHex (Fin r) (Fin g) (Fin b) = js "#" ++ digits
    ∧ length digits = 6%nat
    ∧ forallb Hex.is_hex digits = true.
Proof.
  intros [Hr0 Hr1] [Hg0 Hg1] [Hb0 Hb1].
  destruct (toHex_channel r Hr0 Hr1) as [Hrl Hrh].
  destruct (toHex_channel g Hg0 Hg1) as [Hgl Hgh].
  destruct (toHex_channel b Hb0 Hb1) as [Hbl Hbh].
  exists (Hex.toHex (Fin r) ++ Hex.toHex (Fin g) ++ Hex.toHex (Fin b)).
  split; [reflexivity|]. split.
  - rewrite !length_app. lia.
  - by rewrite !forallb_app, Hrh, Hgh, Hbh.
Qed.

(** The channels of the first default colour. *)
Lemma rgbToHex_well_formed_witness :
  ∃ digits,
    Hex.rgbToHex (Fin (26 # 255)) (Fin (74 # 255)) (Fin (71 # 255)) = js "#" ++ digits
    ∧ length digits = 6%nat
    ∧ forallb Hex.is_hex digits = true.
Proof. apply rgbToHex_well_formed; split; by vm_compute. Defined.

Example rgbToHex_default_colour :
  Hex.rgbToHex (Fin (26 # 255)) (Fin (74 # 255)) (Fin (71 # 255)) = js "#1a4a47"
  ∧ Hex.rgbToHex (Fin 1) (Fin (3 # 10)) (Fin 0) = js "#ff4d00".
Proof. split; by vm_compute. Qed.

(** ** The enhanced variant: visual compliance over a run *)

Lemma validateComponentAgainstFigma_screenshots (figmaSpec : Figma.BoundingBox)
    (boundingBox : result (option Figma.BoundingBox)) (componentName : jsstring)
    (st st' : EnhancedRun.EState) :
  EnhancedRun.validateComponentAgainstFigma figmaSpec boundingBox componentName st = Ok st' →
  EnhancedRun.escreenshots st' = EnhancedRun.escreenshots st.
Proof.
  unfold EnhancedRun.validateComponentAgainstFigma. unfold_result.
  destruct boundingBox as [[actual|]|m]; [|by intros [= <-]|done].
  cbn zeta. intros [= <-].
  by repeat destruct (Num_gtb _ _).
Qed.

Lemma enhanced_section_screenshots (page : Page)
    (boundingBox : jsstring → result (option Figma.BoundingBox))
    (figma : option EnhancedRun.FigmaSpecs) (st : EnhancedRun.EState)
    (name selector : jsstring) :
  ∃ captured : bool,
    EnhancedRun.escreenshots
      (EnhancedRun.analyzeViewportSection page boundingBox figma st (name, selector))
    = EnhancedRun.escreenshots st
      ++ (if captured
          then [mkScreenshot name (EnhancedRun.sectionPath name) (Some true)] else []).
Proof.
  unfold EnhancedRun.analyzeViewportSection.
  destruct (isVisible page selector) as [[|]|m];
    [|exists false; simpl; by rewrite app_nil_r..].
  destruct (elementScreenshot page selector) as [img|m];
    [|exists false; simpl; by rewrite app_nil_r].
  destruct (figma ≫= _) as [figmaSpec|].
  - destruct (EnhancedRun.validateComponentAgainstFigma _ _ _ _) as [st'|m] eqn:Hcheck.
    + apply validateComponentAgainstFigma_screenshots in Hcheck.
      exists true. simpl. by rewrite Hcheck.
    + exists false. simpl. by rewrite app_nil_r.
  - by exists true.
Qed.

Lemma enhanced_sections_screenshots (page : Page)
    (boundingBox : jsstring → result (option Figma.BoundingBox))
    (figma : option EnhancedRun.FigmaSpecs) (rules : list (jsstring * jsstring))
    (st : EnhancedRun.EState) :
  ∃ captured : list bool,
    length captured = length rules
    ∧ EnhancedRun.escreenshots
        (foldl (EnhancedRun.analyzeViewportSection page boundingBox figma) st rules)
      = EnhancedRun.escreenshots st
        ++ concat (zip_with
                     (λ (b : bool) rule,
                        if b then [mkScreenshot rule.1 (EnhancedRun.sectionPath rule.1)
                                     (Some true)]
                        else [])
                     captured rules).
Proof.
  revert st. induction rules as [|[name selector] rules IH]; intros st.
  - exists []. simpl. by rewrite app_nil_r.
  - cbn [foldl].
    destruct (IH (EnhancedRun.analyzeViewportSection page boundingBox figma st
                    (name, selector))) as (bs & Hlen & Hshots).
    destruct (enhanced_section_screenshots page boundingBox figma st name selector)
      as [b Hb].
    exists (b :: bs). split; [simpl; lia|].
    rewrite Hshots, Hb. cbn [zip_with concat fst]. by rewrite <- app_assoc.
Qed.

Lemma enhanced_checkResponsiveDesign_screenshots (shot : jsstring → result bytes)
    (vps : list jsstring) (st st' : EnhancedRun.EState) :
  EnhancedRun.checkResponsiveDesign shot vps st = Ok st' →
  EnhancedRun.escreenshots st'
  = EnhancedRun.escreenshots st
    ++ ((λ v, mkScreenshot (js "responsive-" ++ v) (QuickStart.responsivePath v) None) <$> vps).
Proof.
  revert st. induction vps as [|v vps IH]; intros st.
  - simpl. intros [= <-]. by rewrite app_nil_r.
  - cbn [EnhancedRun.checkResponsiveDesign]. unfold_result.
    destruct (shot v) as [img|m]; [|done]. intros Hrest.
    rewrite (IH _ Hrest). simpl. by rewrite <- app_assoc.
Qed.

(** X18.  In the enhanced variant a completed visual analysis scores
    0, 20, 40 or 60 for visual compliance and is never [GOOD]: of the
    five names it screenshots, only [hero], [features] and [footer]
    are among the five expected sections. *)
Theorem enhanced_visual_score_at_most_60 (page : Page)
    (boundingBox : jsstring → result (option Figma.BoundingBox))
    (figma : option EnhancedRun.FigmaSpecs) (shot : jsstring → result bytes)
    (files : gmap jsstring bytes) (st' : EnhancedRun.EState) :
  EnhancedRun.performVisualAnalysis page boundingBox figma shot
    (EnhancedRun.mkEState files [] []) = Ok st' →
  let a := Enhanced.assessVisualCompliance Enhanced.defaultDesignSpecs
             (EnhancedRun.view st') in
  (score a = Fin 0 ∨ score a = Fin 20 ∨ score a = Fin 40 ∨ score a = Fin 60)
  ∧ tier_of a ≠ GOOD
  ∧ Spec.in_bounds a.
Proof.
  unfold EnhancedRun.performVisualAnalysis. unfold_result.
  destruct (screenshot page) as [img|m]; [|done]. intros Hrun.
  apply enhanced_checkResponsiveDesign_screenshots in Hrun.
  unfold EnhancedRun.analyzeViewportSections in Hrun.
  match type of Hrun with
  | context [foldl _ ?st EnhancedRun.sections] =>
      destruct (enhanced_sections_screenshots page boundingBox figma EnhancedRun.sections st)
        as (captured & Hlen & Hshots)
  end.
  rewrite Hshots in Hrun. clear Hshots.
  cbn [EnhancedRun.escreenshots EnhancedRun.epush_screenshot EnhancedRun.ewriteFile] in Hrun.
  unfold Enhanced.assessVisualCompliance, Spec.in_bounds. cbn [score tier_of].
  cbn [screenshots EnhancedRun.view]. rewrite Hrun. clear Hrun.
  destruct captured as [|b1 [|b2 [|b3 [|b4 [|b5 [|]]]]]]; try discriminate Hlen.
  clear Hlen.
  destruct b1, b2, b3, b4, b5;
    (split; [vm_compute; tauto|]); (split; [by vm_compute|]);
    split; by vm_compute.
Qed.

Lemma enhanced_visual_score_at_most_60_witness :
  match EnhancedRun.performVisualAnalysis (Sample.allVisible Sample.onePixel)
          (λ _, Ok None) None Sample.shot (EnhancedRun.mkEState ∅ [] []) with
  | Ok st' =>
      tier_of (Enhanced.assessVisualCompliance Enhanced.defaultDesignSpecs
                 (EnhancedRun.view st')) ≠ GOOD
  | Throw _ => False
  end.
Proof.
  assert (Hok : match EnhancedRun.performVisualAnalysis (Sample.allVisible Sample.onePixel)
                         (λ _, Ok None) None Sample.shot (EnhancedRun.mkEState ∅ [] []) with
                 | Ok _ => true
                 | Throw _ => false
                 end = true) by (vm_compute; reflexivity).
  destruct (EnhancedRun.performVisualAnalysis _ _ _ _ _) as [st'|m] eqn:Hrun.
  - apply (enhanced_visual_score_at_most_60 _ _ _ _ _ _ Hrun).
  - discriminate Hok.
Defined.

(** ** The enhanced variant: the components read from Figma *)

Lemma traverse_keys (toLowerCase : jsstring → jsstring) (n : Figma.Node) :
  ∀ components : gmap jsstring Figma.BoundingBox,
    (∀ key, is_Some (components !! key) → key ∈ EnhancedRun.frameNames) →
    ∀ key, is_Some (EnhancedRun.traverse toLowerCase n components !! key) →
           key ∈ EnhancedRun.frameNames.
Proof.
  induction n as [name type box children IH] using Node_induction.
  intros components Hkeys. cbn [EnhancedRun.traverse].
  set (components' := match box with Some _ => _ | None => _ end).
  assert (Hkeys' : ∀ key, is_Some (components' !! key) → key ∈ EnhancedRun.frameNames).
  { unfold components'. destruct box as [b|]; [|done].
    destruct (decide _) as [Hin|]; [|done].
    intros key. destruct (decide (toLowerCase name = key)) as [<-|Hne]; [done|].
    rewrite lookup_insert_ne by done. apply Hkeys. }
  clearbody components'. clear Hkeys.
  destruct children as [nodes|]; [|done].
  revert components' Hkeys'. induction IH as [|child nodes Hchild _ IHnodes];
    intros components' Hkeys'; cbn [foldl]; [done|].
  apply IHnodes. by apply Hchild.
Qed.

(** X19.  [extractComponents] records sizes under the five frame names
    only, whatever the document holds, so it returns at most five
    components. *)
Theorem extractComponents_keys (toLowerCase : jsstring → jsstring) (node : Figma.Node) :
  let components := EnhancedRun.extractComponents toLowerCase node in
  (∀ key, is_Some (components !! key) → key ∈ EnhancedRun.frameNames)
  ∧ (size components ≤ 5)%nat.
Proof.
  intros components.
  assert (Hkeys : ∀ key, is_Some (components !! key) → key ∈ EnhancedRun.frameNames).
  { apply traverse_keys. intros key. rewrite lookup_empty. by intros [? ?]. }
  split; [exact Hkeys|].
  assert (Hdom : dom components ⊆ list_to_set EnhancedRun.frameNames).
  { intros key Hin. apply elem_of_dom in Hin. apply elem_of_list_to_set. by apply Hkeys. }
  apply subseteq_size in Hdom. rewrite size_dom in Hdom.
  etrans; [exact Hdom|]. by vm_compute.
Qed.

(** ** [qa-analyzer.mjs]: a whole run *)

Lemma analyzeSections_keeps_files (cfg : Analyzer.Config) (page : Page)
    (pageName dir : jsstring) (st : State) (p : jsstring) :
  is_Some (fs st !! p) →
  is_Some (fs (Analyzer.analyzeSections cfg page pageName dir st) !! p).
Proof.
  unfold Analyzer.analyzeSections. revert st.
  induction (Analyzer.expectedFor cfg pageName) as [|s l IH]; intros st Hp; [done|].
  cbn [foldl]. apply IH. unfold Analyzer.analyzeSection. unfold_result.
  destruct (isVisible page _) as [[|]|m]; simpl; [|done..].
  destruct (elementScreenshot page _); simpl; [|done].
  destruct (decide (Analyzer.path_join dir (s ++ js ".png") = p)) as [->|Hne].
  - by rewrite lookup_insert_eq.
  - by rewrite lookup_insert_ne.
Qed.

Lemma analyzeSections_frame (cfg : Analyzer.Config) (page : Page)
    (pageName dir : jsstring) (st : State) (p : jsstring) :
  (∀ file, p ≠ Analyzer.path_join dir file) →
  fs (Analyzer.analyzeSections cfg page pageName dir st) !! p = fs st !! p.
Proof. intros Hp. apply foldl_analyzeSection_fs. intros section _. apply Hp. Qed.

Lemma sectionIssues_not_visual_diff (page : Page) (sections : list jsstring) :
  Forall not_visual_diff (flat_map (Analyzer.sectionIssues page) sections).
Proof.
  induction sections as [|s l IH]; [done|]. cbn [flat_map].
  apply Forall_app. split; [|done]. unfold Analyzer.sectionIssues.
  destruct (isVisible page _) as [[|]|m]; [|by repeat constructor..].
  destruct (elementScreenshot page _); by repeat constructor.
Qed.

Lemma validateCheck_not_visual_diff (toLowerCase : jsstring → jsstring) (page : Page)
    (check : Analyzer.StyleCheck) (entries : list (jsstring * jsstring)) (st : State) :
  Forall not_visual_diff (issues st) →
  Forall not_visual_diff (issues (Analyzer.validateCheck toLowerCase page check entries st)).
Proof.
  revert st. induction entries as [|[prop expected] entries IH]; intros st Hst; [done|].
  cbn [Analyzer.validateCheck]. destruct (computedStyle page _ prop) as [v|m].
  - apply IH. unfold Analyzer.compareStyle. destruct (negb _); [|done].
    apply Forall_app. split; [done|]. by repeat constructor.
  - apply Forall_app. split; [done|]. by repeat constructor.
Qed.

Lemma validateStyles_not_visual_diff (toLowerCase : jsstring → jsstring) (page : Page)
    (st : State) :
  Forall not_visual_diff (issues st) →
  Forall not_visual_diff (issues (Analyzer.validateStyles toLowerCase page st)).
Proof.
  unfold Analyzer.validateStyles, Analyzer.validateStylesOf. revert st.
  induction Analyzer.checks as [|c l IH]; intros st Hst; [done|].
  cbn [foldl]. by apply IH, validateCheck_not_visual_diff.
Qed.

Lemma validateStyles_fs (toLowerCase : jsstring → jsstring) (page : Page) (st : State) :
  fs (Analyzer.validateStyles toLowerCase page st) = fs st.
Proof.
  unfold Analyzer.validateStyles, Analyzer.validateStylesOf. revert st.
  induction Analyzer.checks as [|c l IH]; intros st; [done|].
  cbn [foldl]. rewrite IH. apply validateCheck_frame.
Qed.

Lemma validateStyles_issues_length (toLowerCase : jsstring → jsstring) (page : Page) (st : State) :
  (length (issues st) ≤ length (issues (Analyzer.validateStyles toLowerCase page st)))%nat.
Proof.
  unfold Analyzer.validateStyles, Analyzer.validateStylesOf. revert st.
  induction Analyzer.checks as [|c l IH]; intros st; [done|].
  cbn [foldl]. etrans; [|apply IH].
  apply prefix_length, validateCheck_frame.
Qed.

Lemma pageDir_distinct (runDate pageName vp1 vp2 file : jsstring) :
  vp1 ∈ AnalyzerRun.viewports → vp2 ∈ AnalyzerRun.viewports → vp1 ≠ vp2 →
  Analyzer.baselinePath (AnalyzerRun.pageDir runDate pageName vp2)
  ≠ Analyzer.path_join (AnalyzerRun.pageDir runDate pageName vp1) file.
Proof.
  unfold AnalyzerRun.viewports. rewrite !elem_of_cons, !elem_of_nil.
  intros [-> | [-> | [-> | []]]] [-> | [-> | [-> | []]]] Hne; try done;
    unfold Analyzer.baselinePath, AnalyzerRun.pageDir, AnalyzerRun.screenshotBaseDir,
      Analyzer.path_join; rewrite <- !app_assoc; intros H;
    do 5 apply app_inv_head in H; vm_compute in H; discriminate H.
Qed.

Section Run.
Context {L : ImageLib}.
Variable toLowerCase : jsstring → jsstring.
Variable cfg : Analyzer.Config.
Variable goto : jsstring → jsstring → result Page.
Variable webhookUrl : option jsstring.
Variable runDate : jsstring.

Lemma runOne_fresh (page : Page) (pageName url dir : jsstring)
    (files : gmap jsstring bytes) (report : Analyzer.Report) (st : State) :
  files !! Analyzer.baselinePath dir = None →
  Analyzer_runOne toLowerCase cfg page pageName url dir files = Ok (report, st) →
  Forall not_visual_diff (Analyzer.report_issues report)
  ∧ is_Some (fs st !! Analyzer.baselinePath dir)
  ∧ (∀ p, is_Some (files !! p) → is_Some (fs st !! p))
  ∧ (∀ p, (∀ file, p ≠ Analyzer.path_join dir file) → fs st !! p = files !! p).
Proof.
  intros Habsent. unfold Analyzer_runOne. unfold_result.
  destruct (screenshot page) as [shot|m] eqn:Hshot.
  2:{ unfold Analyzer.takeScreenshotWithDiff. unfold_result. by rewrite Hshot. }
  destruct (diffAgainstBaseline_absent dir (Analyzer.captured shot dir (mkState files [] [])))
    as [m Hm].
  { by rewrite captured_baseline. }
  rewrite (takeScreenshotWithDiff_catch _ _ _ _ _ Hshot Hm).
  intros [= <- <-]. split_and!.
  - cbn [Analyzer.generateReport Analyzer.report_issues].
    apply validateStyles_not_visual_diff. rewrite analyzeSections_issues.
    apply Forall_app. split; [done|]. apply sectionIssues_not_visual_diff.
  - rewrite validateStyles_fs. apply analyzeSections_keeps_files.
    cbn [writeFile fs]. by rewrite lookup_insert_eq.
  - intros p Hp. rewrite validateStyles_fs. apply analyzeSections_keeps_files.
    cbn [writeFile fs Analyzer.captured push_screenshot].
    destruct (decide (Analyzer.baselinePath dir = p)) as [->|?];
      [by rewrite lookup_insert_eq | rewrite lookup_insert_ne by done].
    destruct (decide (Analyzer.currentPath dir = p)) as [->|?];
      [by rewrite lookup_insert_eq | by rewrite lookup_insert_ne by done].
  - intros p Hp. rewrite validateStyles_fs, analyzeSections_frame by done.
    cbn [writeFile fs Analyzer.captured push_screenshot].
    rewrite !lookup_insert_ne; [done|..]; intros <-; by eapply Hp.
Qed.

Lemma visit_fresh (pageName url : jsstring) (r r' : AnalyzerRun.Run) (vp : jsstring) :
  AnalyzerRun.files r !! Analyzer.baselinePath (AnalyzerRun.pageDir runDate pageName vp) = None →
  AnalyzerRun.visit toLowerCase cfg goto webhookUrl runDate pageName url r vp = Ok r' →
  ∃ report,
    AnalyzerRun.reports r' = AnalyzerRun.reports r ++ [report]
    ∧ Forall not_visual_diff (Analyzer.report_issues report)
    ∧ is_Some (AnalyzerRun.files r' !! Analyzer.baselinePath (AnalyzerRun.pageDir runDate pageName vp))
    ∧ (∀ p, is_Some (AnalyzerRun.files r !! p) → is_Some (AnalyzerRun.files r' !! p))
    ∧ (∀ p, (∀ file, p ≠ Analyzer.path_join (AnalyzerRun.pageDir runDate pageName vp) file) →
            AnalyzerRun.files r' !! p = AnalyzerRun.files r !! p).
Proof.
  intros Habsent. unfold AnalyzerRun.visit.
  destruct (goto url vp) as [page|m]; [|done]. cbn [mbind result_bind].
  destruct (Analyzer_runOne _ _ _ _ _ _ _) as [[report st]|m] eqn:Hone; [|done].
  cbn [mbind result_bind]. intros [= <-].
  destruct (runOne_fresh _ _ _ _ _ _ _ Habsent Hone) as (Hnovd & Hbase & Hkeep & Hframe).
  exists report. unfold AnalyzerRun.sendSlackAlert.
  destruct (decide _); [|destruct (Figma.is_set webhookUrl)]; by split_and!.
Qed.

Lemma visit_alert (pageName url : jsstring) (r r' : AnalyzerRun.Run) (vp : jsstring) :
  AnalyzerRun.visit toLowerCase cfg goto webhookUrl runDate pageName url r vp = Ok r' →
  ∃ report,
    AnalyzerRun.reports r' = AnalyzerRun.reports r ++ [report]
    ∧ AnalyzerRun.alerts r'
      = AnalyzerRun.alerts r
        ++ (if Figma.is_set webhookUrl && bool_decide (Analyzer.status report = Analyzer.REVIEW)
            then [AnalyzerRun.alertMessage pageName vp runDate] else []).
Proof.
  unfold AnalyzerRun.visit.
  destruct (goto url vp) as [page|m]; [|done]. cbn [mbind result_bind].
  destruct (Analyzer_runOne _ _ _ _ _ _ _) as [[report st]|m] eqn:Hone; [|done].
  cbn [mbind result_bind]. intros [= <-]. exists report.
  unfold Analyzer_runOne in Hone. unfold_result.
  destruct (Analyzer.takeScreenshotWithDiff _ _ _) as [st0|m]; [|done].
  injection Hone as <- <-.
  cbn [Analyzer.generateReport Analyzer.status]. unfold AnalyzerRun.sendSlackAlert.
  destruct (decide _) as [Hz|Hz].
  - rewrite bool_decide_eq_false_2, andb_false_r by done.
    cbn [AnalyzerRun.reports AnalyzerRun.alerts]. by rewrite app_nil_r.
  - rewrite bool_decide_eq_true_2, andb_true_r by done.
    destruct (Figma.is_set webhookUrl); cbn [AnalyzerRun.reports AnalyzerRun.alerts];
      by rewrite ?app_nil_r.
Qed.

Lemma visitViewports_alerts (pageName url : jsstring) (vps : list jsstring)
    (r r' : AnalyzerRun.Run) :
  AnalyzerRun.visitViewports toLowerCase cfg goto webhookUrl runDate pageName url vps r = Ok r' →
  AnalyzerRun.alerts_match webhookUrl r →
  AnalyzerRun.alerts_match webhookUrl r'
  ∧ length (AnalyzerRun.reports r') = (length (AnalyzerRun.reports r) + length vps)%nat.
Proof.
  revert r. induction vps as [|vp vps IH]; intros r.
  - intros [= <-] Hr. split; [done|]. simpl. lia.
  - cbn [AnalyzerRun.visitViewports].
    destruct (AnalyzerRun.visit _ _ _ _ _ _ _ _ _) as [r1|m] eqn:Hvisit; [|done].
    cbn [mbind result_bind]. intros Hrest Hr.
    destruct (visit_alert _ _ _ _ _ Hvisit) as (report & Hreports & Halerts).
    destruct (IH r1 Hrest) as [Hmatch Hlen].
    + unfold AnalyzerRun.alerts_match in *. rewrite Halerts, Hreports, filter_app, !length_app, Hr.
      rewrite filter_cons, filter_nil.
      destruct (Figma.is_set _); [|done]. cbn [andb].
      destruct (decide _) as [Hrev|Hrev].
      * by rewrite bool_decide_eq_true_2.
      * by rewrite bool_decide_eq_false_2.
    + split; [done|]. rewrite Hlen, Hreports, length_app. simpl. lia.
Qed.

Lemma visitPages_alerts (singlePage : option jsstring) (pages : list (jsstring * jsstring))
    (r r' : AnalyzerRun.Run) :
  AnalyzerRun.visitPages toLowerCase cfg goto webhookUrl runDate singlePage pages r = Ok r' →
  AnalyzerRun.alerts_match webhookUrl r →
  AnalyzerRun.alerts_match webhookUrl r'
  ∧ length (AnalyzerRun.reports r')
    = (length (AnalyzerRun.reports r)
       + 3 * length (filter (λ p, AnalyzerRun.skipped singlePage p.1 = false) pages))%nat.
Proof.
  revert r. induction pages as [|[pageName url] pages IH]; intros r.
  - intros [= <-] Hr. split; [done|]. simpl. lia.
  - cbn [AnalyzerRun.visitPages]. rewrite filter_cons. cbn [fst].
    destruct (AnalyzerRun.skipped singlePage pageName) eqn:Hskip.
    + rewrite decide_False by done. apply IH.
    + rewrite decide_True by done.
      destruct (AnalyzerRun.visitViewports _ _ _ _ _ _ _ _ _) as [r1|m] eqn:Hvps; [|done].
      cbn [mbind result_bind]. intros Hrest Hr.
      destruct (visitViewports_alerts _ _ _ _ _ Hvps Hr) as [Hr1 Hlen1].
      destruct (IH r1 Hrest Hr1) as [Hr' Hlen]. split; [done|].
      rewrite Hlen, Hlen1. cbn [length AnalyzerRun.viewports]. lia.
Qed.

(** X20.  A run that completes generates three reports for every page
    it does not skip, and posts one Slack alert for each report whose
    status is REVIEW when a webhook URL is set, none at all when it is
    not. *)
Theorem run_alerts_match_reviews (singlePage : option jsstring)
    (pagesToTest : list (jsstring * jsstring)) (files : gmap jsstring bytes)
    (r : AnalyzerRun.Run) :
  AnalyzerRun.run toLowerCase cfg goto webhookUrl runDate singlePage pagesToTest files = Ok r →
  length (AnalyzerRun.reports r)
  = (3 * length (filter (λ p, AnalyzerRun.skipped singlePage p.1 = false) pagesToTest))%nat
  ∧ length (AnalyzerRun.alerts r)
    = if Figma.is_set webhookUrl
      then length (filter (λ report, Analyzer.status report = Analyzer.REVIEW)
                     (AnalyzerRun.reports r))
      else 0%nat.
Proof.
  intros Hrun. unfold AnalyzerRun.run in Hrun.
  destruct (visitPages_alerts _ _ _ _ Hrun) as [Hmatch Hlen].
  - unfold AnalyzerRun.alerts_match. simpl. by destruct (Figma.is_set _).
  - split; [exact Hlen | exact Hmatch].
Qed.

(** X21.  In a run directory that holds no baseline for the page (as
    one named after the second the run started), the three viewports of
    a page are all first runs: each creates its baseline, and none of
    the three reports holds a [visual_diff] issue, however the page
    looks.  The page and section names hold no path separator, so that
    the paths are the joined strings. *)
Theorem fresh_run_reports_no_visual_diff (pageName url : jsstring) (r r' : AnalyzerRun.Run) :
  Forall no_slash (pageName :: Analyzer.expectedFor cfg pageName) →
  (∀ vp, vp ∈ AnalyzerRun.viewports →
     AnalyzerRun.files r !! Analyzer.baselinePath (AnalyzerRun.pageDir runDate pageName vp) = None) →
  AnalyzerRun.visitViewports toLowerCase cfg goto webhookUrl runDate pageName url
    AnalyzerRun.viewports r = Ok r' →
  ∃ new,
    AnalyzerRun.reports r' = AnalyzerRun.reports r ++ new
    ∧ length new = 3%nat
    ∧ Forall (λ report, Forall not_visual_diff (Analyzer.report_issues report)) new
    ∧ ∀ vp, vp ∈ AnalyzerRun.viewports →
        is_Some (AnalyzerRun.files r' !! Analyzer.baselinePath (AnalyzerRun.pageDir runDate pageName vp)).
Proof.
  intros _ Hfresh. unfold AnalyzerRun.viewports in *. cbn [AnalyzerRun.visitViewports].
  destruct (AnalyzerRun.visit _ _ _ _ _ _ _ r _) as [r1|m] eqn:H1; [|done].
  cbn [mbind result_bind].
  destruct (AnalyzerRun.visit _ _ _ _ _ _ _ r1 _) as [r2|m] eqn:H2; [|done].
  cbn [mbind result_bind].
  destruct (AnalyzerRun.visit _ _ _ _ _ _ _ r2 _) as [r3|m] eqn:H3; [|done].
  cbn [mbind result_bind]. intros [= <-].
  assert (Hm : js "mobile" ∈ AnalyzerRun.viewports) by (unfold AnalyzerRun.viewports; rewrite !elem_of_cons; auto).
  assert (Ht : js "tablet" ∈ AnalyzerRun.viewports) by (unfold AnalyzerRun.viewports; rewrite !elem_of_cons; auto).
  assert (Hd : js "desktop" ∈ AnalyzerRun.viewports) by (unfold AnalyzerRun.viewports; rewrite !elem_of_cons; auto).
  apply visit_fresh in H1 as (rep1 & Hrep1 & Hnovd1 & Hbase1 & Hkeep1 & Hframe1);
    [|by apply Hfresh].
  apply visit_fresh in H2 as (rep2 & Hrep2 & Hnovd2 & Hbase2 & Hkeep2 & Hframe2).
  2:{ rewrite Hframe1; [by apply Hfresh|]. intros file. by apply pageDir_distinct. }
  apply visit_fresh in H3 as (rep3 & Hrep3 & Hnovd3 & Hbase3 & Hkeep3 & Hframe3).
  2:{ rewrite Hframe2, Hframe1; [by apply Hfresh|..]; intros file; by apply pageDir_distinct. }
  exists [rep1; rep2; rep3]. split_and!.
  - rewrite Hrep3, Hrep2, Hrep1, <- !app_assoc. done.
  - done.
  - by repeat constructor.
  - intros vp. rewrite !elem_of_cons, elem_of_nil. intros [-> | [-> | [-> | []]]]; auto.
Qed.

End Run.

Lemma run_alerts_match_reviews_witness :
  match AnalyzerRun.run (L := Reference.lib) Str.toLowerCase_ascii Sample.cfg SampleRun.goto
          SampleRun.webhookUrl SampleRun.runDate None SampleRun.pagesToTest ∅ with
  | Ok r =>
      length (AnalyzerRun.reports r) = 6%nat
      ∧ length (AnalyzerRun.alerts r)
        = length (filter (λ report, Analyzer.status report = Analyzer.REVIEW)
                    (AnalyzerRun.reports r))
  | Throw _ => False
  end.
Proof.
  assert (Hok : match AnalyzerRun.run (L := Reference.lib) Str.toLowerCase_ascii Sample.cfg
                         SampleRun.goto SampleRun.webhookUrl SampleRun.runDate None
                         SampleRun.pagesToTest ∅ with
                 | Ok _ => true
                 | Throw _ => false
                 end = true) by (vm_compute; reflexivity).
  destruct (AnalyzerRun.run _ _ _ _ _ _ _ _) as [r|m] eqn:Hrun.
  - apply (run_alerts_match_reviews _ _ _ _ _ _ _ _ _ Hrun).
  - discriminate Hok.
Defined.

(** The run of the scenario: six reports, four of them to review, and
    four alerts. *)
Example run_two_pages :
  match AnalyzerRun.run (L := Reference.lib) Str.toLowerCase_ascii Sample.cfg SampleRun.goto
          SampleRun.webhookUrl SampleRun.runDate None SampleRun.pagesToTest ∅ with
  | Ok r =>
      Analyzer.status <$> AnalyzerRun.reports r
      = [Analyzer.PASS; Analyzer.REVIEW; Analyzer.REVIEW;
         Analyzer.PASS; Analyzer.REVIEW; Analyzer.REVIEW]
      ∧ length (AnalyzerRun.alerts r) = 4%nat
  | Throw _ => False
  end.
Proof. vm_compute. split; reflexivity. Qed.

Lemma fresh_run_reports_no_visual_diff_witness :
  match AnalyzerRun.visitViewports (L := Reference.lib) Str.toLowerCase_ascii Sample.cfg
          SampleRun.goto SampleRun.webhookUrl SampleRun.runDate
          Sample.home (js "https://example.com/") AnalyzerRun.viewports
          (AnalyzerRun.mkRun ∅ [] []) with
  | Ok r' =>
      ∃ new,
        AnalyzerRun.reports r' = [] ++ new
        ∧ length new = 3%nat
        ∧ Forall (λ report, Forall not_visual_diff (Analyzer.report_issues report)) new
        ∧ ∀ vp, vp ∈ AnalyzerRun.viewports →
            is_Some (AnalyzerRun.files r'
                     !! Analyzer.baselinePath (AnalyzerRun.pageDir SampleRun.runDate Sample.home vp))
  | Throw _ => False
  end.
Proof.
  assert (Hok : match AnalyzerRun.visitViewports (L := Reference.lib) Str.toLowerCase_ascii
                         Sample.cfg SampleRun.goto SampleRun.webhookUrl SampleRun.runDate
                         Sample.home (js "https://example.com/") AnalyzerRun.viewports
                         (AnalyzerRun.mkRun ∅ [] []) with
                 | Ok _ => true
                 | Throw _ => false
                 end = true) by (vm_compute; reflexivity).
  destruct (AnalyzerRun.visitViewports _ _ _ _ _ _ _ _ _) as [r'|m] eqn:Hrun.
  - refine (fresh_run_reports_no_visual_diff _ _ _ _ _ _ _ _ _ _ _ Hrun).
    + apply (bool_decide_unpack _). vm_compute. reflexivity.
    + intros vp _. apply lookup_empty.
  - discriminate Hok.
Defined.
